(** * logs_parser: the log-parsing and aggregation engine of [parser.py]

    A shallow embedding of class [Parser] (src/parser.py): the four compiled
    patterns, the three line handlers, the line loop of [parse] and the derived
    metrics [average_words], [average_times], [max_times] and [rps], followed
    by the properties of the specification, and [most_popular_request] and
    the report of the invalid tokens in [main] (src/main.py), for every order
    in which a [dict] or a [set] yields its items.

    Modelling choices, all taken from the Python semantics of the source:
    - a [str] is a list of Unicode code points; the character classes of the
      interpreter's Unicode database ([\d], [\s], [\w], [str.strip],
      [str.split], [int], [float]) are a parameter ([UnicodeDB]), with the
      ASCII tables as the instance used on concrete lines;
    - [re] is a backtracking matcher over the constructs the four patterns use;
    - [float] is IEEE 754 binary64 ([SpecFloat], round to nearest even);
    - [int] raises on a numeral of more digits than the interpreter's default
      limit ([sys.get_int_max_str_digits()], 4300);
    - [ValueError] is an explicit outcome: a handler that raises leaves the
      mutations it made before the raise in the state, and [parse] stops;
    - the file is the lines its iteration yields, and whether the iteration
      then ends or raises. *)

From Stdlib Require Import ZArith NArith List String Ascii Bool Lia.
From Stdlib Require Import Floats.SpecFloat.
From stdpp Require Import gmap strings list fin_maps.

Local Open Scope Z_scope.

(* ===================================================================== *)
(** ** Python strings *)
(* ===================================================================== *)

(** A character is its code point. *)
Abbreviation char := N (only parsing).
Abbreviation str := (list N) (only parsing).

(** A string literal of the source, as a [str]. *)
Definition py (s : string) : str :=
  List.map N_of_ascii (list_ascii_of_string s).

(** The character tables of the interpreter (unicodedata):
    [decimal c] is [Py_UNICODE_TODECIMAL], [isspace c] is [Py_UNICODE_ISSPACE],
    [isalnum c] is [Py_UNICODE_ISALNUM]. *)
Class UnicodeDB := {
  decimal : char -> option N;
  isspace : char -> bool;
  isalnum : char -> bool
}.

(** The tables restricted to ASCII (every other code point is in no class). *)
Definition ascii_decimal (c : char) : option N :=
  if ((48 <=? c) && (c <=? 57))%N then Some (c - 48)%N else None.
Definition ascii_isspace (c : char) : bool :=
  (((9 <=? c) && (c <=? 13)) || ((28 <=? c) && (c <=? 32)))%N.
Definition ascii_isalnum (c : char) : bool :=
  (((48 <=? c) && (c <=? 57)) || ((65 <=? c) && (c <=? 90))
   || ((97 <=? c) && (c <=? 122)))%N.

Definition ascii_db : UnicodeDB :=
  {| decimal := ascii_decimal; isspace := ascii_isspace; isalnum := ascii_isalnum |}.

Definition ch (a : ascii) : char := N_of_ascii a.

(** [c in "0".."9"] and friends: ASCII ranges written in a pattern. *)
Definition in_range (lo hi : ascii) (c : char) : bool :=
  ((ch lo <=? c) && (c <=? ch hi))%N.

(** [s] without its prefix [p], when [s.startswith(p)]. *)
Fixpoint strip_prefix (p s : str) : option str :=
  match p, s with
  | [], _ => Some s
  | a :: p', b :: s' => if (a =? b)%N then strip_prefix p' s' else None
  | _ :: _, [] => None
  end.

(** [sub in s] *)
Fixpoint contains (sub s : str) : bool :=
  match strip_prefix sub s with
  | Some _ => true
  | None => match s with
            | [] => false
            | _ :: s' => contains sub s'
            end
  end.

Fixpoint drop_while (p : char -> bool) (s : str) : str :=
  match s with
  | [] => []
  | c :: s' => if p c then drop_while p s' else s
  end.

(** [s.rstrip("\n")] *)
Definition rstrip_nl (s : str) : str :=
  rev (drop_while (fun c => (c =? 10)%N) (rev s)).

Section Unicode.
Context {U : UnicodeDB}.

Definition isdecimal (c : char) : bool :=
  match decimal c with Some _ => true | None => false end.

(** [s.strip()] *)
Definition lstrip (s : str) : str := drop_while isspace s.
Definition strip (s : str) : str := rev (lstrip (rev (lstrip s))).

(** [len(s.split())]: the number of maximal runs of non-space characters. *)
Fixpoint count_words_from (in_word : bool) (s : str) : Z :=
  match s with
  | [] => 0
  | c :: s' =>
      if isspace c then count_words_from false s'
      else (if in_word then 0 else 1) + count_words_from true s'
  end.
Definition count_words (s : str) : Z := count_words_from false s.

(** The value of a string of decimal digits (what [\d+] captures): the digits
    are read by their decimal value. *)
Definition digit_value (c : char) : Z :=
  match decimal c with Some d => Z.of_N d | None => 0 end.
Definition int_of_digits (s : str) : Z :=
  fold_left (fun acc c => 10 * acc + digit_value c) s 0.

(** [sys.get_int_max_str_digits()] as the interpreter starts (CPython 3.11
    and the releases the limit was ported to). *)
Definition int_max_str_digits : Z := 4300.

(** [int(s)] on a string of decimal digits: [None] is the [ValueError] raised
    for a numeral of more digits than the limit, leading zeros counted. *)
Definition int (s : str) : option Z :=
  if Z.of_nat (length s) <=? int_max_str_digits then Some (int_of_digits s)
  else None.

End Unicode.

(* ===================================================================== *)
(** ** The [re] module, for the constructs of the four patterns *)
(* ===================================================================== *)

Module Re.

(** Character sets: [.], [[0-9a-f]], [\S], [\s], [\d], [\w], [[\d.]]. *)
Inductive cset :=
| Any | Hex | NonSpace | Space | Digit | Word | DigitOrDot.

(** One instruction of a compiled pattern.  A group [(?P<g>...)] is the pair
    of marks [Open g] ... [Close g] around its body. *)
Inductive op :=
| Lit (l : string)            (* literal text *)
| One (c : cset)              (* c      *)
| LazyStar (c : cset)         (* c*?    *)
| Plus (c : cset)             (* c+     *)
| Times (n : nat) (c : cset)  (* c{n}   *)
| Open (g : string)
| Close (g : string).

Definition pattern := list op.

Definition Group (g : string) (body : pattern) : pattern :=
  Open g :: body ++ [Close g].

(** A match in progress: the groups closed so far, and for every opened group
    the text that was still to be read when it opened. *)
Record mstate := {
  caps : list (string * str);
  marks : list (string * str)
}.

Definition m_init : mstate := {| caps := []; marks := [] |}.

Fixpoint assoc {A} (g : string) (l : list (string * A)) : option A :=
  match l with
  | [] => None
  | (k, v) :: l' => if String.eqb g k then Some v else assoc g l'
  end.

Definition m_open (g : string) (s : str) (m : mstate) : mstate :=
  {| caps := caps m; marks := (g, s) :: marks m |}.

Definition m_close (g : string) (s : str) (m : mstate) : mstate :=
  match assoc g (marks m) with
  | Some s0 =>
      {| caps := (g, firstn (length s0 - length s) s0) :: caps m;
         marks := marks m |}
  | None => m
  end.

(** [match.group(g)] *)
Definition group (m : mstate) (g : string) : str :=
  match assoc g (caps m) with Some t => t | None => [] end.

(** Repetition of a character test [p], continuing with [k] on the rest. *)
Section Repeat.
Context {R : Type} (p : char -> bool) (k : str -> option R).

(** [c*?]: as few as possible. *)
Fixpoint lazy_star (s : str) : option R :=
  match k s with
  | Some r => Some r
  | None =>
      match s with
      | c :: s' => if p c then lazy_star s' else None
      | [] => None
      end
  end.

(** [c+]: as many as possible, giving back one at a time. *)
Fixpoint greedy_plus (s : str) : option R :=
  match s with
  | c :: s' =>
      if p c then
        match greedy_plus s' with
        | Some r => Some r
        | None => k s'
        end
      else None
  | [] => None
  end.

(** [c{n}] *)
Fixpoint exactly (n : nat) (s : str) : option R :=
  match n with
  | O => k s
  | S n' =>
      match s with
      | c :: s' => if p c then exactly n' s' else None
      | [] => None
      end
  end.
End Repeat.

Section Engine.
Context {U : UnicodeDB}.

Definition in_cset (cs : cset) (c : char) : bool :=
  match cs with
  | Any => negb (c =? 10)%N
  | Hex => in_range "0" "9" c || in_range "a" "f" c
  | NonSpace => negb (isspace c)
  | Space => isspace c
  | Digit => isdecimal c
  | Word => isalnum c || (c =? ch "_")%N
  | DigitOrDot => isdecimal c || (c =? ch ".")%N
  end.

(** Match [ops] at the start of [s]. *)
Fixpoint run (ops : pattern) (s : str) (m : mstate) : option mstate :=
  match ops with
  | [] => Some m
  | Lit l :: ops' =>
      match strip_prefix (py l) s with
      | Some s' => run ops' s' m
      | None => None
      end
  | One c :: ops' => exactly (in_cset c) (fun s' => run ops' s' m) 1 s
  | LazyStar c :: ops' => lazy_star (in_cset c) (fun s' => run ops' s' m) s
  | Plus c :: ops' => greedy_plus (in_cset c) (fun s' => run ops' s' m) s
  | Times n c :: ops' => exactly (in_cset c) (fun s' => run ops' s' m) n s
  | Open g :: ops' => run ops' s (m_open g s m)
  | Close g :: ops' => run ops' s (m_close g s m)
  end.

(** [pattern.search(s)]: the first position, from the left, where it matches. *)
Fixpoint search (ops : pattern) (s : str) : option mstate :=
  match run ops s m_init with
  | Some m => Some m
  | None =>
      match s with
      | [] => None
      | _ :: s' => search ops s'
      end
  end.

End Engine.
End Re.

Import Re.

(* ===================================================================== *)
(** ** The class-level patterns of [Parser] *)
(* ===================================================================== *)

(** [r"\[(\d{2})\.(\d{2})\.(\d{2}) (\d{2}:\d{2}:\d{2})]"] *)
Definition INTERNAL_TIMESTAMP : pattern :=
  [Lit "["] ++ Group "1" [Times 2 Digit] ++ [Lit "."]
  ++ Group "2" [Times 2 Digit] ++ [Lit "."]
  ++ Group "3" [Times 2 Digit] ++ [Lit " "]
  ++ Group "4" [Times 2 Digit; Lit ":"; Times 2 Digit; Lit ":"; Times 2 Digit]
  ++ [Lit "]"].

(** [r".*?Incoming Conn\{(?P<conn_hex_id>[0-9a-f]+)} on (?P<raw_ip_port>\S+) accepted, "
    r"(?P<open_connections>\d+) of (?P<limit>\d+)"] *)
Definition CONNECTION : pattern :=
  [LazyStar Any; Lit "Incoming Conn{"] ++ Group "conn_hex_id" [Plus Hex]
  ++ [Lit "} on "] ++ Group "raw_ip_port" [Plus NonSpace]
  ++ [Lit " accepted, "] ++ Group "open_connections" [Plus Digit]
  ++ [Lit " of "] ++ Group "limit" [Plus Digit].

(** [r".*?On Conn\{(?P<conn_hex_id>[0-9a-f]+)} new Query\{(?P<query_hex_id>[0-9a-f]+)} "
    r"\[(?P<query_id>\d+)]: (?P<text_decoded>.+)"] *)
Definition NEW_QUERY : pattern :=
  [LazyStar Any; Lit "On Conn{"] ++ Group "conn_hex_id" [Plus Hex]
  ++ [Lit "} new Query{"] ++ Group "query_hex_id" [Plus Hex]
  ++ [Lit "} ["] ++ Group "query_id" [Plus Digit]
  ++ [Lit "]: "] ++ Group "text_decoded" [Plus Any].

(** [r".*?End Query\{(?P<query_hex_id>[0-9a-f]+)} \[(?P<query_id>\d+)], (?P<status>\w+),\s"
    r"spent \{ (?P<time_total_ms>[\d.]+) : (?P<time_in_queue_ms>[\d.]+) queue, "
    r"(?P<time_working_ms>[\d.]+) work } ms, (?P<response_size_bytes>\d+) bytes"] *)
Definition END : pattern :=
  [LazyStar Any; Lit "End Query{"] ++ Group "query_hex_id" [Plus Hex]
  ++ [Lit "} ["] ++ Group "query_id" [Plus Digit]
  ++ [Lit "], "] ++ Group "status" [Plus Word]
  ++ [Lit ","; One Space; Lit "spent { "] ++ Group "time_total_ms" [Plus DigitOrDot]
  ++ [Lit " : "] ++ Group "time_in_queue_ms" [Plus DigitOrDot]
  ++ [Lit " queue, "] ++ Group "time_working_ms" [Plus DigitOrDot]
  ++ [Lit " work } ms, "] ++ Group "response_size_bytes" [Plus Digit]
  ++ [Lit " bytes"].

(* ===================================================================== *)
(** ** [ipaddress.IPv4Address] *)
(* ===================================================================== *)

(** [s.split(sep)] for a one-character separator. *)
Fixpoint split_on (sep : char) (s : str) : list str :=
  match s with
  | [] => [[]]
  | c :: s' =>
      if (c =? sep)%N then [] :: split_on sep s'
      else match split_on sep s' with
           | w :: ws => (c :: w) :: ws
           | [] => [[c]]
           end
  end.

(** [s.split(sep, 1)[0]] *)
Fixpoint before_first (sep : char) (s : str) : str :=
  match s with
  | [] => []
  | c :: s' => if (c =? sep)%N then [] else c :: before_first sep s'
  end.

(** [int(octet_str, 10)] on ASCII digits. *)
Definition int_ascii (s : str) : Z :=
  fold_left (fun acc c => 10 * acc + (Z.of_N c - 48)) s 0.

(** [IPv4Address._parse_octet] (CPython 3.9.5 and later): [None] is its
    [ValueError]. *)
Definition parse_octet (octet_str : str) : option Z :=
  match octet_str with
  | [] => None                                   (* Empty octet not permitted *)
  | c0 :: _ =>
      if negb (forallb (in_range "0" "9") octet_str) then None
                                                 (* isascii() and isdigit() *)
      else if (3 <? length octet_str)%nat then None
                                                 (* At most 3 characters *)
      else if negb (bool_decide (octet_str = py "0")) && (c0 =? ch "0")%N
      then None                                  (* Leading zeros *)
      else
        let octet_int := int_ascii octet_str in
        if 255 <? octet_int then None else Some octet_int
  end.

Fixpoint parse_octets (octets : list str) : option (list Z) :=
  match octets with
  | [] => Some []
  | o :: os =>
      match parse_octet o, parse_octets os with
      | Some v, Some vs => Some (v :: vs)
      | _, _ => None
      end
  end.

(** [IPv4Address(address)] for a [str]: the address as an integer, or [None]
    for [AddressValueError] (a [ValueError]). *)
Definition IPv4Address (address : str) : option Z :=
  if contains (py "/") address then None
  else match address with
       | [] => None                              (* Address cannot be empty *)
       | _ =>
           let octets := split_on (ch ".") address in
           if negb (length octets =? 4)%nat then None
           else option_map (fun bs => fold_left (fun acc b => 256 * acc + b) bs 0)
                           (parse_octets octets)
       end.

(* ===================================================================== *)
(** ** [float]: IEEE 754 binary64 *)
(* ===================================================================== *)

Definition prec : Z := 53.
Definition emax : Z := 1024.

Abbreviation float := spec_float (only parsing).

Definition float_zero : float := S754_zero false.   (* 0.0 *)
Definition fadd : float -> float -> float := SFadd prec emax.
Definition fdiv : float -> float -> float := SFdiv prec emax.
Definition fltb : float -> float -> bool := SFltb.
Definition fleb : float -> float -> bool := SFleb.

(** An integer as an exact, not yet rounded, binary number. *)
Definition exact_int (z : Z) : float :=
  match z with
  | Z0 => S754_zero false
  | Zpos p => S754_finite false p 0
  | Zneg p => S754_finite true p 0
  end.

(** [a / b] on two [int]s, [b] not zero: the correctly rounded quotient. *)
Definition int_true_div (a b : Z) : float := fdiv (exact_int a) (exact_int b).

(** [float(n)] for an [int]: the nearest double. *)
Definition float_of_int (n : Z) : float := binary_normalize prec emax n 0 false.

Section FloatParse.
Context {U : UnicodeDB}.

(** The leading decimal digits of [s], by value, and what follows them. *)
Fixpoint span_digits (s : str) : list N * str :=
  match s with
  | [] => ([], [])
  | c :: s' =>
      match decimal c with
      | Some d => let '(ds, r) := span_digits s' in (d :: ds, r)
      | None => ([], s)
      end
  end.

Definition digits_value (ds : list N) : Z :=
  fold_left (fun acc d => 10 * acc + Z.of_N d) ds 0.

(** [float(s)] on the strings [[\d.]+] can capture: digits with at most one
    point and at least one digit; the value is the nearest double to the
    decimal numeral.  [None] is [ValueError].  (Signs, exponents, [inf],
    [nan], underscores and surrounding white space, which [float] also reads,
    contain a character outside [[\d.]].) *)
Definition float_of_str (s : str) : option float :=
  let '(ip, r) := span_digits s in
  match r with
  | [] =>
      match ip with
      | [] => None
      | _ => Some (int_true_div (digits_value ip) 1)
      end
  | c :: r' =>
      if (c =? ch ".")%N then
        let '(fp, r'') := span_digits r' in
        match r'', ip ++ fp with
        | [], _ :: _ =>
            Some (int_true_div (digits_value (ip ++ fp))
                               (10 ^ Z.of_nat (length fp)))
        | _, _ => None
        end
      else None
  end.

End FloatParse.

(* ===================================================================== *)
(** ** [datetime] *)
(* ===================================================================== *)

Record datetime := {
  year : Z; month : Z; day : Z; hour : Z; minute : Z; second : Z
}.

Definition is_leap (y : Z) : bool :=
  (y mod 4 =? 0) && (negb (y mod 100 =? 0) || (y mod 400 =? 0)).

Definition days_in_month (y m : Z) : Z :=
  if m =? 2 then (if is_leap y then 29 else 28)
  else if (m =? 4) || (m =? 6) || (m =? 9) || (m =? 11) then 30 else 31.

Definition days_before_year (y : Z) : Z :=
  let y1 := y - 1 in y1 * 365 + y1 / 4 - y1 / 100 + y1 / 400.

Definition days_before_month (y m : Z) : Z :=
  fold_left (fun acc k => acc + days_in_month y (Z.of_nat k))
            (seq 1 (Z.to_nat (m - 1))) 0.

(** [d.toordinal()] *)
Definition toordinal (d : datetime) : Z :=
  days_before_year (year d) + days_before_month (year d) (month d) + day d.

(** [a < b]: the fields compared in order. *)
Definition dt_tuple (d : datetime) : list Z :=
  [year d; month d; day d; hour d; minute d; second d].

Fixpoint lex_compare (a b : list Z) : comparison :=
  match a, b with
  | [], [] => Eq
  | [], _ :: _ => Lt
  | _ :: _, [] => Gt
  | x :: a', y :: b' =>
      match x ?= y with
      | Eq => lex_compare a' b'
      | c => c
      end
  end.

Definition dt_compare (a b : datetime) : comparison :=
  lex_compare (dt_tuple a) (dt_tuple b).
Definition dt_ltb (a b : datetime) : bool :=
  match dt_compare a b with Lt => true | _ => false end.
Definition dt_leb (a b : datetime) : bool :=
  match dt_compare a b with Gt => false | _ => true end.

(** [(a - b).total_seconds()]: whole seconds, as microseconds over 10**6. *)
Definition seconds_of_day (d : datetime) : Z :=
  hour d * 3600 + minute d * 60 + second d.
Definition diff_seconds (a b : datetime) : Z :=
  (toordinal a - toordinal b) * 86400 + (seconds_of_day a - seconds_of_day b).
Definition total_seconds (a b : datetime) : float :=
  int_true_div (diff_seconds a b * 10 ^ 6) (10 ^ 6).

Section Strptime.
Context {U : UnicodeDB}.

(** The readings of one directive of [datetime.strptime], in the order its
    alternatives are tried: the text read and the text left. *)
Definition reading := (str * str)%type.

Definition two (p1 p2 : char -> bool) (s : str) : list reading :=
  match s with
  | c1 :: c2 :: r => if p1 c1 && p2 c2 then [([c1; c2], r)] else []
  | _ => []
  end.
Definition one (p : char -> bool) (s : str) : list reading :=
  match s with
  | c :: r => if p c then [([c], r)] else []
  | _ => []
  end.
Definition is_char (a : ascii) (c : char) : bool := (c =? ch a)%N.

(** [%Y]: [\d\d\d\d] *)
Definition dir_Y (s : str) : list reading :=
  match s with
  | a :: b :: c :: d :: r =>
      if isdecimal a && isdecimal b && isdecimal c && isdecimal d
      then [([a; b; c; d], r)] else []
  | _ => []
  end.
(** [%m]: [1[0-2]|0[1-9]|[1-9]] *)
Definition dir_m (s : str) : list reading :=
  two (is_char "1") (in_range "0" "2") s ++ two (is_char "0") (in_range "1" "9") s
  ++ one (in_range "1" "9") s.
(** [%d]: [3[0-1]|[1-2]\d|0[1-9]|[1-9]| [1-9]] *)
Definition dir_d (s : str) : list reading :=
  two (is_char "3") (in_range "0" "1") s ++ two (in_range "1" "2") isdecimal s
  ++ two (is_char "0") (in_range "1" "9") s ++ one (in_range "1" "9") s
  ++ two (is_char " ") (in_range "1" "9") s.
(** [%H]: [2[0-3]|[0-1]\d|\d] *)
Definition dir_H (s : str) : list reading :=
  two (is_char "2") (in_range "0" "3") s ++ two (in_range "0" "1") isdecimal s
  ++ one isdecimal s.
(** [%M]: [[0-5]\d|\d] *)
Definition dir_M (s : str) : list reading :=
  two (in_range "0" "5") isdecimal s ++ one isdecimal s.
(** [%S]: [6[0-1]|[0-5]\d|\d] *)
Definition dir_S (s : str) : list reading :=
  two (is_char "6") (in_range "0" "1") s ++ two (in_range "0" "5") isdecimal s
  ++ one isdecimal s.
(** a literal character of the format *)
Definition lit (a : ascii) (s : str) : list str :=
  match s with
  | c :: r => if is_char a c then [r] else []
  | [] => []
  end.
(** white space in the format: [\s+], longest first *)
Fixpoint spaces (s : str) : list str :=
  match s with
  | c :: r => if isspace c then spaces r ++ [r] else []
  | [] => []
  end.

(** The matches of the format ["%Y-%m-%d %H:%M:%S"] at the start of [s], in
    the order the backtracking finds them: the six fields and the rest. *)
Definition format_matches (s : str) : list (list str * str) :=
  '(fY, s) ← dir_Y s; s ← lit "-" s;
  '(fm, s) ← dir_m s; s ← lit "-" s;
  '(fd, s) ← dir_d s; s ← spaces s;
  '(fH, s) ← dir_H s; s ← lit ":" s;
  '(fM, s) ← dir_M s; s ← lit ":" s;
  '(fS, s) ← dir_S s;
  [([fY; fm; fd; fH; fM; fS], s)].

(** [datetime.strptime(data, "%Y-%m-%d %H:%M:%S")]; [None] is [ValueError]
    (no match, unconverted data, or a field out of range for [datetime]).
    A field holds at most four digits, far below the limit of [int]. *)
Definition strptime (data : str) : option datetime :=
  match format_matches data with
  | ([fY; fm; fd; fH; fM; fS], []) :: _ =>
      let dt := {| year := int_of_digits fY; month := int_of_digits fm;
                   day := int_of_digits (strip fd); hour := int_of_digits fH;
                   minute := int_of_digits fM; second := int_of_digits fS |} in
      if (1 <=? year dt) && (year dt <=? 9999)
         && (1 <=? month dt) && (month dt <=? 12)
         && (1 <=? day dt) && (day dt <=? days_in_month (year dt) (month dt))
         && (hour dt <=? 23) && (minute dt <=? 59) && (second dt <=? 59)
      then Some dt else None
  | _ => None
  end.

End Strptime.

(* ===================================================================== *)
(** ** The state of a [Parser] *)
(* ===================================================================== *)

(** The attributes assigned in [__init__] ([path] apart: the opened file is
    the list of its lines). *)
Record Parser := {
  connections : gmap (list N) (list N);
  query_to_ip : gmap Z (list N);
  request_freq : gmap (list N) Z;
  total_words : Z;
  all_ips : gset (list N);
  invalid_ips : gset (list N);
  first_end_time : option datetime;
  last_end_time : option datetime;
  total_time_working_ms : spec_float;
  total_time_with_waiting_ms : spec_float;
  max_handling_time_working_ms : spec_float;
  max_handling_time_with_waiting_ms : spec_float;
  new_query_ids : gset Z;
  finished_query_ids : gset Z
}.

(** [Parser.__init__] *)
Definition init : Parser :=
  {| connections := ∅; query_to_ip := ∅; request_freq := ∅; total_words := 0;
     all_ips := ∅; invalid_ips := ∅;
     first_end_time := None; last_end_time := None;
     total_time_working_ms := float_zero;
     total_time_with_waiting_ms := float_zero;
     max_handling_time_working_ms := float_zero;
     max_handling_time_with_waiting_ms := float_zero;
     new_query_ids := ∅; finished_query_ids := ∅ |}.

(** [self.attr = v] *)
Definition set_connections (v : gmap (list N) (list N)) (self : Parser) : Parser :=
  {| connections := v; query_to_ip := query_to_ip self;
     request_freq := request_freq self; total_words := total_words self;
     all_ips := all_ips self; invalid_ips := invalid_ips self;
     first_end_time := first_end_time self;
     last_end_time := last_end_time self;
     total_time_working_ms := total_time_working_ms self;
     total_time_with_waiting_ms := total_time_with_waiting_ms self;
     max_handling_time_working_ms := max_handling_time_working_ms self;
     max_handling_time_with_waiting_ms := max_handling_time_with_waiting_ms self;
     new_query_ids := new_query_ids self;
     finished_query_ids := finished_query_ids self |}.
Definition set_query_to_ip (v : gmap Z (list N)) (self : Parser) : Parser :=
  {| connections := connections self; query_to_ip := v;
     request_freq := request_freq self; total_words := total_words self;
     all_ips := all_ips self; invalid_ips := invalid_ips self;
     first_end_time := first_end_time self;
     last_end_time := last_end_time self;
     total_time_working_ms := total_time_working_ms self;
     total_time_with_waiting_ms := total_time_with_waiting_ms self;
     max_handling_time_working_ms := max_handling_time_working_ms self;
     max_handling_time_with_waiting_ms := max_handling_time_with_waiting_ms self;
     new_query_ids := new_query_ids self;
     finished_query_ids := finished_query_ids self |}.
Definition set_request_freq (v : gmap (list N) Z) (self : Parser) : Parser :=
  {| connections := connections self; query_to_ip := query_to_ip self;
     request_freq := v; total_words := total_words self;
     all_ips := all_ips self; invalid_ips := invalid_ips self;
     first_end_time := first_end_time self;
     last_end_time := last_end_time self;
     total_time_working_ms := total_time_working_ms self;
     total_time_with_waiting_ms := total_time_with_waiting_ms self;
     max_handling_time_working_ms := max_handling_time_working_ms self;
     max_handling_time_with_waiting_ms := max_handling_time_with_waiting_ms self;
     new_query_ids := new_query_ids self;
     finished_query_ids := finished_query_ids self |}.
Definition set_total_words (v : Z) (self : Parser) : Parser :=
  {| connections := connections self; query_to_ip := query_to_ip self;
     request_freq := request_freq self; total_words := v;
     all_ips := all_ips self; invalid_ips := invalid_ips self;
     first_end_time := first_end_time self;
     last_end_time := last_end_time self;
     total_time_working_ms := total_time_working_ms self;
     total_time_with_waiting_ms := total_time_with_waiting_ms self;
     max_handling_time_working_ms := max_handling_time_working_ms self;
     max_handling_time_with_waiting_ms := max_handling_time_with_waiting_ms self;
     new_query_ids := new_query_ids self;
     finished_query_ids := finished_query_ids self |}.
Definition set_all_ips (v : gset (list N)) (self : Parser) : Parser :=
  {| connections := connections self; query_to_ip := query_to_ip self;
     request_freq := request_freq self; total_words := total_words self;
     all_ips := v; invalid_ips := invalid_ips self;
     first_end_time := first_end_time self;
     last_end_time := last_end_time self;
     total_time_working_ms := total_time_working_ms self;
     total_time_with_waiting_ms := total_time_with_waiting_ms self;
     max_handling_time_working_ms := max_handling_time_working_ms self;
     max_handling_time_with_waiting_ms := max_handling_time_with_waiting_ms self;
     new_query_ids := new_query_ids self;
     finished_query_ids := finished_query_ids self |}.
Definition set_invalid_ips (v : gset (list N)) (self : Parser) : Parser :=
  {| connections := connections self; query_to_ip := query_to_ip self;
     request_freq := request_freq self; total_words := total_words self;
     all_ips := all_ips self; invalid_ips := v;
     first_end_time := first_end_time self;
     last_end_time := last_end_time self;
     total_time_working_ms := total_time_working_ms self;
     total_time_with_waiting_ms := total_time_with_waiting_ms self;
     max_handling_time_working_ms := max_handling_time_working_ms self;
     max_handling_time_with_waiting_ms := max_handling_time_with_waiting_ms self;
     new_query_ids := new_query_ids self;
     finished_query_ids := finished_query_ids self |}.
Definition set_first_end_time (v : option datetime) (self : Parser) : Parser :=
  {| connections := connections self; query_to_ip := query_to_ip self;
     request_freq := request_freq self; total_words := total_words self;
     all_ips := all_ips self; invalid_ips := invalid_ips self;
     first_end_time := v; last_end_time := last_end_time self;
     total_time_working_ms := total_time_working_ms self;
     total_time_with_waiting_ms := total_time_with_waiting_ms self;
     max_handling_time_working_ms := max_handling_time_working_ms self;
     max_handling_time_with_waiting_ms := max_handling_time_with_waiting_ms self;
     new_query_ids := new_query_ids self;
     finished_query_ids := finished_query_ids self |}.
Definition set_last_end_time (v : option datetime) (self : Parser) : Parser :=
  {| connections := connections self; query_to_ip := query_to_ip self;
     request_freq := request_freq self; total_words := total_words self;
     all_ips := all_ips self; invalid_ips := invalid_ips self;
     first_end_time := first_end_time self; last_end_time := v;
     total_time_working_ms := total_time_working_ms self;
     total_time_with_waiting_ms := total_time_with_waiting_ms self;
     max_handling_time_working_ms := max_handling_time_working_ms self;
     max_handling_time_with_waiting_ms := max_handling_time_with_waiting_ms self;
     new_query_ids := new_query_ids self;
     finished_query_ids := finished_query_ids self |}.
Definition set_total_time_working_ms (v : spec_float) (self : Parser) : Parser :=
  {| connections := connections self; query_to_ip := query_to_ip self;
     request_freq := request_freq self; total_words := total_words self;
     all_ips := all_ips self; invalid_ips := invalid_ips self;
     first_end_time := first_end_time self;
     last_end_time := last_end_time self; total_time_working_ms := v;
     total_time_with_waiting_ms := total_time_with_waiting_ms self;
     max_handling_time_working_ms := max_handling_time_working_ms self;
     max_handling_time_with_waiting_ms := max_handling_time_with_waiting_ms self;
     new_query_ids := new_query_ids self;
     finished_query_ids := finished_query_ids self |}.
Definition set_total_time_with_waiting_ms (v : spec_float) (self : Parser) : Parser :=
  {| connections := connections self; query_to_ip := query_to_ip self;
     request_freq := request_freq self; total_words := total_words self;
     all_ips := all_ips self; invalid_ips := invalid_ips self;
     first_end_time := first_end_time self;
     last_end_time := last_end_time self;
     total_time_working_ms := total_time_working_ms self;
     total_time_with_waiting_ms := v;
     max_handling_time_working_ms := max_handling_time_working_ms self;
     max_handling_time_with_waiting_ms := max_handling_time_with_waiting_ms self;
     new_query_ids := new_query_ids self;
     finished_query_ids := finished_query_ids self |}.
Definition set_max_handling_time_working_ms (v : spec_float) (self : Parser) : Parser :=
  {| connections := connections self; query_to_ip := query_to_ip self;
     request_freq := request_freq self; total_words := total_words self;
     all_ips := all_ips self; invalid_ips := invalid_ips self;
     first_end_time := first_end_time self;
     last_end_time := last_end_time self;
     total_time_working_ms := total_time_working_ms self;
     total_time_with_waiting_ms := total_time_with_waiting_ms self;
     max_handling_time_working_ms := v;
     max_handling_time_with_waiting_ms := max_handling_time_with_waiting_ms self;
     new_query_ids := new_query_ids self;
     finished_query_ids := finished_query_ids self |}.
Definition set_max_handling_time_with_waiting_ms (v : spec_float) (self : Parser) : Parser :=
  {| connections := connections self; query_to_ip := query_to_ip self;
     request_freq := request_freq self; total_words := total_words self;
     all_ips := all_ips self; invalid_ips := invalid_ips self;
     first_end_time := first_end_time self;
     last_end_time := last_end_time self;
     total_time_working_ms := total_time_working_ms self;
     total_time_with_waiting_ms := total_time_with_waiting_ms self;
     max_handling_time_working_ms := max_handling_time_working_ms self;
     max_handling_time_with_waiting_ms := v;
     new_query_ids := new_query_ids self;
     finished_query_ids := finished_query_ids self |}.
Definition set_new_query_ids (v : gset Z) (self : Parser) : Parser :=
  {| connections := connections self; query_to_ip := query_to_ip self;
     request_freq := request_freq self; total_words := total_words self;
     all_ips := all_ips self; invalid_ips := invalid_ips self;
     first_end_time := first_end_time self;
     last_end_time := last_end_time self;
     total_time_working_ms := total_time_working_ms self;
     total_time_with_waiting_ms := total_time_with_waiting_ms self;
     max_handling_time_working_ms := max_handling_time_working_ms self;
     max_handling_time_with_waiting_ms := max_handling_time_with_waiting_ms self;
     new_query_ids := v; finished_query_ids := finished_query_ids self |}.
Definition set_finished_query_ids (v : gset Z) (self : Parser) : Parser :=
  {| connections := connections self; query_to_ip := query_to_ip self;
     request_freq := request_freq self; total_words := total_words self;
     all_ips := all_ips self; invalid_ips := invalid_ips self;
     first_end_time := first_end_time self;
     last_end_time := last_end_time self;
     total_time_working_ms := total_time_working_ms self;
     total_time_with_waiting_ms := total_time_with_waiting_ms self;
     max_handling_time_working_ms := max_handling_time_working_ms self;
     max_handling_time_with_waiting_ms := max_handling_time_with_waiting_ms self;
     new_query_ids := new_query_ids self; finished_query_ids := v |}.

(** *** Methods: a state and [ValueError] monad

    A method either returns a value in a new state, or a [ValueError]
    propagates out of it; the state then holds what was assigned before. *)
Inductive outcome (A : Type) :=
| Returns (a : A) (self : Parser)
| Raises (self : Parser).
Arguments Returns {A} a self.
Arguments Raises {A} self.

Definition method (A : Type) : Type := Parser -> outcome A.

Definition ret {A} (a : A) : method A := fun self => Returns a self.
Definition bind {A B} (c : method A) (k : A -> method B) : method B :=
  fun self =>
    match c self with
    | Returns a self' => k a self'
    | Raises self' => Raises self'
    end.
Definition read {A} (f : Parser -> A) : method A := fun self => Returns (f self) self.
Definition assign (f : Parser -> Parser) : method unit :=
  fun self => Returns tt (f self).
(** a conversion that raises [ValueError] when it fails *)
Definition or_raise {A} (o : option A) : method A :=
  fun self => match o with Some a => Returns a self | None => Raises self end.

Definition state_of {A} (o : outcome A) : Parser :=
  match o with Returns _ self => self | Raises self => self end.

Declare Scope method_scope.
Delimit Scope method_scope with method.
Notation "x <- c ;; k" := (bind c (fun x => k))
  (at level 100, c at next level, k at level 200, right associativity)
  : method_scope.
Notation "c ;; k" := (bind c (fun _ => k))
  (at level 100, k at level 200, right associativity) : method_scope.
Local Open Scope method_scope.

(* ===================================================================== *)
(** ** The methods of [Parser] *)
(* ===================================================================== *)

Section Methods.
Context {U : UnicodeDB}.

(** [Parser._is_valid_ipv4] *)
Definition _is_valid_ipv4 (raw : str) : bool :=
  match IPv4Address raw with Some _ => true | None => false end.

(** [Parser._extract_ip] *)
Definition _extract_ip (raw : str) : option str :=
  if contains (py ":") raw then
    let ip := before_first (ch ":") raw in
    if _is_valid_ipv4 ip then Some ip else None
  else
    if _is_valid_ipv4 raw then Some raw else None.

(** [Parser._parse_connection] *)
Definition _parse_connection (line : str) : method bool :=
  match search CONNECTION line with
  | None => ret false
  | Some m =>
      let conn_hex_id := group m "conn_hex_id" in
      let raw_ip_port := group m "raw_ip_port" in
      match _extract_ip raw_ip_port with
      | Some ((_ :: _) as ip) =>
          assign (fun self => set_all_ips ({[ip]} ∪ all_ips self) self) ;;
          assign (fun self => set_connections (<[conn_hex_id := ip]> (connections self)) self) ;;
          ret true
      | _ =>
          assign (fun self => set_invalid_ips ({[raw_ip_port]} ∪ invalid_ips self) self) ;;
          assign (fun self =>
            set_connections (<[conn_hex_id := raw_ip_port]> (connections self)) self) ;;
          ret true
      end
  end.

(** [Parser._parse_new_query] *)
Definition _parse_new_query (line : str) : method bool :=
  match search NEW_QUERY line with
  | None => ret false
  | Some m =>
      query_id <- or_raise (int (group m "query_id")) ;;
      seen <- read (fun self => bool_decide (query_id ∈ new_query_ids self)) ;;
      if (seen : bool) then ret true
      else
        assign (fun self => set_new_query_ids ({[query_id]} ∪ new_query_ids self) self) ;;
        let text_decoded := strip (group m "text_decoded") in
        let conn_hex_id := group m "conn_hex_id" in
        ip <- read (fun self => connections self !! conn_hex_id) ;;
        match ip with
        | Some ((_ :: _) as ip) =>
            assign (fun self => set_query_to_ip (<[query_id := ip]> (query_to_ip self)) self)
        | _ => ret tt
        end ;;
        match text_decoded with
        | _ :: _ =>
            assign (fun self =>
              set_request_freq
                (<[text_decoded := default 0 (request_freq self !! text_decoded) + 1]>
                   (request_freq self)) self) ;;
            assign (fun self =>
              set_total_words (total_words self + count_words text_decoded) self)
        | [] => ret tt
        end ;;
        ret true
  end.

(** [Parser._extract_internal_timestamp]; the result of [strptime] is
    returned, its [ValueError] propagates. *)
Definition _extract_internal_timestamp (line : str) : method (option datetime) :=
  match search INTERNAL_TIMESTAMP line with
  | None => ret None
  | Some m =>
      let dd := group m "1" in
      let mm := group m "2" in
      let yy := group m "3" in
      let hms := group m "4" in
      ts <- or_raise (strptime (py "20" ++ yy ++ py "-" ++ mm ++ py "-" ++ dd
                                ++ py " " ++ hms)) ;;
      ret (Some ts)
  end.

(** [Parser._parse_end_query] *)
Definition _parse_end_query (line : str) : method bool :=
  match search END line with
  | None => ret false
  | Some m =>
      query_id <- or_raise (int (group m "query_id")) ;;
      seen <- read (fun self => bool_decide (query_id ∈ finished_query_ids self)) ;;
      if (seen : bool) then ret true
      else
        assign (fun self =>
          set_finished_query_ids ({[query_id]} ∪ finished_query_ids self) self) ;;
        time_total_ms <- or_raise (float_of_str (group m "time_total_ms")) ;;
        time_working_ms <- or_raise (float_of_str (group m "time_working_ms")) ;;
        assign (fun self =>
          set_total_time_with_waiting_ms
            (fadd (total_time_with_waiting_ms self) time_total_ms) self) ;;
        assign (fun self =>
          set_total_time_working_ms
            (fadd (total_time_working_ms self) time_working_ms) self) ;;
        assign (fun self =>
          if fltb (max_handling_time_with_waiting_ms self) time_total_ms
          then set_max_handling_time_with_waiting_ms time_total_ms self else self) ;;
        assign (fun self =>
          if fltb (max_handling_time_working_ms self) time_working_ms
          then set_max_handling_time_working_ms time_working_ms self else self) ;;
        ts <- _extract_internal_timestamp line ;;
        match ts with
        | Some ts =>
            assign (fun self =>
              match first_end_time self with
              | None => set_first_end_time (Some ts) self
              | Some t => if dt_ltb ts t then set_first_end_time (Some ts) self else self
              end) ;;
            assign (fun self =>
              match last_end_time self with
              | None => set_last_end_time (Some ts) self
              | Some t => if dt_ltb t ts then set_last_end_time (Some ts) self else self
              end)
        | None => ret tt
        end ;;
        ret true
  end.

(** The body of the loop of [Parser.parse] for one [line] of the file:
    each [if guard in line and self._parse_x(line): continue]. *)
Definition parse_line (line0 : str) : method unit :=
  let line := rstrip_nl line0 in
  b <- (if contains (py "Incoming Conn{") line then _parse_connection line else ret false) ;;
  if (b : bool) then ret tt
  else
    b <- (if contains (py "On Conn{") line then _parse_new_query line else ret false) ;;
    if (b : bool) then ret tt
    else
      b <- (if contains (py "End Query{") line then _parse_end_query line else ret false) ;;
      if (b : bool) then ret tt else ret tt.

(** The loop of [Parser.parse], on the lines the file yields. *)
Fixpoint parse (f : list str) : method unit :=
  match f with
  | [] => ret tt
  | line :: f' => parse_line line ;; parse f'
  end.

(** What [self.path.open("r", encoding="utf-8")] and the iteration over the
    file give the loop: the lines yielded, and whether the iteration then ends
    or raises (the file cannot be opened or read: [OSError]; its bytes are not
    UTF-8: [UnicodeDecodeError], a [ValueError]). *)
Record text_file := { lines_read : list str; ends : bool }.

(** [Parser.parse]: the loop runs on the lines read, and the exception of the
    file, if any, propagates out of it as one of a handler does. *)
Definition parse_file (file : text_file) : method unit :=
  parse (lines_read file) ;; if ends file then ret tt else or_raise None.

(** [Parser.average_words] *)
Definition average_words (self : Parser) : float :=
  let n := Z.of_nat (size (new_query_ids self)) in
  if n =? 0 then float_zero else int_true_div (total_words self) n.

(** [Parser.average_times] *)
Definition average_times (self : Parser) : float * float :=
  let c := Z.of_nat (size (finished_query_ids self)) in
  if c =? 0 then (float_zero, float_zero)
  else (fdiv (total_time_working_ms self) (float_of_int c),
        fdiv (total_time_with_waiting_ms self) (float_of_int c)).

(** [Parser.max_times] *)
Definition max_times (self : Parser) : float * float :=
  (max_handling_time_working_ms self, max_handling_time_with_waiting_ms self).

(** [Parser.rps] *)
Definition rps (self : Parser) : float :=
  let c := Z.of_nat (size (finished_query_ids self)) in
  match first_end_time self, last_end_time self with
  | Some first, Some last =>
      if c =? 0 then float_zero
      else
        let span := total_seconds last first in
        if fleb span float_zero then float_of_int c
        else fdiv (float_of_int c) span
  | _, _ => float_zero
  end.

End Methods.



(* ===================================================================== *)
(** ** The line loop as a dispatch over three categories *)
(* ===================================================================== *)

Inductive category := ConnectionOpen | QueryStart | QueryEnd.

Definition guard (c : category) : str :=
  match c with
  | ConnectionOpen => py "Incoming Conn{"
  | QueryStart => py "On Conn{"
  | QueryEnd => py "End Query{"
  end.

Definition regex (c : category) : pattern :=
  match c with
  | ConnectionOpen => CONNECTION
  | QueryStart => NEW_QUERY
  | QueryEnd => END
  end.

Definition is_some {A} (o : option A) : bool :=
  match o with Some _ => true | None => false end.

Section Dispatch.
Context {U : UnicodeDB}.

Definition handler (c : category) : str -> method bool :=
  match c with
  | ConnectionOpen => _parse_connection
  | QueryStart => _parse_new_query
  | QueryEnd => _parse_end_query
  end.

(** [guard in line and self._parse_x(line)] *)
Definition attempt (c : category) (line : str) : method bool :=
  if contains (guard c) line then handler c line else ret false.

(** The categories [cs] tried in order, until one handles the line. *)
Fixpoint dispatch (cs : list category) (line : str) : method unit :=
  match cs with
  | [] => ret tt
  | c :: cs' => b <- attempt c line ;; if (b : bool) then ret tt else dispatch cs' line
  end.

(** The category, if any, whose handler processes the line. *)
Definition accepts (c : category) (line : str) : bool :=
  contains (guard c) line && is_some (search (regex c) line).

Definition category_of (line : str) : option category :=
  if accepts ConnectionOpen line then Some ConnectionOpen
  else if accepts QueryStart line then Some QueryStart
  else if accepts QueryEnd line then Some QueryEnd
  else None.

End Dispatch.

(* ===================================================================== *)
(** ** Vocabulary of the specification *)
(* ===================================================================== *)

(** [sep.join(parts)] *)
Fixpoint join (sep : char) (parts : list str) : str :=
  match parts with
  | [] => []
  | [p] => p
  | p :: ps => p ++ sep :: join sep ps
  end.

(** A group as the specification words it: a decimal numeral with a value in
    [0,255]. *)
Definition spec_group (g : str) : bool :=
  match g with
  | [] => false
  | _ => forallb (in_range "0" "9") g && (int_ascii g <=? 255)
  end.

(** An address as the specification words it: exactly four dot-separated
    decimal groups, each in [0,255], and nothing else. *)
Definition spec_dotted_quad (s : str) : bool :=
  let groups := split_on (ch ".") s in
  (length groups =? 4)%nat && forallb spec_group groups.

(** A group as [IPv4Address] reads it: one to three ASCII digits, no leading
    zero unless the group is ["0"], value at most 255. *)
Definition octet (g : str) : Prop :=
  g <> [] /\ forallb (in_range "0" "9") g = true /\ (length g <= 3)%nat
  /\ (g = py "0" \/ hd 0%N g <> ch "0") /\ int_ascii g <= 255.

Definition dotted_quad (s : str) : Prop :=
  exists a b c d, s = join (ch ".") [a; b; c; d]
                  /\ octet a /\ octet b /\ octet c /\ octet d.

(** The candidate address of a raw token: what precedes its first colon. *)
Definition candidate (raw : str) : str :=
  if contains (py ":") raw then before_first (ch ":") raw else raw.

(** *** The effect of each handler on a line of its category *)

Section Effects.
Context {U : UnicodeDB}.

(** What [_parse_connection] assigns for a match [m]. *)
Definition connection_effect (m : mstate) (self : Parser) : Parser :=
  let conn := group m "conn_hex_id" in
  let raw := group m "raw_ip_port" in
  match _extract_ip raw with
  | Some ((_ :: _) as ip) =>
      set_connections (<[conn := ip]> (connections self))
        (set_all_ips ({[ip]} ∪ all_ips self) self)
  | _ =>
      set_connections (<[conn := raw]> (connections self))
        (set_invalid_ips ({[raw]} ∪ invalid_ips self) self)
  end.

(** What [_parse_new_query] assigns for a match [m] with an id that [int]
    converts and that was not seen. *)
Definition link_effect (m : mstate) (self : Parser) : Parser :=
  match connections self !! group m "conn_hex_id" with
  | Some ((_ :: _) as ip) =>
      set_query_to_ip
        (<[int_of_digits (group m "query_id") := ip]> (query_to_ip self)) self
  | _ => self
  end.

Definition count_effect (text : str) (self : Parser) : Parser :=
  match text with
  | _ :: _ =>
      set_total_words (total_words self + count_words text)
        (set_request_freq
           (<[text := default 0 (request_freq self !! text) + 1]> (request_freq self))
           self)
  | [] => self
  end.

Definition start_effect (m : mstate) (self : Parser) : Parser :=
  count_effect (strip (group m "text_decoded"))
    (link_effect m
       (set_new_query_ids
          ({[int_of_digits (group m "query_id")]} ∪ new_query_ids self) self)).

(** What [_parse_end_query] assigns once both durations are converted. *)
Definition keep_max (old v : float) : float := if fltb old v then v else old.

Definition accumulate (time_total_ms time_working_ms : float) (self : Parser)
  : Parser :=
  set_max_handling_time_working_ms
    (keep_max (max_handling_time_working_ms self) time_working_ms)
    (set_max_handling_time_with_waiting_ms
       (keep_max (max_handling_time_with_waiting_ms self) time_total_ms)
       (set_total_time_working_ms (fadd (total_time_working_ms self) time_working_ms)
          (set_total_time_with_waiting_ms
             (fadd (total_time_with_waiting_ms self) time_total_ms) self))).

(** What [_parse_end_query] assigns for a timestamp [ts]. *)
Definition earliest (old : option datetime) (ts : datetime) : option datetime :=
  match old with
  | None => Some ts
  | Some t => if dt_ltb ts t then Some ts else Some t
  end.
Definition latest (old : option datetime) (ts : datetime) : option datetime :=
  match old with
  | None => Some ts
  | Some t => if dt_ltb t ts then Some ts else Some t
  end.
Definition stamp (ts : datetime) (self : Parser) : Parser :=
  set_last_end_time (latest (last_end_time self) ts)
    (set_first_end_time (earliest (first_end_time self) ts) self).

(** The timestamp of a line: [Some None] when the line holds none, [None]
    when [strptime] raises. *)
Definition timestamp_of (line : str) : option (option datetime) :=
  match search INTERNAL_TIMESTAMP line with
  | None => Some None
  | Some m =>
      option_map Some
        (strptime (py "20" ++ group m "3" ++ py "-" ++ group m "2" ++ py "-"
                   ++ group m "1" ++ py " " ++ group m "4"))
  end.

(** The whole of [_parse_end_query] for a match [m] with an id that [int]
    converts and that was not seen. *)
Definition end_outcome (line : str) (m : mstate) (self : Parser) : outcome bool :=
  let s1 := set_finished_query_ids
              ({[int_of_digits (group m "query_id")]} ∪ finished_query_ids self)
              self in
  match float_of_str (group m "time_total_ms"),
        float_of_str (group m "time_working_ms") with
  | Some vt, Some vw =>
      let s2 := accumulate vt vw s1 in
      match timestamp_of line with
      | Some (Some ts) => Returns true (stamp ts s2)
      | Some None => Returns true s2
      | None => Raises s2
      end
  | _, _ => Raises s1
  end.

End Effects.

(** *** What the lines of a log contribute *)

(** [+0.0], a positive number, or [+inf]: not negative and not [nan]. *)
Definition nonneg (x : float) : bool :=
  match x with
  | S754_zero false | S754_infinity false | S754_finite false _ _ => true
  | _ => false
  end.

Section Traces.
Context {U : UnicodeDB}.

(** The query-end match of a line whose id, converted by [int], is finished
    for the first time. *)
Definition first_seen_end (line0 : str) (self : Parser) : option mstate :=
  let line := rstrip_nl line0 in
  match category_of line, search END line with
  | Some QueryEnd, Some m =>
      match int (group m "query_id") with
      | Some query_id =>
          if bool_decide (query_id ∈ finished_query_ids self) then None else Some m
      | None => None
      end
  | _, _ => None
  end.

(** The line is handed to the query-start or to the query-end handler with
    an id of more digits than [int] converts. *)
Definition id_rejected (line0 : str) : bool :=
  let line := rstrip_nl line0 in
  match category_of line with
  | Some QueryStart =>
      match search NEW_QUERY line with
      | Some m => negb (is_some (int (group m "query_id")))
      | None => false
      end
  | Some QueryEnd =>
      match search END line with
      | Some m => negb (is_some (int (group m "query_id")))
      | None => false
      end
  | _ => false
  end.

(** The durations (total, working) a line adds to the sums: those of a
    first-seen query-end line, once both are converted. *)
Definition line_durations (line0 : str) (self : Parser) : list (float * float) :=
  match first_seen_end line0 self with
  | Some m =>
      match float_of_str (group m "time_total_ms"),
            float_of_str (group m "time_working_ms") with
      | Some vt, Some vw => [(vt, vw)]
      | _, _ => []
      end
  | None => []
  end.

(** The timestamp extracted from a line: that of a first-seen query-end line
    whose durations were converted. *)
Definition line_stamp (line0 : str) (self : Parser) : list datetime :=
  match line_durations line0 self, timestamp_of (rstrip_nl line0) with
  | _ :: _, Some (Some ts) => [ts]
  | _, _ => []
  end.

(** A per-line contribution collected along [parse], which stops at the
    line that raises. *)
Fixpoint collect {A} (g : str -> Parser -> list A) (f : list str) (self : Parser)
  : list A :=
  match f with
  | [] => []
  | line :: f' =>
      g line self ++ match parse_line line self with
                     | Returns _ self' => collect g f' self'
                     | Raises _ => []
                     end
  end.

Definition durations : list str -> Parser -> list (float * float) :=
  collect line_durations.
Definition stamps : list str -> Parser -> list datetime := collect line_stamp.

End Traces.

(** [first] and [last] are the chronological minimum and maximum of [ts]
    (both unset when [ts] is empty). *)
Definition bounds (first last : option datetime) (ts : list datetime) : Prop :=
  match ts with
  | [] => first = None /\ last = None
  | _ :: _ =>
      exists a b, first = Some a /\ last = Some b /\ In a ts /\ In b ts
                  /\ forall t, In t ts -> dt_leb a t = true /\ dt_leb t b = true
  end.

(** The attributes only [_parse_end_query] assigns. *)
Definition end_view (self : Parser)
  : option datetime * option datetime * float * float * float * float :=
  (first_end_time self, last_end_time self,
   total_time_working_ms self, total_time_with_waiting_ms self,
   max_handling_time_working_ms self, max_handling_time_with_waiting_ms self).

(** The sums and maxima are never negative, and each maximum dominates every
    duration accumulated so far. *)
Definition durations_inv (self : Parser) (acc : list (float * float)) : Prop :=
  nonneg (total_time_working_ms self) = true
  /\ nonneg (total_time_with_waiting_ms self) = true
  /\ nonneg (max_handling_time_working_ms self) = true
  /\ nonneg (max_handling_time_with_waiting_ms self) = true
  /\ forall vt vw, In (vt, vw) acc ->
       nonneg vt = true /\ nonneg vw = true
       /\ fleb vw (max_handling_time_working_ms self) = true
       /\ fleb vt (max_handling_time_with_waiting_ms self) = true.


Section StartTrace.
Context {U : UnicodeDB}.

(** The numeric id of a line the loop hands to the query-start handler, when
    [int] converts it. *)
Definition line_started (line0 : str) (self : Parser) : list Z :=
  let line := rstrip_nl line0 in
  match category_of line, search NEW_QUERY line with
  | Some QueryStart, Some m =>
      match int (group m "query_id") with
      | Some query_id => [query_id]
      | None => []
      end
  | _, _ => []
  end.

Definition started : list str -> Parser -> list Z := collect line_started.

End StartTrace.

(* ===================================================================== *)
(** ** [most_popular_request] and the report of [main] *)
(* ===================================================================== *)

(** [max(items, key=lambda kv: kv[1])] from a first item [best]: a later item
    replaces the best one only when its count is strictly greater. *)
Fixpoint max_by_count (best : list N * Z) (items : list (list N * Z))
  : list N * Z :=
  match items with
  | [] => best
  | kv :: rest =>
      if snd best <? snd kv then max_by_count kv rest
      else max_by_count best rest
  end.

(** [Parser.most_popular_request], on [self.request_freq.items()] in the
    order the [dict] yields them. *)
Definition most_popular_request (items : list (list N * Z)) : option (list N) :=
  match items with
  | [] => None
  | kv :: rest => Some (fst (max_by_count kv rest))
  end.

(** The body of the loop of [main] over [parser.invalid_ips]:
    [invalid_split = ip.split(".")], the first three segments joined, and
    [invalid_split[3]], whose [IndexError] is [None]. *)
Definition split_invalid (ip : str) : option (str * str) :=
  let invalid_split := split_on (ch ".") ip in
  let invalid_ip := join (ch ".") (firstn 3 invalid_split) in
  match nth_error invalid_split 3 with
  | Some port => Some (invalid_ip, port)
  | None => None
  end.

(** The loop of [main] over the tokens in the order the [set] yields them,
    filling the two sets [invalid_ips] and [ports]. *)
Fixpoint main_invalid_report (tokens : list str) (invalid_ips ports : gset (list N))
  : option (gset (list N) * gset (list N)) :=
  match tokens with
  | [] => Some (invalid_ips, ports)
  | ip :: rest =>
      match split_invalid ip with
      | Some (invalid_ip, port) =>
          main_invalid_report rest ({[invalid_ip]} ∪ invalid_ips) ({[port]} ∪ ports)
      | None => None
      end
  end.

(** The number of points in a token. *)
Definition dots (s : str) : nat := length (filter (fun c => c = ch ".") s).

(* ===================================================================== *)
(** ** Vocabulary of the further properties *)
(* ===================================================================== *)

(** Nothing recorded in [a] is missing from [b]. *)
Definition grows (a b : Parser) : Prop :=
  new_query_ids a ⊆ new_query_ids b
  /\ finished_query_ids a ⊆ finished_query_ids b
  /\ all_ips a ⊆ all_ips b
  /\ invalid_ips a ⊆ invalid_ips b
  /\ dom (connections a) ⊆ dom (connections b)
  /\ dom (query_to_ip a) ⊆ dom (query_to_ip b)
  /\ (forall t : list N,
        default 0 (request_freq a !! t) <= default 0 (request_freq b !! t))
  /\ total_words a <= total_words b.

Section TextTrace.
Context {U : UnicodeDB}.

(** The request text a line adds to the frequency table: the trimmed text of
    a query-start line with an id that [int] converts and that was not seen
    before, when it is not empty. *)
Definition line_text (line0 : str) (self : Parser) : list (list N) :=
  let line := rstrip_nl line0 in
  match category_of line, search NEW_QUERY line with
  | Some QueryStart, Some m =>
      match int (group m "query_id") with
      | Some query_id =>
          if bool_decide (query_id ∈ new_query_ids self) then []
          else match strip (group m "text_decoded") with
               | [] => []
               | t => [t]
               end
      | None => []
      end
  | _, _ => []
  end.

Definition texts : list str -> Parser -> list (list N) := collect line_text.

End TextTrace.

(** How often [t] occurs in [l]. *)
Definition occurrences (t : list N) (l : list (list N)) : Z :=
  Z.of_nat (length (filter (fun x => x = t) l)).

(** What is known of the addresses in a state. *)
Definition addresses_inv (self : Parser) : Prop :=
  (forall ip, ip ∈ all_ips self -> dotted_quad ip)
  /\ (forall t, t ∈ invalid_ips self -> ~ dotted_quad t)
  /\ (forall c ip, connections self !! c = Some ip ->
        ip ∈ all_ips self ∪ invalid_ips self)
  /\ (forall q ip, query_to_ip self !! q = Some ip ->
        q ∈ new_query_ids self /\ ip ∈ all_ips self ∪ invalid_ips self).

(** The words of the recorded texts, added up in the order they were read. *)
Definition sum_words {U : UnicodeDB} (ts : list (list N)) : Z :=
  fold_left (fun a t => a + count_words t) ts 0.

(** What the frequency table and the word total hold for the texts [acc]. *)
Definition texts_inv {U : UnicodeDB} (self : Parser) (acc : list (list N)) : Prop :=
  (forall t : list N,
     request_freq self !! t
     = if occurrences t acc =? 0 then None else Some (occurrences t acc))
  /\ total_words self = sum_words acc
  /\ (length acc <= size (new_query_ids self))%nat
  /\ Forall (fun t => t <> []) acc.

(** What the sums and maxima hold for the durations [acc] (total, working). *)
Definition sums_inv (self : Parser) (acc : list (spec_float * spec_float)) : Prop :=
  total_time_with_waiting_ms self = fold_left fadd (List.map fst acc) float_zero
  /\ total_time_working_ms self = fold_left fadd (List.map snd acc) float_zero
  /\ max_handling_time_with_waiting_ms self
     = fold_left keep_max (List.map fst acc) float_zero
  /\ max_handling_time_working_ms self
     = fold_left keep_max (List.map snd acc) float_zero.

(** A [datetime] the constructor accepts. *)
Definition valid_datetime (d : datetime) : Prop :=
  1 <= year d <= 9999 /\ 1 <= month d <= 12
  /\ 1 <= day d <= days_in_month (year d) (month d)
  /\ 0 <= hour d <= 23 /\ 0 <= minute d <= 59 /\ 0 <= second d <= 59.

(** The seconds from the start of day 0 of the proleptic calendar. *)
Definition epoch_seconds (d : datetime) : Z :=
  toordinal d * 86400 + seconds_of_day d.
(* ===================================================================== *)
(** ** What a successful match tells about the line *)
(* ===================================================================== *)

Section ReFacts.
Context {U : UnicodeDB}.

Lemma strip_prefix_app (p s s' : str) :
  strip_prefix p s = Some s' -> s = p ++ s'.
Proof.
  revert s; induction p as [|a p IH]; intros [|b s] H; simpl in H;
    try discriminate; try (injection H as <-; reflexivity).
  destruct (N.eqb_spec a b) as [->|]; [|discriminate].
  simpl. f_equal. auto.
Qed.

Lemma strip_prefix_complete (p s : str) : strip_prefix p (p ++ s) = Some s.
Proof.
  induction p as [|a p IH]; simpl; [reflexivity|].
  now rewrite N.eqb_refl.
Qed.

Lemma contains_app (sub pre post : str) : contains sub (pre ++ sub ++ post) = true.
Proof.
  induction pre as [|c pre IH]; simpl.
  - destruct (sub ++ post) eqn:E; simpl;
      rewrite <- ?E, strip_prefix_complete; reflexivity.
  - destruct (strip_prefix sub (c :: pre ++ sub ++ post)); [reflexivity | exact IH].
Qed.

Section RepeatFacts.
Context {R : Type} (p : char -> bool) (k : str -> option R).

Lemma lazy_star_inv (s : str) (r : R) :
  lazy_star p k s = Some r ->
  exists a s', s = a ++ s' /\ forallb p a = true /\ k s' = Some r.
Proof.
  induction s as [|c s IH]; simpl.
  - destruct (k []) eqn:E; [|discriminate].
    intros [= <-]. exists [], []. auto.
  - destruct (k (c :: s)) eqn:E.
    + intros [= <-]. exists [], (c :: s). auto.
    + destruct (p c) eqn:Hc; [|discriminate].
      intros H. destruct (IH H) as (a & s' & -> & Ha & Hk).
      exists (c :: a), s'. simpl. rewrite Hc, Ha. auto.
Qed.

Lemma greedy_plus_inv (s : str) (r : R) :
  greedy_plus p k s = Some r ->
  exists a s', s = a ++ s' /\ a <> [] /\ forallb p a = true /\ k s' = Some r.
Proof.
  induction s as [|c s IH]; simpl; [discriminate|].
  destruct (p c) eqn:Hc; [|discriminate].
  destruct (greedy_plus p k s) eqn:E.
  - intros [= <-]. destruct (IH eq_refl) as (a & s' & -> & _ & Ha & Hk).
    exists (c :: a), s'. simpl. rewrite Hc, Ha. auto.
  - intros Hk. exists [c], s. simpl. rewrite Hc. auto.
Qed.

Lemma exactly_inv (n : nat) (s : str) (r : R) :
  exactly p k n s = Some r ->
  exists a s', s = a ++ s' /\ length a = n /\ forallb p a = true /\ k s' = Some r.
Proof.
  revert s; induction n as [|n IH]; intros s; simpl.
  - intros Hk. exists [], s. auto.
  - destruct s as [|c s]; [discriminate|].
    destruct (p c) eqn:Hc; [|discriminate].
    intros H. destruct (IH _ H) as (a & s' & -> & Hl & Ha & Hk).
    exists (c :: a), s'. simpl. rewrite Hc, Ha, Hl. auto.
Qed.
End RepeatFacts.

Lemma search_inv (ops : pattern) (s : str) (m : mstate) :
  search ops s = Some m ->
  exists pre s', s = pre ++ s' /\ run ops s' m_init = Some m.
Proof.
  induction s as [|c s IH]; simpl.
  - destruct (run ops [] m_init) eqn:E; [|discriminate].
    intros [= <-]. exists [], []. auto.
  - destruct (run ops (c :: s) m_init) eqn:E.
    + intros [= <-]. exists [], (c :: s). auto.
    + intros H. destruct (IH H) as (pre & s' & -> & Hr).
      exists (c :: pre), s'. auto.
Qed.

(** The text of a group is what was read between its two marks. *)
Lemma firstn_read (a s : str) :
  firstn (length (a ++ s) - length s) (a ++ s) = a.
Proof.
  rewrite length_app.
  replace (length a + length s - length s)%nat with (length a) by lia.
  rewrite firstn_app, Nat.sub_diag, firstn_all. simpl. apply app_nil_r.
Qed.

Lemma group_close_open (g g' : string) (a s : str) (m : mstate) :
  group (m_close g s (m_open g (a ++ s) m)) g'
  = if String.eqb g' g then a else group m g'.
Proof.
  unfold group, m_close, m_open. cbn [marks caps assoc].
  rewrite String.eqb_refl. cbn [caps assoc].
  rewrite firstn_read. now destruct (String.eqb g' g).
Qed.

End ReFacts.

Section PatternFacts.
Context {U : UnicodeDB}.

Ltac step_lit_as H r :=
  match type of H with
  | match strip_prefix ?l ?s with _ => _ end = Some _ =>
      let E := fresh "E" in
      destruct (strip_prefix l s) as [r|] eqn:E; [|discriminate H];
      apply strip_prefix_app in E; subst s
  end.
Ltac step_lit H := let r := fresh "r" in step_lit_as H r.

(** A line matched by [NEW_QUERY], and the groups of the match. *)
Lemma NEW_QUERY_match (line : str) (m : mstate) :
  search NEW_QUERY line = Some m ->
  exists pre conn qhex qid text post,
    line = pre ++ py "On Conn{" ++ conn ++ py "} new Query{" ++ qhex
               ++ py "} [" ++ qid ++ py "]: " ++ text ++ post
    /\ group m "conn_hex_id" = conn /\ group m "query_id" = qid
    /\ group m "text_decoded" = text
    /\ text <> [] /\ forallb isdecimal qid = true.
Proof.
  intros H. apply search_inv in H as (pre0 & s0 & -> & H).
  unfold NEW_QUERY, Group in H. cbn [app run] in H.
  apply lazy_star_inv in H as (pre1 & s1 & -> & _ & H).
  step_lit H.
  apply greedy_plus_inv in H as (conn & s2 & -> & _ & _ & H).
  step_lit H.
  apply greedy_plus_inv in H as (qhex & s3 & -> & _ & _ & H).
  step_lit H.
  apply greedy_plus_inv in H as (qid & s4 & -> & _ & Hqid & H).
  step_lit H.
  apply greedy_plus_inv in H as (text & post & -> & Htext & _ & H).
  injection H as <-.
  exists (pre0 ++ pre1), conn, qhex, qid, text, post.
  rewrite !group_close_open, <- !app_assoc. cbn [String.eqb Ascii.eqb Bool.eqb].
  auto 10.
Qed.

(** A line matched by [END]: the two durations that are converted are made
    of decimal digits and points only. *)
Lemma END_match (line : str) (m : mstate) :
  search END line = Some m ->
  exists pre qhex qid status sp total queue work size post,
    line = pre ++ py "End Query{" ++ qhex ++ py "} [" ++ qid ++ py "], "
               ++ status ++ py "," ++ sp ++ py "spent { " ++ total ++ py " : "
               ++ queue ++ py " queue, " ++ work ++ py " work } ms, " ++ size
               ++ py " bytes" ++ post
    /\ group m "query_id" = qid /\ group m "time_total_ms" = total
    /\ group m "time_working_ms" = work
    /\ forallb isdecimal qid = true
    /\ total <> [] /\ forallb (in_cset DigitOrDot) total = true
    /\ work <> [] /\ forallb (in_cset DigitOrDot) work = true.
Proof.
  intros H. apply search_inv in H as (pre0 & s0 & -> & H).
  unfold END, Group in H. cbn [app run] in H.
  apply lazy_star_inv in H as (pre1 & s1 & -> & _ & H).
  step_lit H.
  apply greedy_plus_inv in H as (qhex & s2 & -> & _ & _ & H).
  step_lit H.
  apply greedy_plus_inv in H as (qid & s3 & -> & _ & Hqid & H).
  step_lit H.
  apply greedy_plus_inv in H as (status & s4 & -> & _ & _ & H).
  step_lit H.
  apply exactly_inv in H as (sp & s5 & -> & _ & _ & H).
  step_lit H.
  apply greedy_plus_inv in H as (total & s6 & -> & Ht & Htotal & H).
  step_lit H.
  apply greedy_plus_inv in H as (queue & s7 & -> & _ & _ & H).
  step_lit H.
  apply greedy_plus_inv in H as (work & s8 & -> & Hw & Hwork & H).
  step_lit H.
  apply greedy_plus_inv in H as (size & s9 & -> & _ & _ & H).
  step_lit_as H post.
  injection H as <-.
  exists (pre0 ++ pre1), qhex, qid, status, sp, total, queue, work, size, post.
  rewrite !group_close_open, <- !app_assoc. cbn [String.eqb Ascii.eqb Bool.eqb].
  auto 12.
Qed.

(** A line matched by [CONNECTION]: the token holds no white space. *)
Lemma CONNECTION_match (line : str) (m : mstate) :
  search CONNECTION line = Some m ->
  exists pre conn raw opened limit post,
    line = pre ++ py "Incoming Conn{" ++ conn ++ py "} on " ++ raw
               ++ py " accepted, " ++ opened ++ py " of " ++ limit ++ post
    /\ group m "conn_hex_id" = conn /\ group m "raw_ip_port" = raw
    /\ raw <> [] /\ forallb (in_cset NonSpace) raw = true.
Proof.
  intros H. apply search_inv in H as (pre0 & s0 & -> & H).
  unfold CONNECTION, Group in H. cbn [app run] in H.
  apply lazy_star_inv in H as (pre1 & s1 & -> & _ & H).
  step_lit H.
  apply greedy_plus_inv in H as (conn & s2 & -> & _ & _ & H).
  step_lit H.
  apply greedy_plus_inv in H as (raw & s3 & -> & Hr & Hraw & H).
  step_lit H.
  apply greedy_plus_inv in H as (opened & s4 & -> & _ & _ & H).
  step_lit H.
  apply greedy_plus_inv in H as (limit & post & -> & _ & _ & H).
  injection H as <-.
  exists (pre0 ++ pre1), conn, raw, opened, limit, post.
  rewrite !group_close_open, <- !app_assoc. cbn [String.eqb Ascii.eqb Bool.eqb].
  auto 10.
Qed.

End PatternFacts.

(* ===================================================================== *)
(** ** Dispatch of one line *)
(* ===================================================================== *)

Section DispatchFacts.
Context {U : UnicodeDB}.

Lemma parse_line_dispatch (line0 : str) (self : Parser) :
  parse_line line0 self
  = dispatch [ConnectionOpen; QueryStart; QueryEnd] (rstrip_nl line0) self.
Proof.
  unfold parse_line, dispatch, attempt, bind, ret; simpl.
  repeat match goal with
         | |- context [match ?c self with _ => _ end] => destruct (c self) as [[]|]
         | |- context [match ?c ?s with _ => _ end] =>
             lazymatch c with
             | context [contains] => destruct (c s) as [[]|]
             end
         end; try reflexivity.
Qed.

(** *** Each handler in closed form *)

Lemma _parse_connection_eq (line : str) (self : Parser) :
  _parse_connection line self
  = match search CONNECTION line with
    | None => Returns false self
    | Some m => Returns true (connection_effect m self)
    end.
Proof.
  unfold _parse_connection, connection_effect.
  destruct (search CONNECTION line) as [m|]; [|reflexivity].
  destruct (_extract_ip _) as [[|c ip]|]; reflexivity.
Qed.

Lemma _parse_new_query_eq (line : str) (self : Parser) :
  _parse_new_query line self
  = match search NEW_QUERY line with
    | None => Returns false self
    | Some m =>
        match int (group m "query_id") with
        | Some query_id =>
            if bool_decide (query_id ∈ new_query_ids self) then Returns true self
            else Returns true (start_effect m self)
        | None => Raises self
        end
    end.
Proof.
  unfold _parse_new_query, start_effect, link_effect, count_effect.
  destruct (search NEW_QUERY line) as [m|]; [|reflexivity].
  unfold bind at 1. unfold or_raise at 1. unfold int.
  destruct (_ <=? _); [|reflexivity].
  cbv [bind read assign ret].
  destruct (bool_decide _); [reflexivity|].
  set (s1 := set_new_query_ids _ self).
  change (connections s1) with (connections self).
  destruct (connections self !! group m "conn_hex_id") as [[|c ip]|];
    destruct (strip (group m "text_decoded")); reflexivity.
Qed.

Lemma _extract_internal_timestamp_eq (line : str) (self : Parser) :
  _extract_internal_timestamp line self
  = match timestamp_of line with
    | Some ts => Returns ts self
    | None => Raises self
    end.
Proof.
  unfold _extract_internal_timestamp, timestamp_of.
  destruct (search INTERNAL_TIMESTAMP line) as [m|]; [|reflexivity].
  cbv [bind or_raise ret]. destruct (strptime _); reflexivity.
Qed.

Lemma _parse_end_query_eq (line : str) (self : Parser) :
  _parse_end_query line self
  = match search END line with
    | None => Returns false self
    | Some m =>
        match int (group m "query_id") with
        | Some query_id =>
            if bool_decide (query_id ∈ finished_query_ids self) then Returns true self
            else end_outcome line m self
        | None => Raises self
        end
    end.
Proof.
  unfold _parse_end_query, end_outcome.
  destruct (search END line) as [m|]; [|reflexivity].
  unfold bind at 1. unfold or_raise at 1. unfold int.
  destruct (_ <=? _); [|reflexivity].
  unfold bind at 1. unfold read at 1.
  destruct (bool_decide _); [reflexivity|].
  unfold bind at 1. unfold assign at 1.
  unfold bind at 1. unfold or_raise at 1.
  destruct (float_of_str (group m "time_total_ms")) as [vt|]; [|reflexivity].
  unfold bind at 1. unfold or_raise at 1.
  destruct (float_of_str (group m "time_working_ms")) as [vw|]; [|reflexivity].
  set (s1 := set_finished_query_ids _ self).
  unfold stamp, accumulate, keep_max, earliest, latest.
  destruct s1 as [cn qi rf tw ai ii fe le ttw ttww mw mww nq fq].
  cbv [bind assign ret
       max_handling_time_with_waiting_ms max_handling_time_working_ms
       first_end_time last_end_time total_time_working_ms
       total_time_with_waiting_ms set_total_time_working_ms
       set_total_time_with_waiting_ms set_max_handling_time_working_ms
       set_max_handling_time_with_waiting_ms set_first_end_time
       set_last_end_time connections query_to_ip
       request_freq total_words all_ips invalid_ips new_query_ids
       finished_query_ids].
  destruct (fltb mww vt), (fltb mw vw);
    rewrite _extract_internal_timestamp_eq;
    (destruct (timestamp_of line) as [[ts|]|]; [| reflexivity | reflexivity]);
    destruct fe as [f|], le as [l|];
    repeat match goal with
           | |- context [dt_ltb ?a ?b] => destruct (dt_ltb a b)
           end; reflexivity.
Qed.

(** A handler whose pattern does not match returns [False] and touches
    nothing. *)
Lemma handler_no_match (c : category) (line : str) (self : Parser) :
  search (regex c) line = None -> handler c line self = Returns false self.
Proof.
  destruct c; simpl; intros H;
    rewrite ?_parse_connection_eq, ?_parse_new_query_eq, ?_parse_end_query_eq, H;
    reflexivity.
Qed.

Lemma attempt_no_match (c : category) (line : str) (self : Parser) :
  search (regex c) line = None -> attempt c line self = Returns false self.
Proof.
  intros H. unfold attempt. destruct (contains _ _); [|reflexivity].
  now apply handler_no_match.
Qed.

Lemma attempt_not_accepted (c : category) (line : str) (self : Parser) :
  accepts c line = false -> attempt c line self = Returns false self.
Proof.
  unfold accepts, attempt. destruct (contains _ _); simpl; [|reflexivity].
  destruct (search (regex c) line) eqn:E; [discriminate|].
  intros _. now apply handler_no_match.
Qed.

(** A handler whose pattern matches returns [True], unless it raises. *)
Lemma handler_match (c : category) (line : str) (self : Parser) :
  is_some (search (regex c) line) = true ->
  (exists self', handler c line self = Returns true self')
  \/ (exists self', handler c line self = Raises self').
Proof.
  destruct c; simpl; destruct (search _ line) as [m|] eqn:E; try discriminate;
    intros _.
  - left. rewrite _parse_connection_eq, E. eauto.
  - rewrite _parse_new_query_eq, E. destruct (int _); [|eauto].
    destruct (bool_decide _); eauto.
  - rewrite _parse_end_query_eq, E. destruct (int _); [|eauto].
    destruct (bool_decide _); [eauto|].
    unfold end_outcome.
    destruct (float_of_str _); [|eauto].
    destruct (float_of_str _); [|eauto].
    destruct (timestamp_of line) as [[ts|]|]; eauto.
Qed.

(** The guard is in every line its pattern matches: it only spares the
    search on the other lines. *)
Lemma match_has_guard (c : category) (line : str) (m : mstate) :
  search (regex c) line = Some m -> contains (guard c) line = true.
Proof.
  destruct c; simpl; intros H.
  - apply CONNECTION_match in H as (pre & ? & ? & ? & ? & ? & -> & _).
    apply contains_app.
  - apply NEW_QUERY_match in H as (pre & ? & ? & ? & ? & ? & -> & _).
    apply contains_app.
  - apply END_match in H as (pre & ? & ? & ? & ? & ? & ? & ? & ? & ? & -> & _).
    apply contains_app.
Qed.

Lemma dispatch_accepted (c : category) (cs : list category) (line : str)
      (self : Parser) :
  accepts c line = true ->
  dispatch (c :: cs) line self = (handler c line ;; ret tt) self.
Proof.
  intros H. unfold accepts in H. apply andb_true_iff in H as [Hg Hm].
  simpl. unfold attempt, bind. rewrite Hg.
  destruct (handler_match c line self Hm) as [[s' ->]|[s' ->]]; reflexivity.
Qed.

Lemma dispatch_skip (c : category) (cs : list category) (line : str)
      (self : Parser) :
  accepts c line = false ->
  dispatch (c :: cs) line self = dispatch cs line self.
Proof.
  intros H. simpl. unfold bind. now rewrite attempt_not_accepted.
Qed.

(** One line is processed by the handler of its category, or not at all. *)
Lemma parse_line_category (line0 : str) (self : Parser) :
  parse_line line0 self
  = match category_of (rstrip_nl line0) with
    | Some c => (handler c (rstrip_nl line0) ;; ret tt) self
    | None => Returns tt self
    end.
Proof.
  rewrite parse_line_dispatch. unfold category_of.
  destruct (accepts ConnectionOpen _) eqn:E1; [now apply dispatch_accepted|].
  rewrite dispatch_skip by assumption.
  destruct (accepts QueryStart _) eqn:E2; [now apply dispatch_accepted|].
  rewrite dispatch_skip by assumption.
  destruct (accepts QueryEnd _) eqn:E3; [now apply dispatch_accepted|].
  rewrite dispatch_skip by assumption. reflexivity.
Qed.

End DispatchFacts.

(* ===================================================================== *)
(** ** Facts on binary64 values that are never negative *)
(* ===================================================================== *)

Section FloatFacts.

Lemma iter_pos_preserves {A : Type} (P : A -> Prop) (f : A -> A) :
  (forall x, P x -> P (f x)) -> forall n x, P x -> P (SpecFloat.iter_pos f n x).
Proof.
  intros Hf n. induction n as [n IH|n IH|]; intros x Hx; simpl; auto.
Qed.

Lemma shr_1_nonneg (mrs : shr_record) : 0 <= shr_m mrs -> 0 <= shr_m (shr_1 mrs).
Proof.
  destruct mrs as [m r s]. simpl.
  destruct m as [|[p|p|]|p]; simpl; intros H; lia.
Qed.

Lemma shr_nonneg (mrs : shr_record) (e n : Z) :
  0 <= shr_m mrs -> 0 <= shr_m (fst (shr mrs e n)).
Proof.
  intros H. unfold shr. destruct n; simpl; try exact H.
  apply (iter_pos_preserves (fun x => 0 <= shr_m x)); [apply shr_1_nonneg | exact H].
Qed.

Lemma shr_fexp_nonneg (p e' m e : Z) (l : location) :
  0 <= m -> 0 <= shr_m (fst (shr_fexp p e' m e l)).
Proof.
  intros H. unfold shr_fexp. apply shr_nonneg.
  destruct l as [|[]]; exact H.
Qed.

Lemma round_nearest_even_nonneg (m : Z) (l : location) :
  0 <= m -> 0 <= round_nearest_even m l.
Proof.
  intros H. unfold round_nearest_even.
  destruct l as [|[]]; try lia. destruct (Z.even m); lia.
Qed.

(** Rounding a magnitude that is not negative, with sign plus. *)
Lemma binary_round_aux_nonneg (p e' m e : Z) (l : location) :
  0 <= m -> nonneg (binary_round_aux p e' false m e l) = true.
Proof.
  intros H. unfold binary_round_aux.
  pose proof (shr_fexp_nonneg p e' m e l H) as H1.
  destruct (shr_fexp p e' m e l) as [mrs1 e1]. simpl in H1.
  pose proof (shr_fexp_nonneg p e'
                (round_nearest_even (shr_m mrs1) (loc_of_shr_record mrs1)) e1
                loc_Exact (round_nearest_even_nonneg _ _ H1)) as H2.
  destruct (shr_fexp p e' _ e1 loc_Exact) as [mrs2 e2]. simpl in H2.
  destruct (shr_m mrs2) as [|q|q]; [reflexivity | | lia].
  destruct (e2 <=? e' - p); reflexivity.
Qed.

Lemma binary_round_nonneg (p e' : Z) (m : positive) (e : Z) :
  nonneg (binary_round p e' false m e) = true.
Proof.
  unfold binary_round. destruct (shl_align m e _) as [mz ez].
  apply binary_round_aux_nonneg. lia.
Qed.

Lemma fadd_nonneg (x y : float) :
  nonneg x = true -> nonneg y = true -> nonneg (fadd x y) = true.
Proof.
  unfold fadd.
  destruct x as [[]|[]| |[] mx ex], y as [[]|[]| |[] my ey]; simpl;
    try discriminate; try reflexivity.
  intros _ _. unfold cond_Zopp.
  destruct (shl_align mx ex _) as [m1 e1], (shl_align my ey _) as [m2 e2].
  simpl. apply binary_round_nonneg.
Qed.

Lemma fdiv_nonneg (x y : float) :
  nonneg x = true -> nonneg y = true ->
  match y with S754_finite _ _ _ => True | _ => False end ->
  nonneg (fdiv x y) = true.
Proof.
  unfold fdiv.
  destruct x as [[]|[]| |[] mx ex], y as [[]|[]| |[] my ey]; simpl;
    try discriminate; try reflexivity; try contradiction.
  intros _ _ _. unfold SFdiv_core_binary.
  set (m' := match _ - _ - _ with Z0 => Z.pos mx | Z.pos _ => _ | Z.neg _ => 0 end).
  assert (Hm : 0 <= m').
  { unfold m'. destruct (_ - _ - _); try lia.
    rewrite Z.shiftl_mul_pow2 by lia. apply Z.mul_nonneg_nonneg; lia. }
  pose proof (Z.div_eucl_eq m' (Z.pos my) ltac:(lia)) as Hq.
  pose proof (Z.mod_pos_bound m' (Z.pos my) ltac:(lia)) as Hr.
  unfold Z.modulo in Hr.
  destruct (Z.div_eucl m' (Z.pos my)) as [q r].
  apply binary_round_aux_nonneg. nia.
Qed.

Lemma int_true_div_nonneg (a b : Z) :
  0 <= a -> 0 < b -> nonneg (int_true_div a b) = true.
Proof.
  intros Ha Hb. unfold int_true_div. apply fdiv_nonneg.
  - destruct a; try reflexivity; lia.
  - destruct b; try reflexivity; lia.
  - destruct b; try exact I; lia.
Qed.

(** *** Order on values that are not negative *)

Lemma fleb_refl (x : float) : nonneg x = true -> fleb x x = true.
Proof.
  unfold fleb, SFleb.
  destruct x as [[]|[]| |[] m e]; simpl; try discriminate; try reflexivity.
  intros _. rewrite Z.compare_refl.
  change (Pos.compare_cont Eq m m) with (m ?= m)%positive.
  now rewrite Pos.compare_refl.
Qed.

Lemma fltb_false_fleb (x y : float) :
  nonneg x = true -> nonneg y = true -> fltb x y = false -> fleb y x = true.
Proof.
  unfold fltb, fleb, SFltb, SFleb.
  destruct x as [[]|[]| |[] mx ex], y as [[]|[]| |[] my ey]; simpl;
    try discriminate; try reflexivity.
  intros _ _. rewrite (Z.compare_antisym ex ey).
  destruct (ex ?= ey); simpl; try discriminate; try reflexivity.
  change (Pos.compare_cont Eq mx my) with (mx ?= my)%positive.
  change (Pos.compare_cont Eq my mx) with (my ?= mx)%positive.
  rewrite (Pos.compare_antisym mx my).
  destruct (mx ?= my)%positive; simpl; try discriminate; reflexivity.
Qed.

Lemma fltb_fleb (x y : float) : fltb x y = true -> fleb x y = true.
Proof.
  unfold fltb, fleb, SFltb, SFleb. destruct (SFcompare x y) as [[]|]; auto.
Qed.

Lemma fleb_fltb_trans (x y z : float) :
  nonneg x = true -> nonneg y = true -> nonneg z = true ->
  fleb x y = true -> fltb y z = true -> fleb x z = true.
Proof.
  unfold fltb, fleb, SFltb, SFleb.
  destruct x as [[]|[]| |[] mx ex], y as [[]|[]| |[] my ey],
           z as [[]|[]| |[] mz ez]; simpl;
    try discriminate; try reflexivity.
  intros _ _ _.
  change (Pos.compare_cont Eq mx my) with (mx ?= my)%positive.
  change (Pos.compare_cont Eq my mz) with (my ?= mz)%positive.
  change (Pos.compare_cont Eq mx mz) with (mx ?= mz)%positive.
  destruct (Z.compare_spec ex ey), (Z.compare_spec ey ez), (Z.compare_spec ex ez);
    try discriminate; try reflexivity; try lia.
  destruct (Pos.compare_spec mx my), (Pos.compare_spec my mz),
           (Pos.compare_spec mx mz);
    try discriminate; try reflexivity; try lia.
Qed.

Lemma fleb_zero (x : float) : nonneg x = true -> fleb float_zero x = true.
Proof.
  destruct x as [[]|[]| |[] m e]; simpl; try discriminate; reflexivity.
Qed.

End FloatFacts.

Section FloatParseFacts.
Context {U : UnicodeDB}.

Lemma digits_value_nonneg_from (ds : list N) (acc : Z) :
  0 <= acc -> 0 <= fold_left (fun a d => 10 * a + Z.of_N d) ds acc.
Proof.
  revert acc; induction ds as [|d ds IH]; simpl; intros acc H; [exact H|].
  apply IH. lia.
Qed.

Lemma digits_value_nonneg (ds : list N) : 0 <= digits_value ds.
Proof. apply digits_value_nonneg_from. lia. Qed.

(** Every duration [float] converts is not negative. *)
Lemma float_of_str_nonneg (s : str) (v : float) :
  float_of_str s = Some v -> nonneg v = true.
Proof.
  unfold float_of_str. destruct (span_digits s) as [ip r].
  destruct r as [|c r'].
  - destruct ip; [discriminate|]. intros [= <-].
    apply int_true_div_nonneg; [apply digits_value_nonneg | lia].
  - destruct (c =? ch ".")%N; [|discriminate].
    destruct (span_digits r') as [fp r''].
    destruct r''; [|discriminate].
    destruct (ip ++ fp) eqn:E; [discriminate|]. rewrite <- E.
    intros [= <-].
    apply int_true_div_nonneg; [apply digits_value_nonneg|].
    apply Z.pow_pos_nonneg; lia.
Qed.

End FloatParseFacts.

(* ===================================================================== *)
(** ** What one line, and a whole log, do to the state *)
(* ===================================================================== *)

Section LineFacts.
Context {U : UnicodeDB}.

Lemma accepts_search (c : category) (line : str) :
  accepts c line = true -> exists m, search (regex c) line = Some m.
Proof.
  unfold accepts. intros H. apply andb_true_iff in H as [_ H].
  destruct (search (regex c) line) as [m|]; [eauto | discriminate].
Qed.

Lemma category_of_accepts (line : str) (c : category) :
  category_of line = Some c -> accepts c line = true.
Proof.
  unfold category_of.
  destruct (accepts ConnectionOpen line) eqn:E1; [now intros [= <-]|].
  destruct (accepts QueryStart line) eqn:E2; [now intros [= <-]|].
  destruct (accepts QueryEnd line) eqn:E3; [now intros [= <-]|discriminate].
Qed.

Lemma int_Some (s : str) (n : Z) : int s = Some n -> n = int_of_digits s.
Proof. unfold int. destruct (_ <=? _); congruence. Qed.

Lemma connection_effect_view (m : mstate) (self : Parser) :
  end_view (connection_effect m self) = end_view self
  /\ finished_query_ids (connection_effect m self) = finished_query_ids self
  /\ new_query_ids (connection_effect m self) = new_query_ids self
  /\ total_words (connection_effect m self) = total_words self.
Proof.
  unfold connection_effect. destruct (_extract_ip _) as [[|c ip]|]; auto.
Qed.

Lemma start_effect_view (m : mstate) (self : Parser) :
  end_view (start_effect m self) = end_view self
  /\ finished_query_ids (start_effect m self) = finished_query_ids self.
Proof.
  unfold start_effect, count_effect, link_effect.
  set (s1 := set_new_query_ids _ self).
  change (connections s1) with (connections self).
  destruct (connections self !! _) as [[|c ip]|];
    destruct (strip _); auto.
Qed.

(** A line that is not a first-seen query-end line leaves the attributes of
    [_parse_end_query] alone; a first-seen query-end line changes them by
    [accumulate] and [stamp], as far as its conversions succeed. *)
Lemma parse_line_end_view (line0 : str) (self : Parser) :
  let self' := state_of (parse_line line0 self) in
  match first_seen_end line0 self with
  | None =>
      end_view self' = end_view self
      /\ finished_query_ids self' = finished_query_ids self
  | Some m =>
      finished_query_ids self'
      = {[int_of_digits (group m "query_id")]} ∪ finished_query_ids self
      /\ (int_of_digits (group m "query_id") ∉ finished_query_ids self)
      /\ match float_of_str (group m "time_total_ms"),
               float_of_str (group m "time_working_ms") with
         | Some vt, Some vw =>
             match timestamp_of (rstrip_nl line0) with
             | Some (Some ts) =>
                 end_view self' = end_view (stamp ts (accumulate vt vw self))
             | _ => end_view self' = end_view (accumulate vt vw self)
             end
         | _, _ => end_view self' = end_view self
         end
  end.
Proof.
  intros self'. unfold first_seen_end. subst self'.
  rewrite parse_line_category.
  destruct (category_of (rstrip_nl line0)) as [[]|] eqn:Hc;
    try (apply category_of_accepts, accepts_search in Hc as [m Hm];
         simpl in Hm).
  - unfold bind. simpl handler. rewrite _parse_connection_eq, Hm. simpl.
    destruct (connection_effect_view m self) as (? & ? & _). auto.
  - unfold bind. simpl handler. rewrite _parse_new_query_eq, Hm.
    destruct (int _); [|simpl; auto].
    destruct (bool_decide _); simpl; [auto|].
    destruct (start_effect_view m self). auto.
  - unfold bind. simpl handler. rewrite _parse_end_query_eq, Hm.
    destruct (int (group m "query_id")) as [query_id|] eqn:Hq; [|simpl; auto].
    apply int_Some in Hq as ->.
    destruct (bool_decide_reflect
                (int_of_digits (group m "query_id") ∈ finished_query_ids self));
      simpl; [auto|].
    unfold end_outcome.
    destruct (float_of_str (group m "time_total_ms")) as [vt|];
      [|simpl; auto].
    destruct (float_of_str (group m "time_working_ms")) as [vw|];
      [|simpl; auto].
    destruct (timestamp_of _) as [[ts|]|]; simpl; auto.
  - simpl. auto.
Qed.

(** An invariant of the per-line step is an invariant of [parse], also when
    a line raises. *)
Lemma parse_collect_invariant {A : Type} (g : str -> Parser -> list A)
      (I : Parser -> list A -> Prop) :
  (forall line self acc,
     I self acc -> I (state_of (parse_line line self)) (acc ++ g line self)) ->
  forall f self acc,
    I self acc -> I (state_of (parse f self)) (acc ++ collect g f self).
Proof.
  intros Hstep f. induction f as [|line f IH]; intros self acc HI; simpl.
  - now rewrite app_nil_r.
  - unfold bind. specialize (Hstep line self acc HI).
    destruct (parse_line line self) as [[] self'|self']; simpl in *.
    + rewrite app_assoc. now apply IH.
    + now rewrite app_nil_r.
Qed.

End LineFacts.

(* ===================================================================== *)
(** ** The model on small logs *)
(* ===================================================================== *)

Section Examples.
#[local] Existing Instance ascii_db.

Example connection_with_port :
  parse [py "[01.02.23 10:00:00] Incoming Conn{1f} on 192.168.0.7:5123 accepted, 3 of 100"]
        init
  = Returns tt (set_connections {[ py "1f" := py "192.168.0.7" ]}
                  (set_all_ips {[ py "192.168.0.7" ]} init)).
Proof. vm_compute. reflexivity. Qed.

Example connection_with_bad_address :
  parse [py "Incoming Conn{1f} on 192.168.0.300:5123 accepted, 3 of 100"] init
  = Returns tt (set_connections {[ py "1f" := py "192.168.0.300:5123" ]}
                  (set_invalid_ips {[ py "192.168.0.300:5123" ]} init)).
Proof. vm_compute. reflexivity. Qed.

Example query_linked_to_its_connection :
  let self :=
    state_of (parse [py "Incoming Conn{1f} on 192.168.0.7:5123 accepted, 3 of 100";
                     py "On Conn{1f} new Query{9a} [42]:  select   name from users "]
                    init) in
  query_to_ip self !! 42 = Some (py "192.168.0.7")
  /\ request_freq self !! py "select   name from users" = Some 1
  /\ total_words self = 4.
Proof. vm_compute. auto. Qed.

Example max_of_three_totals :
  let self :=
    state_of (parse [py "End Query{a1} [1], ok, spent { 10.0 : 1.0 queue, 9.0 work } ms, 5 bytes";
                     py "End Query{a2} [2], ok, spent { 30.0 : 1.0 queue, 29.0 work } ms, 5 bytes";
                     py "End Query{a3} [3], ok, spent { 20.0 : 1.0 queue, 19.0 work } ms, 5 bytes"]
                    init) in
  snd (max_times self) = int_true_div 30 1
  /\ snd (average_times self) = int_true_div 20 1.
Proof. vm_compute. auto. Qed.

Example one_finished_query_rps :
  rps (state_of (parse [py "[01.02.23 10:00:00] End Query{a1} [1], ok, spent { 1.0 : 0.0 queue, 1.0 work } ms, 5 bytes"]
                       init))
  = float_of_int 1.
Proof. vm_compute. reflexivity. Qed.

Example empty_input_rps : rps (state_of (parse [] init)) = float_zero.
Proof. reflexivity. Qed.

Example end_line_without_timestamp :
  let self :=
    state_of (parse [py "End Query{a1} [1], ok, spent { 2.5 : 0.5 queue, 2.0 work } ms, 5 bytes"]
                    init) in
  first_end_time self = None /\ last_end_time self = None
  /\ total_time_with_waiting_ms self = int_true_div 25 10
  /\ rps self = float_zero.
Proof. vm_compute. auto. Qed.

Example stamps_of_a_log :
  stamps [py "[01.02.23 10:00:10] End Query{a1} [1], ok, spent { 1.0 : 0.0 queue, 1.0 work } ms, 5 bytes";
          py "[01.02.23 10:00:00] End Query{a2} [2], ok, spent { 1.0 : 0.0 queue, 1.0 work } ms, 5 bytes";
          py "[01.02.23 10:00:05] End Query{a2} [2], ok, spent { 1.0 : 0.0 queue, 1.0 work } ms, 5 bytes"]
         init
  = [ {| year := 2023; month := 2; day := 1; hour := 10; minute := 0; second := 10 |};
      {| year := 2023; month := 2; day := 1; hour := 10; minute := 0; second := 0 |} ].
Proof. vm_compute. reflexivity. Qed.

End Examples.

(* ===================================================================== *)
(** ** C1: a guard that is present while its pattern fails *)
(* ===================================================================== *)

Section C1.
Context {U : UnicodeDB}.

(** C1 (as the code has it).  When the guard substring of a category is in
    the line but the category's pattern does not match, that category returns
    [False] without touching the state, and the categories after it in the
    order connection-open, query-start, query-end are still tried on the same
    line, each behind its own guard; the line is left unmatched only when the
    last category tried has failed too. *)
Theorem C1_failed_category_falls_through
    (c : category) (line0 : str) (self : Parser) :
  contains (guard c) (rstrip_nl line0) = true ->
  search (regex c) (rstrip_nl line0) = None ->
  let line := rstrip_nl line0 in
  attempt c line self = Returns false self
  /\ match c with
     | ConnectionOpen =>
         parse_line line0 self = dispatch [QueryStart; QueryEnd] line self
     | QueryStart =>
         accepts ConnectionOpen line = false ->
         parse_line line0 self = dispatch [QueryEnd] line self
     | QueryEnd =>
         accepts ConnectionOpen line = false ->
         accepts QueryStart line = false ->
         parse_line line0 self = Returns tt self
     end.
Proof.
  intros Hg Hm line. split; [now apply attempt_no_match|].
  assert (Hc : accepts c line = false).
  { unfold accepts, line. now rewrite Hm, andb_false_r. }
  rewrite parse_line_dispatch. fold line.
  destruct c.
  - now rewrite (dispatch_skip ConnectionOpen).
  - intros H1. rewrite (dispatch_skip ConnectionOpen) by assumption.
    now rewrite (dispatch_skip QueryStart).
  - intros H1 H2. rewrite (dispatch_skip ConnectionOpen) by assumption.
    rewrite (dispatch_skip QueryStart) by assumption.
    now rewrite (dispatch_skip QueryEnd).
Qed.

End C1.

Section C1_examples.
#[local] Existing Instance ascii_db.

(** The line carries the connection-open guard, the connection pattern does
    not match it, and yet the query-start extraction runs on it and records
    query 5: the line is not left unmatched. *)
Lemma C1_counterexample :
  let line := py "Incoming Conn{ On Conn{ab} new Query{cd} [5]: hello" in
  contains (guard ConnectionOpen) line = true
  /\ search (regex ConnectionOpen) line = None
  /\ parse_line line init
     = Returns tt (set_total_words 1
                     (set_request_freq {[ py "hello" := 1 ]}
                        (set_new_query_ids {[ 5 ]} init))).
Proof. vm_compute. auto. Qed.

Lemma C1_witness :
  let line := py "Incoming Conn{ On Conn{ab} new Query{cd} [5]: hello" in
  attempt ConnectionOpen line init = Returns false init
  /\ parse_line line init = dispatch [QueryStart; QueryEnd] line init.
Proof.
  exact (C1_failed_category_falls_through ConnectionOpen
           (py "Incoming Conn{ On Conn{ab} new Query{cd} [5]: hello") init
           eq_refl eq_refl).
Defined.

End C1_examples.

(* ===================================================================== *)
(** ** C2: lines on which a conversion raises *)
(* ===================================================================== *)

Section C2.
Context {U : UnicodeDB}.

(** The handler of connection-open lines never raises, and the handler of
    query-start lines raises only when [int] rejects the id, before it
    assigns anything. *)
Lemma connection_returns (line : str) (self : Parser) :
  exists b self', _parse_connection line self = Returns b self'.
Proof. rewrite _parse_connection_eq. destruct (search _ _); eauto. Qed.

Lemma start_raises_at_int (line : str) (self self' : Parser) :
  _parse_new_query line self = Raises self' ->
  self' = self
  /\ exists m, search NEW_QUERY line = Some m /\ int (group m "query_id") = None.
Proof.
  rewrite _parse_new_query_eq. destruct (search _ _) as [m|]; [|discriminate].
  destruct (int _) eqn:E; [destruct (bool_decide _); discriminate|].
  intros [= <-]. eauto.
Qed.

(** A line that no category accepts is skipped: nothing is raised and the
    state is the same. *)
Lemma unmatched_line_skipped (line0 : str) (self : Parser) :
  category_of (rstrip_nl line0) = None -> parse_line line0 self = Returns tt self.
Proof. intros H. now rewrite parse_line_category, H. Qed.

(** A line with an id that [int] rejects raises and leaves the state as it
    was. *)
Lemma parse_line_id_rejected (line0 : str) (self : Parser) :
  id_rejected line0 = true -> parse_line line0 self = Raises self.
Proof.
  unfold id_rejected. rewrite parse_line_category.
  destruct (category_of (rstrip_nl line0)) as [[]|]; try discriminate;
    unfold bind; simpl handler;
    rewrite ?_parse_new_query_eq, ?_parse_end_query_eq;
    (destruct (search _ _) as [m|]; [|discriminate]);
    (destruct (int _); simpl; [discriminate | reflexivity]).
Qed.

(** [parse_line] raises exactly on a query-start or query-end line with an
    id [int] rejects, and on a first-seen query-end line with a duration
    [float] rejects or a timestamp [strptime] rejects. *)
Lemma parse_line_raises_iff (line0 : str) (self : Parser) :
  (exists self', parse_line line0 self = Raises self')
  <-> id_rejected line0 = true
      \/ exists m, first_seen_end line0 self = Some m
                   /\ (float_of_str (group m "time_total_ms") = None
                       \/ float_of_str (group m "time_working_ms") = None
                       \/ timestamp_of (rstrip_nl line0) = None).
Proof.
  unfold first_seen_end, id_rejected. rewrite parse_line_category.
  destruct (category_of (rstrip_nl line0)) as [[]|] eqn:Hc;
    try (apply category_of_accepts, accepts_search in Hc as [m Hm];
         simpl in Hm).
  - unfold bind. simpl handler. rewrite _parse_connection_eq, Hm.
    split; [intros [? [=]] | intros [[=]|(? & [=] & _)]].
  - unfold bind. simpl handler. rewrite _parse_new_query_eq, Hm.
    destruct (int _); simpl.
    + split; [|intros [[=]|(? & [=] & _)]].
      destruct (bool_decide _); intros [? [=]].
    + split; eauto.
  - unfold bind. simpl handler. rewrite _parse_end_query_eq, Hm.
    destruct (int _); simpl; [|split; eauto].
    destruct (bool_decide _).
    { split; [intros [? [=]] | intros [[=]|(? & [=] & _)]]. }
    unfold end_outcome.
    destruct (float_of_str (group m "time_total_ms")) as [vt|] eqn:Et;
      [|split; [intros _; right; exists m; rewrite Et; auto | eauto]].
    destruct (float_of_str (group m "time_working_ms")) as [vw|] eqn:Ew;
      [|split; [intros _; right; exists m; rewrite Ew; auto | eauto]].
    destruct (timestamp_of _) as [[ts|]|].
    + split; [intros [? [=]]|].
      intros [[=]|(m' & [= <-] & [H|[H|H]])]; congruence.
    + split; [intros [? [=]]|].
      intros [[=]|(m' & [= <-] & [H|[H|H]])]; congruence.
    + split; [intros _; right; exists m; auto | eauto].
  - split; [intros [? [=]] | intros [[=]|(? & [=] & _)]].
Qed.

End C2.

Section C2_examples.
#[local] Existing Instance ascii_db.

(** C2 (the code at two lines it can read).  A query-end line whose total
    duration is [1.2.3] is matched by [END] ([[\d.]+]), the id 12 is added to
    the finished ids, and [float] then raises [ValueError] out of [parse_line];
    a query-end line stamped [31.02.23] is matched, its durations are
    accumulated, and [strptime] then raises [ValueError]. *)
Theorem C2_conversions_raise :
  parse_line
    (py "End Query{cd} [12], ok, spent { 1.2.3 : 0.5 queue, 0.1 work } ms, 12 bytes")
    init
  = Raises (set_finished_query_ids {[ 12 ]} init)
  /\ parse_line
       (py "[31.02.23 10:00:00] End Query{cd} [13], ok, spent { 1.5 : 0.5 queue, 1.0 work } ms, 12 bytes")
       init
     = Raises
         (set_max_handling_time_working_ms (S754_finite false 4503599627370496 (-52))
         (set_max_handling_time_with_waiting_ms (S754_finite false 6755399441055744 (-52))
         (set_total_time_working_ms (S754_finite false 4503599627370496 (-52))
         (set_total_time_with_waiting_ms (S754_finite false 6755399441055744 (-52))
         (set_finished_query_ids {[ 13 ]} init))))).
Proof. vm_compute. auto. Qed.

End C2_examples.

(* ===================================================================== *)
(** ** C3: registration of a connection *)
(* ===================================================================== *)

Section SplitFacts.

Lemma contains_single (c : char) (s : str) :
  contains [c] s = existsb (N.eqb c) s.
Proof.
  induction s as [|x s IH]; simpl; [reflexivity|].
  destruct (c =? x)%N; simpl; [reflexivity | exact IH].
Qed.

Lemma split_on_not_nil (sep : char) (s : str) : split_on sep s <> [].
Proof.
  destruct s as [|c s]; simpl; [discriminate|].
  destruct (c =? sep)%N; [discriminate|].
  destruct (split_on sep s); discriminate.
Qed.

Lemma join_split_on (sep : char) (s : str) : join sep (split_on sep s) = s.
Proof.
  induction s as [|c s IH]; simpl; [reflexivity|].
  destruct (N.eqb_spec c sep) as [->|Hc].
  - pose proof (split_on_not_nil sep s) as Hn.
    destruct (split_on sep s) as [|w ws]; [congruence|].
    simpl in *. now rewrite IH.
  - pose proof (split_on_not_nil sep s) as Hn.
    destruct (split_on sep s) as [|w ws]; [congruence|].
    destruct ws; simpl in *; now rewrite <- IH.
Qed.

Lemma split_on_piece (sep : char) (a r : str) :
  existsb (N.eqb sep) a = false ->
  split_on sep (a ++ sep :: r) = a :: split_on sep r.
Proof.
  induction a as [|c a IH]; simpl; intros H.
  - now rewrite N.eqb_refl.
  - apply orb_false_iff in H as [Hc Ha].
    rewrite N.eqb_sym, Hc, (IH Ha). reflexivity.
Qed.

Lemma split_on_last (sep : char) (a : str) :
  existsb (N.eqb sep) a = false -> split_on sep a = [a].
Proof.
  induction a as [|c a IH]; simpl; intros H; [reflexivity|].
  apply orb_false_iff in H as [Hc Ha].
  rewrite N.eqb_sym, Hc, (IH Ha). reflexivity.
Qed.

Lemma before_first_split (sep : char) (s : str) :
  existsb (N.eqb sep) s = true ->
  exists rest, s = before_first sep s ++ sep :: rest
               /\ existsb (N.eqb sep) (before_first sep s) = false.
Proof.
  induction s as [|c s IH]; simpl; [discriminate|].
  destruct (N.eqb_spec c sep) as [->|Hc].
  - rewrite N.eqb_refl. intros _. exists s. auto.
  - rewrite (proj2 (N.eqb_neq sep c)) by congruence. simpl.
    intros H. destruct (IH H) as (rest & Hs & Hb).
    exists rest. split; [now rewrite <- Hs|].
    simpl. rewrite (proj2 (N.eqb_neq sep c)) by congruence. exact Hb.
Qed.

(** Digits hold neither a point nor a slash. *)
Lemma digits_exclude (x : char) (g : str) :
  in_range "0" "9" x = false ->
  forallb (in_range "0" "9") g = true -> existsb (N.eqb x) g = false.
Proof.
  intros Hx. induction g as [|c g IH]; simpl; [reflexivity|].
  intros H. apply andb_true_iff in H as [Hc Hg].
  rewrite (IH Hg), orb_false_r.
  destruct (N.eqb_spec x c) as [->|]; [congruence | reflexivity].
Qed.

End SplitFacts.

Section OctetFacts.

Lemma int_ascii_nonneg_from (g : str) (acc : Z) :
  forallb (in_range "0" "9") g = true -> 0 <= acc ->
  0 <= fold_left (fun a c => 10 * a + (Z.of_N c - 48)) g acc.
Proof.
  revert acc; induction g as [|c g IH]; simpl; intros acc H Hacc; [exact Hacc|].
  apply andb_true_iff in H as [Hc Hg]. apply IH; [exact Hg|].
  unfold in_range, ch in Hc. simpl in Hc.
  apply andb_true_iff in Hc as [H1 H2].
  apply N.leb_le in H1, H2. lia.
Qed.

Lemma parse_octet_octet (g : str) (v : Z) :
  parse_octet g = Some v -> octet g /\ v = int_ascii g.
Proof.
  unfold parse_octet, octet. destruct g as [|c0 g]; [discriminate|].
  destruct (forallb _ (c0 :: g)) eqn:Hd; simpl negb; cbv iota; [|discriminate].
  destruct (Nat.ltb_spec 3 (length (c0 :: g))); [discriminate|].
  destruct (bool_decide_reflect (c0 :: g = py "0")) as [H0|H0]; simpl negb;
    cbn [andb].
  - destruct (Z.ltb_spec 255 (int_ascii (c0 :: g))); [discriminate|].
    intros [= <-]. repeat split; auto; discriminate.
  - destruct (N.eqb_spec c0 (ch "0")) as [|Hc]; [discriminate|].
    destruct (Z.ltb_spec 255 (int_ascii (c0 :: g))); [discriminate|].
    intros [= <-]. repeat split; auto; discriminate.
Qed.

Lemma octet_parse_octet (g : str) : octet g -> parse_octet g = Some (int_ascii g).
Proof.
  unfold parse_octet, octet. intros (Hn & Hd & Hl & Hz & Hv).
  destruct g as [|c0 g]; [congruence|].
  rewrite Hd. simpl negb. cbv iota.
  destruct (Nat.ltb_spec 3 (length (c0 :: g))); [lia|].
  destruct (bool_decide_reflect (c0 :: g = py "0")) as [H0|H0]; simpl negb;
    cbn [andb].
  - destruct (Z.ltb_spec 255 (int_ascii (c0 :: g))); [lia | reflexivity].
  - destruct Hz as [Hz|Hz]; [congruence|].
    destruct (N.eqb_spec c0 (ch "0")) as [e|Hc]; [exfalso; apply Hz; exact e|].
    destruct (Z.ltb_spec 255 (int_ascii (c0 :: g))); [lia | reflexivity].
Qed.

(** [IPv4Address] accepts exactly the dotted quads of octets. *)
Lemma IPv4Address_dotted_quad (s : str) :
  _is_valid_ipv4 s = true <-> dotted_quad s.
Proof.
  unfold _is_valid_ipv4, IPv4Address, dotted_quad. split.
  - destruct (contains (py "/") s); [discriminate|].
    destruct s as [|c0 s0] eqn:Es; [discriminate|]. rewrite <- Es.
    pose proof (join_split_on (ch ".") s) as Hj.
    destruct (split_on (ch ".") s) as [|a [|b [|c [|d [|e l]]]]];
      simpl length; simpl negb; cbv iota; try discriminate.
    simpl parse_octets.
    destruct (parse_octet a) as [va|] eqn:Ea; [|discriminate].
    destruct (parse_octet b) as [vb|] eqn:Eb; [|discriminate].
    destruct (parse_octet c) as [vc|] eqn:Ec; [|discriminate].
    destruct (parse_octet d) as [vd|] eqn:Ed; [|discriminate].
    intros _. exists a, b, c, d.
    apply parse_octet_octet in Ea as [? _], Eb as [? _], Ec as [? _], Ed as [? _].
    auto.
  - intros (a & b & c & d & -> & Ha & Hb & Hc & Hd).
    assert (Hdot : forall g, octet g -> existsb (N.eqb (ch ".")) g = false).
    { intros g (_ & Hg & _). now apply digits_exclude. }
    assert (Hsl : forall g, octet g -> existsb (N.eqb (ch "/")) g = false).
    { intros g (_ & Hg & _). now apply digits_exclude. }
    assert (Hsd : (ch "/" =? ch ".")%N = false) by reflexivity.
    change (py "/") with [ch "/"]. rewrite contains_single.
    set (dot := ch ".") in *. set (slash := ch "/") in *.
    clearbody dot slash.
    assert (Hjoin : join dot [a; b; c; d] = a ++ dot :: b ++ dot :: c ++ dot :: d)
      by reflexivity.
    rewrite Hjoin. clear Hjoin.
    rewrite !existsb_app. cbn [existsb]. rewrite !existsb_app. cbn [existsb].
    rewrite !existsb_app. cbn [existsb].
    rewrite !Hsl, Hsd by assumption. cbn [orb].
    destruct (a ++ dot :: b ++ dot :: c ++ dot :: d) eqn:E.
    { destruct a; discriminate. }
    rewrite <- E.
    rewrite !split_on_piece, split_on_last by auto.
    cbn [length Nat.eqb negb parse_octets].
    rewrite !octet_parse_octet by assumption. reflexivity.
Qed.

End OctetFacts.

Section C3.
Context {U : UnicodeDB}.

(** C3 (as the code has it).  For every line that [CONNECTION] matches, with
    token [raw] and connection id [conn]: when the token holds a colon, the
    candidate address is what precedes the first colon, otherwise the whole
    token; the candidate is valid iff it is exactly four dot-separated groups,
    each of one to three ASCII digits with no leading zero (the group ["0"]
    apart) and a value in [0,255]; a valid candidate, without the port, is
    added to the valid addresses and mapped to the connection; otherwise the
    whole raw token, port included, is added to the invalid addresses and
    mapped to the connection. *)
Theorem C3_connection_registration (line : str) (self : Parser) (m : mstate) :
  search CONNECTION line = Some m ->
  let conn := group m "conn_hex_id" in
  let raw := group m "raw_ip_port" in
  (contains (py ":") raw = true ->
     exists port, raw = candidate raw ++ py ":" ++ port
                  /\ existsb (N.eqb (ch ":")) (candidate raw) = false)
  /\ (contains (py ":") raw = false -> candidate raw = raw)
  /\ (_is_valid_ipv4 (candidate raw) = true <-> dotted_quad (candidate raw))
  /\ (dotted_quad (candidate raw) ->
        _parse_connection line self
        = Returns true
            (set_connections (<[conn := candidate raw]> (connections self))
               (set_all_ips ({[candidate raw]} ∪ all_ips self) self)))
  /\ (~ dotted_quad (candidate raw) ->
        _parse_connection line self
        = Returns true
            (set_connections (<[conn := raw]> (connections self))
               (set_invalid_ips ({[raw]} ∪ invalid_ips self) self))).
Proof.
  intros Hm conn raw.
  split; [|split; [|split; [apply IPv4Address_dotted_quad|]]].
  - intros Hc. unfold candidate. rewrite Hc.
    change (py ":") with [ch ":"] in Hc. rewrite contains_single in Hc.
    destruct (before_first_split _ _ Hc) as (port & Hs & Hb).
    exists port. auto.
  - intros Hc. unfold candidate. now rewrite Hc.
  - assert (Hx : _extract_ip raw
                 = if _is_valid_ipv4 (candidate raw) then Some (candidate raw)
                   else None).
    { unfold _extract_ip, candidate. destruct (contains _ raw); reflexivity. }
    unfold _parse_connection. rewrite Hm. fold conn raw. rewrite Hx.
    split.
    + intros Hq. pose proof Hq as (a & b & c & d & Hs & Ha & _).
      apply IPv4Address_dotted_quad in Hq. rewrite Hq.
      destruct (candidate raw) as [|c0 cs] eqn:Ec; [|reflexivity].
      destruct a; [destruct Ha; congruence | discriminate].
    + intros Hq. destruct (_is_valid_ipv4 (candidate raw)) eqn:Hv; [|reflexivity].
      apply IPv4Address_dotted_quad in Hv. contradiction.
Qed.

End C3.

Section C3_examples.
#[local] Existing Instance ascii_db.

(** The candidates [10.0.0.01] and [10.0.0.0001] are four dot-separated
    decimal groups, each in [0,255], yet they are not valid: the whole token
    goes to the invalid addresses. *)
Lemma C3_counterexample :
  let line := py "Incoming Conn{ab} on 10.0.0.01:80 accepted, 1 of 10" in
  spec_dotted_quad (py "10.0.0.01") = true
  /\ _is_valid_ipv4 (py "10.0.0.01") = false
  /\ spec_dotted_quad (py "10.0.0.0001") = true
  /\ _is_valid_ipv4 (py "10.0.0.0001") = false
  /\ parse_line line init
     = Returns tt (set_connections {[ py "ab" := py "10.0.0.01:80" ]}
                     (set_invalid_ips {[ py "10.0.0.01:80" ]} init)).
Proof. vm_compute. auto 10. Qed.

Lemma C3_witness :
  let line := py "Incoming Conn{ab} on 10.0.0.1:80 accepted, 1 of 10" in
  exists m, search CONNECTION line = Some m
  /\ candidate (group m "raw_ip_port") = py "10.0.0.1"
  /\ _parse_connection line init
     = Returns true (set_connections {[ py "ab" := py "10.0.0.1" ]}
                       (set_all_ips {[ py "10.0.0.1" ]} init)).
Proof.
  set (line := py "Incoming Conn{ab} on 10.0.0.1:80 accepted, 1 of 10").
  destruct (search CONNECTION line) as [m|] eqn:Hm; [|vm_compute in Hm; discriminate].
  exists m. split; [exact Hm|].
  pose proof (C3_connection_registration line init m Hm) as (_ & _ & Hv & Hok & _).
  assert (Hr : group m "raw_ip_port" = py "10.0.0.1:80")
    by (vm_compute in Hm; injection Hm as <-; reflexivity).
  assert (Hc : group m "conn_hex_id" = py "ab")
    by (vm_compute in Hm; injection Hm as <-; reflexivity).
  rewrite Hr, Hc in *.
  split; [reflexivity|].
  rewrite Hok by (apply Hv; reflexivity). vm_compute. reflexivity.
Defined.

End C3_examples.

(* ===================================================================== *)
(** ** C4, C5: a query id is counted once *)
(* ===================================================================== *)

Section Idempotence.
Context {U : UnicodeDB}.

Lemma parse_line_start (line0 : str) (self : Parser) (m : mstate) (query_id : Z) :
  category_of (rstrip_nl line0) = Some QueryStart ->
  search NEW_QUERY (rstrip_nl line0) = Some m ->
  int (group m "query_id") = Some query_id ->
  parse_line line0 self
  = Returns tt
      (if bool_decide (query_id ∈ new_query_ids self)
       then self else start_effect m self).
Proof.
  intros Hc Hm Hq. rewrite parse_line_category, Hc. unfold bind. simpl handler.
  rewrite _parse_new_query_eq, Hm, Hq. now destruct (bool_decide _).
Qed.

Lemma parse_line_start_rejected (line0 : str) (self : Parser) (m : mstate) :
  category_of (rstrip_nl line0) = Some QueryStart ->
  search NEW_QUERY (rstrip_nl line0) = Some m ->
  int (group m "query_id") = None ->
  parse_line line0 self = Raises self.
Proof.
  intros Hc Hm Hq. apply parse_line_id_rejected. unfold id_rejected.
  now rewrite Hc, Hm, Hq.
Qed.



Lemma start_effect_ids (m : mstate) (self : Parser) :
  new_query_ids (start_effect m self)
  = {[int_of_digits (group m "query_id")]} ∪ new_query_ids self.
Proof.
  unfold start_effect, count_effect, link_effect.
  set (s1 := set_new_query_ids _ self).
  change (connections s1) with (connections self).
  destruct (connections self !! _) as [[|c ip]|];
    destruct (strip _); reflexivity.
Qed.

Lemma start_effect_counts (m : mstate) (self : Parser) :
  let self1 := start_effect m self in
  let text := strip (group m "text_decoded") in
  request_freq self1 = request_freq (count_effect text self)
  /\ total_words self1 = total_words (count_effect text self).
Proof.
  unfold start_effect, count_effect, link_effect.
  set (s1 := set_new_query_ids _ self).
  change (connections s1) with (connections self).
  destruct (connections self !! _) as [[|c ip]|];
    destruct (strip _); split; reflexivity.
Qed.

Lemma size_add_fresh (x : Z) (X : gset Z) : x ∉ X -> size ({[x]} ∪ X) = S (size X).
Proof.
  intros Hx. rewrite size_union by set_solver. now rewrite size_singleton.
Qed.

(** A query-start line with an id [int] converts: what its first and its
    later occurrences do. *)
Lemma start_line_once (line0 : str) (self : Parser) (m : mstate) (query_id : Z) :
  category_of (rstrip_nl line0) = Some QueryStart ->
  search NEW_QUERY (rstrip_nl line0) = Some m ->
  int (group m "query_id") = Some query_id ->
  let text := strip (group m "text_decoded") in
  let self1 := state_of (parse_line line0 self) in
  parse_line line0 self = Returns tt self1
  /\ parse_line line0 self1 = Returns tt self1
  /\ query_id ∈ new_query_ids self1
  /\ (forall (line' : str) (m' : mstate) (self' : Parser),
        category_of (rstrip_nl line') = Some QueryStart ->
        search NEW_QUERY (rstrip_nl line') = Some m' ->
        int (group m' "query_id") = Some query_id ->
        query_id ∈ new_query_ids self' ->
        parse_line line' self' = Returns tt self')
  /\ (query_id ∉ new_query_ids self ->
        size (new_query_ids self1) = S (size (new_query_ids self))
        /\ (text <> [] ->
              request_freq self1 !! text
              = Some (default 0 (request_freq self !! text) + 1)
              /\ (forall t : str, t <> text ->
                    request_freq self1 !! t = request_freq self !! t)
              /\ total_words self1 = total_words self + count_words text)
        /\ (text = [] ->
              request_freq self1 = request_freq self
              /\ total_words self1 = total_words self)).
Proof.
  intros Hc Hm Hq text self1.
  assert (Hseen : forall (line' : str) (m' : mstate) (self' : Parser),
            category_of (rstrip_nl line') = Some QueryStart ->
            search NEW_QUERY (rstrip_nl line') = Some m' ->
            int (group m' "query_id") = Some query_id ->
            query_id ∈ new_query_ids self' ->
            parse_line line' self' = Returns tt self').
  { intros line' m' self' Hc' Hm' Hid Hin.
    rewrite (parse_line_start _ _ _ _ Hc' Hm' Hid).
    now rewrite bool_decide_eq_true_2. }
  pose proof (int_Some _ _ Hq) as Hv.
  assert (H1 : parse_line line0 self = Returns tt self1).
  { unfold self1. now rewrite (parse_line_start _ _ _ _ Hc Hm Hq). }
  assert (Hin : query_id ∈ new_query_ids self1).
  { unfold self1. rewrite (parse_line_start _ _ _ _ Hc Hm Hq).
    simpl state_of. destruct (bool_decide_reflect (query_id ∈ new_query_ids self));
      [assumption|].
    rewrite start_effect_ids, <- Hv. set_solver. }
  split; [exact H1|]. split; [now apply (Hseen line0 m)|].
  split; [exact Hin|]. split; [exact Hseen|].
  intros Hnew. unfold self1. rewrite (parse_line_start _ _ _ _ Hc Hm Hq).
  rewrite bool_decide_eq_false_2 by assumption. simpl state_of.
  destruct (start_effect_counts m self) as [Hf Hw]. fold text in Hf, Hw.
  rewrite start_effect_ids, Hf, Hw, <- Hv.
  split; [now apply size_add_fresh|].
  unfold count_effect. split.
  - intros Ht. destruct text as [|c t] eqn:Et; [congruence|].
    cbn [request_freq total_words set_total_words set_request_freq].
    split; [now rewrite lookup_insert_eq|].
    split; [|reflexivity].
    intros t' Ht'. now rewrite lookup_insert_ne.
  - intros ->. auto.
Qed.

(** C4 (as the code has it).  For a line the loop hands to the query-start
    handler, with trimmed text [text]: when the numeric id has more digits
    than [int] converts, processing the line raises [ValueError] and changes
    nothing.  Otherwise, with [query_id] the id: processing the line returns;
    processing it a second time changes nothing; so does any later
    query-start line with the same numeric id; and when the id was not seen
    before, the first occurrence adds one started query, adds one to the
    frequency of [text] and the words of [text] to the word total (nothing
    when [text] is empty). *)
Theorem C4_query_start_idempotent (line0 : str) (self : Parser) (m : mstate) :
  category_of (rstrip_nl line0) = Some QueryStart ->
  search NEW_QUERY (rstrip_nl line0) = Some m ->
  let text := strip (group m "text_decoded") in
  let self1 := state_of (parse_line line0 self) in
  match int (group m "query_id") with
  | None => parse_line line0 self = Raises self
  | Some query_id =>
      parse_line line0 self = Returns tt self1
      /\ parse_line line0 self1 = Returns tt self1
      /\ query_id ∈ new_query_ids self1
      /\ (forall (line' : str) (m' : mstate) (self' : Parser),
            category_of (rstrip_nl line') = Some QueryStart ->
            search NEW_QUERY (rstrip_nl line') = Some m' ->
            int (group m' "query_id") = Some query_id ->
            query_id ∈ new_query_ids self' ->
            parse_line line' self' = Returns tt self')
      /\ (query_id ∉ new_query_ids self ->
            size (new_query_ids self1) = S (size (new_query_ids self))
            /\ (text <> [] ->
                  request_freq self1 !! text
                  = Some (default 0 (request_freq self !! text) + 1)
                  /\ (forall t : str, t <> text ->
                        request_freq self1 !! t = request_freq self !! t)
                  /\ total_words self1 = total_words self + count_words text)
            /\ (text = [] ->
                  request_freq self1 = request_freq self
                  /\ total_words self1 = total_words self))
  end.
Proof.
  intros Hc Hm text self1.
  destruct (int (group m "query_id")) as [query_id|] eqn:Hq.
  - exact (start_line_once line0 self m query_id Hc Hm Hq).
  - exact (parse_line_start_rejected line0 self m Hc Hm Hq).
Qed.


End Idempotence.

Section Idempotence_examples.
#[local] Existing Instance ascii_db.

(** A query-start line whose id has 4301 digits: [NEW_QUERY] matches it,
    [int] raises, on the first occurrence as on every other, and the state
    stays the initial one: nothing is counted, not once. *)
Lemma C4_counterexample :
  let line := py "On Conn{ab} new Query{cd} [" ++ repeat (ch "7") 4301
              ++ py "]: select 1" in
  option_map (fun m => length (group m "query_id"))
    (search NEW_QUERY (rstrip_nl line)) = Some 4301%nat
  /\ parse_line line init = Raises init
  /\ size (new_query_ids init) = 0%nat.
Proof. vm_compute. auto. Qed.

Lemma C4_witness :
  let line := py "On Conn{ab} new Query{cd} [7]: select  1" in
  parse_line line (state_of (parse_line line init))
  = Returns tt (state_of (parse_line line init))
  /\ size (new_query_ids (state_of (parse_line line init))) = 1%nat
  /\ total_words (state_of (parse_line line init)) = 2.
Proof.
  intros line.
  destruct (search NEW_QUERY (rstrip_nl line)) as [m|] eqn:Hm;
    [|vm_compute in Hm; discriminate].
  pose proof (C4_query_start_idempotent line init m eq_refl Hm) as H.
  assert (Hid : int (group m "query_id") = Some 7)
    by (vm_compute in Hm; injection Hm as <-; vm_compute; reflexivity).
  cbv zeta in H. rewrite Hid in H. destruct H as (_ & H2 & _ & _ & H5).
  split; [exact H2|].
  destruct H5 as (Hs & _ & _); [set_solver|].
  split; [exact Hs | vm_compute; reflexivity].
Defined.



End Idempotence_examples.

(* ===================================================================== *)
(** ** C9: the first and last end timestamps *)
(* ===================================================================== *)

Section DatetimeOrder.

Lemma lex_compare_refl (a : list Z) : lex_compare a a = Eq.
Proof. induction a as [|x a IH]; simpl; [reflexivity|]. now rewrite Z.compare_refl. Qed.

Lemma lex_compare_antisym (a b : list Z) :
  lex_compare b a = CompOpp (lex_compare a b).
Proof.
  revert b; induction a as [|x a IH]; intros [|y b]; simpl; try reflexivity.
  rewrite (Z.compare_antisym x y). destruct (x ?= y); simpl; auto.
Qed.

Lemma lex_compare_le_trans (a b c : list Z) :
  lex_compare a b <> Gt -> lex_compare b c <> Gt -> lex_compare a c <> Gt.
Proof.
  revert b c; induction a as [|x a IH]; intros [|y b] [|z c]; simpl;
    try congruence.
  destruct (Z.compare_spec x y), (Z.compare_spec y z), (Z.compare_spec x z);
    try lia; try congruence.
  apply IH.
Qed.

Lemma dt_leb_refl (a : datetime) : dt_leb a a = true.
Proof. unfold dt_leb, dt_compare. now rewrite lex_compare_refl. Qed.

Lemma dt_leb_trans (a b c : datetime) :
  dt_leb a b = true -> dt_leb b c = true -> dt_leb a c = true.
Proof.
  unfold dt_leb, dt_compare. intros H1 H2.
  pose proof (lex_compare_le_trans (dt_tuple a) (dt_tuple b) (dt_tuple c)) as H.
  destruct (lex_compare (dt_tuple a) (dt_tuple b)); try discriminate;
    destruct (lex_compare (dt_tuple b) (dt_tuple c)); try discriminate;
    destruct (lex_compare (dt_tuple a) (dt_tuple c)); try reflexivity;
    exfalso; apply H; congruence.
Qed.

Lemma dt_ltb_leb (a b : datetime) : dt_ltb a b = true -> dt_leb a b = true.
Proof. unfold dt_ltb, dt_leb. destruct (dt_compare a b); auto. Qed.

Lemma dt_ltb_false_leb (a b : datetime) : dt_ltb a b = false -> dt_leb b a = true.
Proof.
  unfold dt_ltb, dt_leb, dt_compare.
  rewrite (lex_compare_antisym (dt_tuple a) (dt_tuple b)).
  destruct (lex_compare (dt_tuple a) (dt_tuple b)); simpl; auto.
Qed.

(** One more timestamp moves the bounds as [_parse_end_query] does. *)
Lemma bounds_stamp (first last : option datetime) (ts : list datetime)
      (t : datetime) :
  bounds first last ts ->
  bounds (earliest first t) (latest last t) (ts ++ [t]).
Proof.
  unfold bounds. destruct ts as [|t0 ts'].
  - intros [-> ->]. simpl. exists t, t.
    split; [reflexivity|]. split; [reflexivity|].
    split; [now left|]. split; [now left|].
    intros u [<-|[]]. split; apply dt_leb_refl.
  - intros (a & b & -> & -> & Ha & Hb & Hall). simpl app.
    change (t0 :: ts' ++ [t]) with ((t0 :: ts') ++ [t]).
    set (l := t0 :: ts') in *. simpl earliest. simpl latest.
    assert (Hin : forall u, In u (l ++ [t]) -> In u l \/ u = t).
    { intros u Hu. apply in_app_or in Hu as [|[<-|[]]]; auto. }
    assert (Hl : forall u, In u l -> In u (l ++ [t])).
    { intros u Hu. apply in_or_app. now left. }
    assert (Ht : In t (l ++ [t])).
    { apply in_or_app. right. now left. }
    assert (Hlow : forall x, (x = a \/ x = t /\ dt_ltb t a = true) ->
                   dt_ltb t a = false \/ x = t ->
                   forall u, In u (l ++ [t]) -> dt_leb x u = true).
    { intros x Hx Hx' u Hu. destruct (Hin u Hu) as [Hu'| ->].
      - destruct Hx as [->|[-> Hlt]]; [now apply Hall|].
        apply dt_leb_trans with a; [now apply dt_ltb_leb | now apply Hall].
      - destruct Hx' as [Hge| ->]; [|apply dt_leb_refl].
        destruct Hx as [->|[-> Hlt]]; [now apply dt_ltb_false_leb | congruence]. }
    assert (Hhigh : forall x, (x = b \/ x = t /\ dt_ltb b t = true) ->
                    dt_ltb b t = false \/ x = t ->
                    forall u, In u (l ++ [t]) -> dt_leb u x = true).
    { intros x Hx Hx' u Hu. destruct (Hin u Hu) as [Hu'| ->].
      - destruct Hx as [->|[-> Hlt]]; [now apply Hall|].
        apply dt_leb_trans with b; [now apply Hall | now apply dt_ltb_leb].
      - destruct Hx' as [Hge| ->]; [|apply dt_leb_refl].
        destruct Hx as [->|[-> Hlt]]; [now apply dt_ltb_false_leb | congruence]. }
    destruct (dt_ltb t a) eqn:E1, (dt_ltb b t) eqn:E2;
      eexists _, _;
      (split; [reflexivity|]); (split; [reflexivity|]);
      (split; [solve [exact Ht | now apply Hl]|]);
      (split; [solve [exact Ht | now apply Hl]|]);
      intros u Hu; (split; [apply Hlow | apply Hhigh]); auto.
Qed.

End DatetimeOrder.

Section C9.
Context {U : UnicodeDB}.

Lemma line_stamp_step (line : str) (self : Parser) (acc : list datetime) :
  bounds (first_end_time self) (last_end_time self) acc ->
  let self' := state_of (parse_line line self) in
  bounds (first_end_time self') (last_end_time self') (acc ++ line_stamp line self).
Proof.
  intros Hb self'. pose proof (parse_line_end_view line self) as Hv.
  fold self' in Hv. unfold line_stamp, line_durations.
  destruct (first_seen_end line self) as [m|].
  - destruct Hv as (_ & _ & Hv).
    destruct (float_of_str (group m "time_total_ms")) as [vt|],
             (float_of_str (group m "time_working_ms")) as [vw|];
      try (injection Hv as -> ->; now rewrite app_nil_r).
    destruct (timestamp_of _) as [[ts|]|];
      try (injection Hv as -> ->; now rewrite app_nil_r).
    injection Hv as -> ->. now apply bounds_stamp.
  - destruct Hv as [Hv _]. injection Hv as -> ->. now rewrite app_nil_r.
Qed.

Lemma parse_bounds (f : list str) :
  let self := state_of (parse f init) in
  bounds (first_end_time self) (last_end_time self) (stamps f init).
Proof.
  apply (parse_collect_invariant line_stamp
           (fun self acc => bounds (first_end_time self) (last_end_time self) acc)
           line_stamp_step f init []).
  split; reflexivity.
Qed.

(** C9.  After processing any prefix of the input, also one cut short by a
    line that raises, the first and last end timestamps are both unset or
    both set; when set, the first is not later than the last; and they are
    the chronological minimum and maximum of the timestamps extracted from
    the first-seen query-end lines of that prefix (unset when there is
    none). *)
Theorem C9_first_last_bounds (f : list str) (n : nat) :
  let self := state_of (parse (firstn n f) init) in
  let ts := stamps (firstn n f) init in
  (first_end_time self = None <-> last_end_time self = None)
  /\ (forall a b, first_end_time self = Some a -> last_end_time self = Some b ->
                  dt_leb a b = true)
  /\ (ts = [] -> first_end_time self = None /\ last_end_time self = None)
  /\ (ts <> [] ->
        exists a b,
          first_end_time self = Some a /\ last_end_time self = Some b
          /\ In a ts /\ In b ts
          /\ forall t, In t ts -> dt_leb a t = true /\ dt_leb t b = true).
Proof.
  intros self ts. pose proof (parse_bounds (firstn n f)) as Hb.
  fold self ts in Hb. unfold bounds in Hb.
  destruct ts as [|t0 ts'].
  - destruct Hb as [-> ->]. repeat split; congruence.
  - destruct Hb as (a & b & -> & -> & Ha & Hb & Hall).
    split; [split; discriminate|].
    split; [intros ? ? [= <-] [= <-]; now apply Hall|].
    split; [discriminate|]. intros _. exists a, b. auto 10.
Qed.

End C9.

(* ===================================================================== *)
(** ** C10: sums, maxima and averages of the durations *)
(* ===================================================================== *)

Section C10.
Context {U : UnicodeDB}.

Lemma keep_max_spec (old v : float) :
  nonneg old = true -> nonneg v = true ->
  nonneg (keep_max old v) = true
  /\ fleb v (keep_max old v) = true
  /\ forall u, nonneg u = true -> fleb u old = true ->
               fleb u (keep_max old v) = true.
Proof.
  intros Ho Hv. unfold keep_max. destruct (fltb old v) eqn:E.
  - split; [exact Hv|]. split; [now apply fleb_refl|].
    intros u Hu Hle. now apply fleb_fltb_trans with old.
  - split; [exact Ho|]. split; [now apply fltb_false_fleb|]. auto.
Qed.

Lemma line_durations_step (line : str) (self : Parser)
      (acc : list (float * float)) :
  durations_inv self acc ->
  durations_inv (state_of (parse_line line self)) (acc ++ line_durations line self).
Proof.
  intros (H1 & H2 & H3 & H4 & Hall).
  pose proof (parse_line_end_view line self) as Hv. cbv zeta in Hv.
  set (self' := state_of (parse_line line self)) in *.
  unfold line_durations.
  assert (Hsame : end_view self' = end_view self ->
                  durations_inv self' (acc ++ [])).
  { intros [= _ _ E1 E2 E3 E4]. rewrite app_nil_r. unfold durations_inv.
    rewrite E1, E2, E3, E4. auto 10. }
  destruct (first_seen_end line self) as [m|]; [|now apply Hsame].
  destruct Hv as (_ & _ & Hv).
  destruct (float_of_str (group m "time_total_ms")) as [vt|] eqn:Et;
    [|now apply Hsame].
  destruct (float_of_str (group m "time_working_ms")) as [vw|] eqn:Ew;
    [|now apply Hsame].
  apply float_of_str_nonneg in Et, Ew.
  assert (Hacc : total_time_working_ms self'
                 = fadd (total_time_working_ms self) vw
                 /\ total_time_with_waiting_ms self'
                    = fadd (total_time_with_waiting_ms self) vt
                 /\ max_handling_time_working_ms self'
                    = keep_max (max_handling_time_working_ms self) vw
                 /\ max_handling_time_with_waiting_ms self'
                    = keep_max (max_handling_time_with_waiting_ms self) vt).
  { destruct (timestamp_of _) as [[ts|]|];
      injection Hv as _ _ E1 E2 E3 E4; auto. }
  destruct Hacc as (E1 & E2 & E3 & E4).
  destruct (keep_max_spec _ _ H3 Ew) as (Kw1 & Kw2 & Kw3).
  destruct (keep_max_spec _ _ H4 Et) as (Kt1 & Kt2 & Kt3).
  unfold durations_inv. rewrite E1, E2, E3, E4.
  split; [now apply fadd_nonneg|]. split; [now apply fadd_nonneg|].
  split; [exact Kw1|]. split; [exact Kt1|].
  intros ut uw Hu. apply in_app_or in Hu as [Hu|[[= <- <-]|[]]].
  - destruct (Hall _ _ Hu) as (? & ? & ? & ?). auto 10.
  - auto.
Qed.

Lemma parse_durations_inv (f : list str) :
  durations_inv (state_of (parse f init)) (durations f init).
Proof.
  apply (parse_collect_invariant line_durations durations_inv
           line_durations_step f init []).
  unfold durations_inv. simpl. repeat split; intros; contradiction.
Qed.

(** C10 (as the code has it).  After processing any input, the two sums and
    the two maxima are greater than or equal to zero, and each component of
    [max_times] is greater than or equal to every duration of that component
    that was accumulated (those of the first-seen query-end lines with
    converted durations). *)
Theorem C10_maxima_dominate_durations (f : list str) :
  let self := state_of (parse f init) in
  fleb float_zero (total_time_working_ms self) = true
  /\ fleb float_zero (total_time_with_waiting_ms self) = true
  /\ fleb float_zero (fst (max_times self)) = true
  /\ fleb float_zero (snd (max_times self)) = true
  /\ forall vt vw, In (vt, vw) (durations f init) ->
       fleb float_zero vt = true /\ fleb float_zero vw = true
       /\ fleb vw (fst (max_times self)) = true
       /\ fleb vt (snd (max_times self)) = true.
Proof.
  intros self. destruct (parse_durations_inv f) as (H1 & H2 & H3 & H4 & Hall).
  fold self in H1, H2, H3, H4, Hall. unfold max_times. simpl fst. simpl snd.
  repeat (split; [now apply fleb_zero|]).
  intros vt vw Hin. destruct (Hall _ _ Hin) as (? & ? & ? & ?).
  repeat (split; [now apply fleb_zero|]). auto.
Qed.

End C10.

Section C10_examples.
#[local] Existing Instance ascii_db.

(** Three finished queries, each with a working and a total time of 0.1 ms:
    the sums are 0.30000000000000004, the averages 0.10000000000000002, and
    both are greater than the maxima 0.1. *)
Lemma C10_counterexample :
  let f := [py "End Query{a1} [1], ok, spent { 0.1 : 0.0 queue, 0.1 work } ms, 5 bytes";
            py "End Query{a2} [2], ok, spent { 0.1 : 0.0 queue, 0.1 work } ms, 5 bytes";
            py "End Query{a3} [3], ok, spent { 0.1 : 0.0 queue, 0.1 work } ms, 5 bytes"] in
  let self := state_of (parse f init) in
  size (finished_query_ids self) = 3%nat
  /\ max_times self
     = (S754_finite false 7205759403792794 (-56),
        S754_finite false 7205759403792794 (-56))
  /\ average_times self
     = (S754_finite false 7205759403792795 (-56),
        S754_finite false 7205759403792795 (-56))
  /\ fleb (fst (average_times self)) (fst (max_times self)) = false
  /\ fleb (snd (average_times self)) (snd (max_times self)) = false.
Proof. vm_compute. auto 10. Qed.

End C10_examples.

(* ===================================================================== *)
(** ** C6, C7: derived metrics *)
(* ===================================================================== *)

Section Metrics.
Context {U : UnicodeDB}.

Lemma total_seconds_same (t : datetime) : total_seconds t t = float_zero.
Proof.
  unfold total_seconds, diff_seconds.
  replace ((toordinal t - toordinal t) * 86400
           + (seconds_of_day t - seconds_of_day t)) with 0 by lia.
  reflexivity.
Qed.

(** No more timestamps were extracted than queries finished. *)
Lemma line_stamp_count (line : str) (self : Parser) (acc : list datetime) :
  (length acc <= size (finished_query_ids self))%nat ->
  (length (acc ++ line_stamp line self)
   <= size (finished_query_ids (state_of (parse_line line self))))%nat.
Proof.
  intros H. pose proof (parse_line_end_view line self) as Hv. cbv zeta in Hv.
  unfold line_stamp, line_durations.
  destruct (first_seen_end line self) as [m|].
  - destruct Hv as (-> & Hnew & _).
    rewrite size_add_fresh by assumption.
    destruct (float_of_str (group m "time_total_ms")),
             (float_of_str (group m "time_working_ms")),
             (timestamp_of (rstrip_nl line)) as [[ts|]|];
      rewrite length_app; simpl; lia.
  - destruct Hv as [_ ->]. rewrite app_nil_r. exact H.
Qed.

Lemma stamps_count (f : list str) :
  (length (stamps f init)
   <= size (finished_query_ids (state_of (parse f init))))%nat.
Proof.
  apply (parse_collect_invariant line_stamp
           (fun self acc => (length acc <= size (finished_query_ids self))%nat)
           line_stamp_count f init []).
  simpl. lia.
Qed.

(** C6.  [rps] is 0.0 when no query finished or when a timestamp bound is
    unset; otherwise, with [span] the seconds from the first to the last
    recorded timestamp, it is the finished count itself when [span <= 0] and
    the finished count divided by [span] when not.  The span is 0 when the
    two bounds are equal timestamps, and after any input with exactly one
    finished query the bounds, when set, are equal. *)
Theorem C6_requests_per_second (self : Parser) :
  let c := Z.of_nat (size (finished_query_ids self)) in
  (c = 0 -> rps self = float_zero)
  /\ (first_end_time self = None \/ last_end_time self = None ->
        rps self = float_zero)
  /\ (forall first last,
        c <> 0 ->
        first_end_time self = Some first -> last_end_time self = Some last ->
        let span := total_seconds last first in
        (fleb span float_zero = true -> rps self = float_of_int c)
        /\ (fleb span float_zero = false ->
              rps self = fdiv (float_of_int c) span)
        /\ (first = last -> rps self = float_of_int c))
  /\ (forall f : list str,
        self = state_of (parse f init) -> c = 1 ->
        forall first last,
          first_end_time self = Some first -> last_end_time self = Some last ->
          first = last /\ rps self = float_of_int 1).
Proof.
  intros c.
  assert (Hgen : forall first last,
            c <> 0 ->
            first_end_time self = Some first -> last_end_time self = Some last ->
            let span := total_seconds last first in
            (fleb span float_zero = true -> rps self = float_of_int c)
            /\ (fleb span float_zero = false ->
                  rps self = fdiv (float_of_int c) span)
            /\ (first = last -> rps self = float_of_int c)).
  { intros first last Hc Hf Hl span. unfold rps. rewrite Hf, Hl. fold c.
    rewrite (proj2 (Z.eqb_neq c 0) Hc). fold span.
    split; [now intros ->|]. split; [now intros ->|].
    intros ->. unfold span. now rewrite total_seconds_same. }
  split; [|split; [|split; [exact Hgen|]]].
  - intros Hc. unfold rps. fold c. rewrite Hc.
    destruct (first_end_time self), (last_end_time self); reflexivity.
  - intros [H|H]; unfold rps; rewrite H; [reflexivity|].
    destruct (first_end_time self); reflexivity.
  - intros f Hself Hc first last Hf Hl.
    assert (Heq : first = last).
    { pose proof (stamps_count f) as Hn. pose proof (parse_bounds f) as Hb.
      cbv zeta in Hb. rewrite <- Hself in Hn, Hb. rewrite Hf, Hl in Hb.
      unfold bounds in Hb.
      destruct (stamps f init) as [|t0 [|t1 ts]].
      - destruct Hb; discriminate.
      - destruct Hb as (a & b & [= <-] & [= <-] & [<-|[]] & [<-|[]] & _).
        reflexivity.
      - simpl in Hn. unfold c in Hc. lia. }
    split; [exact Heq|]. rewrite <- Hc.
    apply (Hgen first last); [lia | assumption | assumption | exact Heq].
Qed.

Lemma parse_line_ids (line : str) (self : Parser) (acc : list Z) :
  new_query_ids self = list_to_set acc ->
  new_query_ids (state_of (parse_line line self))
  = list_to_set (acc ++ line_started line self).
Proof.
  intros H. rewrite list_to_set_app_L, <- H. unfold line_started.
  rewrite parse_line_category.
  assert (Hnil : new_query_ids self ∪ list_to_set [] = new_query_ids self)
    by apply union_empty_r_L.
  destruct (category_of (rstrip_nl line)) as [[]|] eqn:Hc;
    try (apply category_of_accepts, accepts_search in Hc as [m Hm];
         simpl in Hm); cbv iota.
  - unfold bind. simpl handler. rewrite _parse_connection_eq, Hm. simpl state_of.
    destruct (connection_effect_view m self) as (_ & _ & -> & _).
    now rewrite Hnil.
  - unfold bind. simpl handler. rewrite _parse_new_query_eq, Hm.
    destruct (int (group m "query_id")) as [query_id|] eqn:Hq;
      [|simpl state_of; now rewrite Hnil].
    apply int_Some in Hq as ->.
    destruct (bool_decide_reflect
                (int_of_digits (group m "query_id") ∈ new_query_ids self));
      simpl state_of; cbn [list_to_set]; rewrite union_empty_r_L.
    + apply set_eq. intros x. rewrite elem_of_union, elem_of_singleton.
      split; [auto | intros [H'| ->]; auto].
    + rewrite start_effect_ids. apply union_comm_L.
  - unfold bind. simpl handler. rewrite _parse_end_query_eq, Hm.
    destruct (int _); [|simpl state_of; now rewrite Hnil].
    destruct (bool_decide _); [simpl state_of; now rewrite Hnil|].
    unfold end_outcome.
    destruct (float_of_str (group m "time_total_ms"));
      [|simpl state_of; now rewrite Hnil].
    destruct (float_of_str (group m "time_working_ms"));
      [|simpl state_of; now rewrite Hnil].
    destruct (timestamp_of _) as [[ts|]|]; simpl state_of; now rewrite Hnil.
  - simpl state_of. now rewrite Hnil.
Qed.

(** The started ids are the numeric ids of the query-start lines read. *)
Lemma parse_ids (f : list str) :
  new_query_ids (state_of (parse f init)) = list_to_set (started f init).
Proof.
  apply (parse_collect_invariant line_started
           (fun self acc => new_query_ids self = list_to_set acc)
           parse_line_ids f init []).
  reflexivity.
Qed.

(** C7.  [average_words] is the word total divided by the number of distinct
    started query ids, and 0.0 when there is none; [average_times] is the
    pair (working sum, total sum), each divided by the number of finished
    queries, and (0.0, 0.0) when there is none; on an empty input both are
    these zero defaults.  The started ids are the distinct numeric ids of the
    query-start lines that were read. *)
Theorem C7_averages (self : Parser) :
  let n := Z.of_nat (size (new_query_ids self)) in
  let c := Z.of_nat (size (finished_query_ids self)) in
  (n = 0 -> average_words self = float_zero)
  /\ (n <> 0 -> average_words self = int_true_div (total_words self) n)
  /\ (c = 0 -> average_times self = (float_zero, float_zero))
  /\ (c <> 0 ->
        average_times self
        = (fdiv (total_time_working_ms self) (float_of_int c),
           fdiv (total_time_with_waiting_ms self) (float_of_int c)))
  /\ average_words (state_of (parse [] init)) = float_zero
  /\ average_times (state_of (parse [] init)) = (float_zero, float_zero)
  /\ (forall f : list str,
        self = state_of (parse f init) ->
        n = Z.of_nat (length (remove_dups (started f init)))).
Proof.
  intros n c. unfold average_words, average_times. fold n c.
  split; [now intros ->|].
  split; [intros H; now rewrite (proj2 (Z.eqb_neq n 0) H)|].
  split; [now intros ->|].
  split; [intros H; now rewrite (proj2 (Z.eqb_neq c 0) H)|].
  split; [reflexivity|]. split; [reflexivity|].
  intros f ->. unfold n. rewrite parse_ids.
  f_equal.
  assert (Hd : list_to_set (remove_dups (started f init))
               = (list_to_set (started f init) : gset Z)).
  { apply set_eq. intros x.
    now rewrite !elem_of_list_to_set, elem_of_remove_dups. }
  rewrite <- Hd. apply size_list_to_set, NoDup_remove_dups.
Qed.

End Metrics.

Section Metrics_examples.
#[local] Existing Instance ascii_db.

(** Five finished queries, stamped 10:00:00 to 10:00:10: 0.5 per second. *)
Lemma C6_witness :
  let f := [py "[01.02.23 10:00:00] End Query{a1} [1], ok, spent { 1.0 : 0.0 queue, 1.0 work } ms, 5 bytes";
            py "[01.02.23 10:00:10] End Query{a2} [2], ok, spent { 1.0 : 0.0 queue, 1.0 work } ms, 5 bytes";
            py "End Query{a3} [3], ok, spent { 1.0 : 0.0 queue, 1.0 work } ms, 5 bytes";
            py "End Query{a4} [4], ok, spent { 1.0 : 0.0 queue, 1.0 work } ms, 5 bytes";
            py "End Query{a5} [5], ok, spent { 1.0 : 0.0 queue, 1.0 work } ms, 5 bytes"] in
  rps (state_of (parse f init)) = S754_finite false 4503599627370496 (-53).
Proof.
  intros f.
  destruct (C6_requests_per_second (state_of (parse f init))) as (_ & _ & H & _).
  destruct (H {| year := 2023; month := 2; day := 1;
                 hour := 10; minute := 0; second := 0 |}
              {| year := 2023; month := 2; day := 1;
                 hour := 10; minute := 0; second := 10 |})
    as (_ & Hdiv & _);
    [vm_compute; discriminate | vm_compute; reflexivity | vm_compute; reflexivity |].
  rewrite Hdiv by (vm_compute; reflexivity). vm_compute. reflexivity.
Defined.

Lemma C7_witness :
  let f := [py "On Conn{ab} new Query{c1} [1]: select a from b";
            py "On Conn{ab} new Query{c2} [2]: ping";
            py "On Conn{ab} new Query{c1} [1]: select a from b"] in
  average_words (state_of (parse f init))
  = int_true_div 5 2
  /\ size (new_query_ids (state_of (parse f init))) = 2%nat.
Proof.
  intros f.
  destruct (C7_averages (state_of (parse f init))) as (_ & H & _ & _ & _ & _ & Hn).
  split.
  - rewrite H by (vm_compute; discriminate). vm_compute. reflexivity.
  - apply Nat2Z.inj. rewrite (Hn f eq_refl). vm_compute. reflexivity.
Defined.

End Metrics_examples.

(* ===================================================================== *)
(** ** C8: a query-start line with a blank request text *)
(* ===================================================================== *)

Section C8.
Context {U : UnicodeDB}.

Lemma drop_while_nil (p : char -> bool) (s : str) :
  drop_while p s = [] <-> forallb p s = true.
Proof.
  induction s as [|c s IH]; simpl; [tauto|].
  destruct (p c); simpl; [exact IH|]. split; discriminate.
Qed.

Lemma drop_while_head (p : char -> bool) (s : str) (c : char) (r : str) :
  drop_while p s = c :: r -> p c = false.
Proof.
  induction s as [|x s IH]; simpl; [discriminate|].
  destruct (p x) eqn:E; [exact IH|]. now intros [= <- _].
Qed.

Lemma forallb_rev (p : char -> bool) (s : str) : forallb p (rev s) = forallb p s.
Proof.
  induction s as [|c s IH]; simpl; [reflexivity|].
  rewrite forallb_app, IH. simpl. rewrite andb_true_r. apply andb_comm.
Qed.

(** The trimmed text is empty exactly when the text is all white space. *)
Lemma strip_nil (s : str) : strip s = [] <-> forallb isspace s = true.
Proof.
  unfold strip, lstrip. split.
  - intros H. apply (f_equal (@rev N)) in H. rewrite rev_involutive in H.
    simpl in H. apply drop_while_nil in H. rewrite forallb_rev in H.
    destruct (drop_while isspace s) as [|c r] eqn:E.
    + now apply drop_while_nil.
    + apply drop_while_head in E. simpl in H. now rewrite E in H.
  - intros H. apply drop_while_nil in H. rewrite H. reflexivity.
Qed.

(** C8 (as the code has it).  In every line [NEW_QUERY] matches, the text
    field holds at least one character ([.+]).  When the trimmed text is
    empty, that is when the field is all white space, a line handed to the
    query-start handler with an id that [int] converts and that was not seen
    before marks the query started and counts it among the started queries,
    and leaves the frequency table and the word total as they were.  When the
    id has more digits than [int] converts, the line raises [ValueError] and
    nothing is started. *)
Theorem C8_blank_text_is_started (line0 : str) (self : Parser) (m : mstate) :
  category_of (rstrip_nl line0) = Some QueryStart ->
  search NEW_QUERY (rstrip_nl line0) = Some m ->
  let text := group m "text_decoded" in
  let self1 := state_of (parse_line line0 self) in
  text <> []
  /\ (strip text = [] <-> forallb isspace text = true)
  /\ (forall query_id : Z,
        int (group m "query_id") = Some query_id ->
        strip text = [] -> query_id ∉ new_query_ids self ->
        parse_line line0 self = Returns tt self1
        /\ query_id ∈ new_query_ids self1
        /\ size (new_query_ids self1) = S (size (new_query_ids self))
        /\ request_freq self1 = request_freq self
        /\ total_words self1 = total_words self)
  /\ (int (group m "query_id") = None -> parse_line line0 self = Raises self).
Proof.
  intros Hc Hm text self1.
  split.
  { destruct (NEW_QUERY_match _ _ Hm) as (? & ? & ? & ? & t & ? & _ & _ & _ & Ht & Hne & _).
    unfold text. now rewrite Ht. }
  split; [apply strip_nil|].
  split; [|exact (parse_line_start_rejected line0 self m Hc Hm)].
  intros query_id Hq Hs Hnew.
  destruct (start_line_once line0 self m query_id Hc Hm Hq)
    as (H1 & _ & Hin & _ & Hfirst).
  destruct (Hfirst Hnew) as (Hsize & _ & Hempty).
  destruct (Hempty Hs) as [Hf Hw]. auto 10.
Qed.

End C8.

Section C8_examples.
#[local] Existing Instance ascii_db.

(** Nothing follows ["]: "]: the line is not a query-start line, and query 5
    is not started. *)
Lemma C8_counterexample :
  let line := py "On Conn{ab} new Query{cd} [5]: " in
  search NEW_QUERY line = None
  /\ parse_line line init = Returns tt init
  /\ size (new_query_ids (state_of (parse_line line init))) = 0%nat.
Proof. vm_compute. auto. Qed.

(** One blank after ["]: "]: query 5 is started, nothing is counted. *)
Lemma C8_witness :
  let line := py "On Conn{ab} new Query{cd} [5]:  " in
  parse_line line init = Returns tt (set_new_query_ids {[ 5 ]} init).
Proof.
  intros line.
  destruct (search NEW_QUERY (rstrip_nl line)) as [m|] eqn:Hm;
    [|vm_compute in Hm; discriminate].
  assert (Hc : category_of (rstrip_nl line) = Some QueryStart)
    by (vm_compute; reflexivity).
  destruct (C8_blank_text_is_started line init m Hc Hm) as (_ & _ & H & _).
  assert (Ht : strip (group m "text_decoded") = [])
    by (vm_compute in Hm; injection Hm as <-; reflexivity).
  assert (Hid : int (group m "query_id") = Some 5)
    by (vm_compute in Hm; injection Hm as <-; vm_compute; reflexivity).
  destruct (H 5 Hid Ht) as (H1 & _); [set_solver|].
  rewrite H1. vm_compute. reflexivity.
Defined.

End C8_examples.

(* ===================================================================== *)
(** ** More on the line loop *)
(* ===================================================================== *)

Section Loop.
Context {U : UnicodeDB}.

(** The substring guards of [parse] never change what a line does: with or
    without its guard, every handler gives the same result on every line, so
    [parse_line] is the plain sequence of the three handlers. *)
Theorem guards_are_redundant (line0 : str) (self : Parser) :
  (forall c : category,
     attempt c (rstrip_nl line0) self = handler c (rstrip_nl line0) self)
  /\ parse_line line0 self
     = (b <- _parse_connection (rstrip_nl line0) ;;
        if (b : bool) then ret tt
        else b <- _parse_new_query (rstrip_nl line0) ;;
             if (b : bool) then ret tt
             else _parse_end_query (rstrip_nl line0) ;; ret tt) self.
Proof.
  assert (H : forall (c : category) (s : Parser),
            attempt c (rstrip_nl line0) s = handler c (rstrip_nl line0) s).
  { intros c s. unfold attempt.
    destruct (contains (guard c) (rstrip_nl line0)) eqn:Hg; [reflexivity|].
    destruct (search (regex c) (rstrip_nl line0)) as [m|] eqn:Hm.
    - apply match_has_guard in Hm. congruence.
    - now rewrite handler_no_match. }
  split; [intros c; apply H|].
  rewrite parse_line_dispatch. cbn [dispatch]. unfold bind.
  rewrite (H ConnectionOpen). simpl handler.
  destruct (_parse_connection (rstrip_nl line0) self) as [[] s1|s1];
    try reflexivity.
  rewrite (H QueryStart). simpl handler.
  destruct (_parse_new_query (rstrip_nl line0) s1) as [[] s2|s2];
    try reflexivity.
  rewrite (H QueryEnd). simpl handler.
  destruct (_parse_end_query (rstrip_nl line0) s2) as [[] s3|s3]; reflexivity.
Qed.

Lemma rstrip_nl_newlines (line : str) (k : nat) :
  rstrip_nl (line ++ repeat 10%N k) = rstrip_nl line.
Proof.
  unfold rstrip_nl. rewrite rev_app_distr. f_equal.
  assert (Hr : rev (repeat 10%N k) = repeat 10%N k).
  { induction k as [|k IH]; [reflexivity|].
    simpl. rewrite IH. symmetry. apply repeat_cons. }
  rewrite Hr. clear Hr.
  induction k as [|k IH]; [reflexivity | exact IH].
Qed.

(** Newlines at the end of a line do not matter: a last line without its
    newline, or a line followed by several, is processed as the same line. *)
Theorem trailing_newlines_ignored (line : str) (k : nat) (self : Parser) :
  parse_line (line ++ repeat 10%N k) self = parse_line line self.
Proof.
  rewrite !parse_line_dispatch. now rewrite rstrip_nl_newlines.
Qed.

(** Reading a log in two pieces: the second piece is read from the state the
    first piece leaves, unless the first piece raised, and then nothing of
    the second is read. *)
Theorem parse_app (f g : list str) (self : Parser) :
  parse (f ++ g) self
  = match parse f self with
    | Returns _ self' => parse g self'
    | Raises self' => Raises self'
    end.
Proof.
  revert self. induction f as [|line f IH]; intros self; simpl; [reflexivity|].
  unfold bind. destruct (parse_line line self) as [[] s1|s1]; [apply IH | reflexivity].
Qed.

Lemma parse_raise_point (f : list str) (self self' : Parser) :
  parse f self = Raises self' ->
  exists (pre : list str) (line : str) (post : list str) (s : Parser),
    f = pre ++ line :: post
    /\ parse pre self = Returns tt s
    /\ parse_line line s = Raises self'
    /\ (id_rejected line = true /\ self' = s
        \/ exists m : mstate,
             first_seen_end line s = Some m
             /\ (float_of_str (group m "time_total_ms") = None
                 \/ float_of_str (group m "time_working_ms") = None
                 \/ timestamp_of (rstrip_nl line) = None)).
Proof.
  revert self. induction f as [|line f IH]; intros self; simpl; [discriminate|].
  unfold bind. destruct (parse_line line self) as [[] s1|s1] eqn:E.
  - intros H. destruct (IH _ H) as (pre & l & post & s & -> & Hp & Hl & Hm).
    exists (line :: pre), l, post, s. split; [reflexivity|].
    split; [|exact (conj Hl Hm)].
    simpl. unfold bind. now rewrite E.
  - intros [= <-].
    exists [], line, f, self. split; [reflexivity|]. split; [reflexivity|].
    split; [exact E|].
    destruct (proj1 (parse_line_raises_iff line self) (ex_intro _ s1 E))
      as [Hid|Hm]; [left|right; exact Hm].
    split; [exact Hid|]. rewrite (parse_line_id_rejected _ self Hid) in E.
    congruence.
Qed.

Lemma parse_returns_lines (f : list str) (self self' : Parser) :
  parse f self = Returns tt self' ->
  forall line, In line f -> exists s s', parse_line line s = Returns tt s'.
Proof.
  revert self. induction f as [|l f IH]; intros self H line; simpl; [tauto|].
  simpl in H. unfold bind in H.
  destruct (parse_line l self) as [[] s1|s1] eqn:E; [|discriminate].
  intros [<-|Hin]; [eauto | eapply IH; eauto].
Qed.

(** The state [Parser.parse] leaves is the state the loop leaves on the
    lines that were read. *)
Lemma parse_file_state (file : text_file) (self : Parser) :
  state_of (parse_file file self) = state_of (parse (lines_read file) self).
Proof.
  unfold parse_file, bind.
  destruct (parse (lines_read file) self) as [[] s|s]; [|reflexivity].
  destruct (ends file); reflexivity.
Qed.

(** [Parser.parse] raises in exactly two ways.  Either one line raises: the
    lines before it were read, the state is the one that line left, and the
    line is a query-start or query-end line with an id of more digits than
    [int] converts (the state is then the one before the line), or a
    first-seen query-end line with a duration that [float] rejects or a
    timestamp that [strptime] rejects.  Or every line that was read returned,
    and the file raised: it could not be opened or read, or its bytes are not
    UTF-8. *)
Theorem parse_raises_at (file : text_file) (self self' : Parser) :
  parse_file file self = Raises self'
  <-> (exists (pre : list str) (line : str) (post : list str) (s : Parser),
         lines_read file = pre ++ line :: post
         /\ parse pre self = Returns tt s
         /\ parse_line line s = Raises self'
         /\ (id_rejected line = true /\ self' = s
             \/ exists m : mstate,
                  first_seen_end line s = Some m
                  /\ (float_of_str (group m "time_total_ms") = None
                      \/ float_of_str (group m "time_working_ms") = None
                      \/ timestamp_of (rstrip_nl line) = None)))
      \/ (parse (lines_read file) self = Returns tt self' /\ ends file = false).
Proof.
  unfold parse_file, bind. split.
  - destruct (parse (lines_read file) self) as [[] s|s] eqn:E.
    + destruct (ends file); [discriminate|]. intros [= <-]. now right.
    + intros [= <-]. left. now apply parse_raise_point.
  - intros [(pre & line & post & s & -> & Hp & Hl & _)|[-> ->]]; [|reflexivity].
    rewrite parse_app, Hp. simpl. unfold bind. now rewrite Hl.
Qed.

(** A log without the text ["End Query{"]: [Parser.parse] returns exactly
    when the file is read to its end and no query-start line carries an id of
    more digits than [int] converts. *)
Theorem parse_returns_without_end_lines (file : text_file) (self : Parser) :
  (forall line, In line (lines_read file) ->
     contains (py "End Query{") (rstrip_nl line) = false) ->
  (exists self', parse_file file self = Returns tt self')
  <-> ends file = true
      /\ forall line, In line (lines_read file) -> id_rejected line = false.
Proof.
  intros H. unfold parse_file, bind. split.
  - intros [self' Hr].
    destruct (parse (lines_read file) self) as [[] s|s] eqn:E; [|discriminate].
    split; [destruct (ends file); [reflexivity|discriminate]|].
    intros line Hin. destruct (id_rejected line) eqn:Hid; [|reflexivity].
    destruct (parse_returns_lines _ _ _ E line Hin) as (s0 & s1 & Hl).
    rewrite (parse_line_id_rejected _ s0 Hid) in Hl. discriminate.
  - intros [He Hid]. rewrite He.
    destruct (parse (lines_read file) self) as [[] s|s] eqn:E; [eauto|].
    exfalso. apply parse_raise_point in E
      as (pre & line & post & s0 & Hf & _ & _ & Hcause).
    assert (Hin : In line (lines_read file)) by (rewrite Hf; apply in_elt).
    destruct Hcause as [[Hrej _]|(m & Hm & _)].
    + rewrite (Hid line Hin) in Hrej. discriminate.
    + specialize (H line Hin). unfold first_seen_end in Hm.
      destruct (category_of (rstrip_nl line)) as [[]|] eqn:Hc; try discriminate.
      apply category_of_accepts in Hc. unfold accepts in Hc. simpl guard in Hc.
      rewrite H in Hc. discriminate.
Qed.

End Loop.

Section Loop_examples.
#[local] Existing Instance ascii_db.

Lemma parse_raises_at_witness :
  exists (pre : list str) (line : str) (post : list str) (s : Parser),
    [py "On Conn{ab} new Query{cd} [5]: ping";
     py "End Query{cd} [5], ok, spent { 1..5 : 0.5 queue, 1.0 work } ms, 12 bytes";
     py "On Conn{ab} new Query{ce} [6]: pong"]
    = pre ++ line :: post
    /\ parse pre init = Returns tt s.
Proof.
  pose (file := {| lines_read :=
                     [py "On Conn{ab} new Query{cd} [5]: ping";
                      py "End Query{cd} [5], ok, spent { 1..5 : 0.5 queue, 1.0 work } ms, 12 bytes";
                      py "On Conn{ab} new Query{ce} [6]: pong"];
                   ends := true |}).
  destruct (proj1 (parse_raises_at file init
              (set_finished_query_ids {[ 5 ]}
                 (set_total_words 1
                    (set_request_freq {[ py "ping" := 1 ]}
                       (set_new_query_ids {[ 5 ]} init))))))
    as [(pre & line & post & s & H1 & H2 & _)|[_ H]];
    [vm_compute; reflexivity | | discriminate].
  exists pre, line, post, s. auto.
Defined.

Lemma parse_returns_without_end_lines_witness :
  exists self',
    parse_file
      {| lines_read := [py "Incoming Conn{ab} on 10.0.0.1:80 accepted, 1 of 10";
                        py "On Conn{ab} new Query{cd} [5]: ping"];
         ends := true |} init
    = Returns tt self'.
Proof.
  apply parse_returns_without_end_lines.
  - intros line [<-|[<-|[]]]; vm_compute; reflexivity.
  - split; [reflexivity|].
    intros line [<-|[<-|[]]]; vm_compute; reflexivity.
Defined.

End Loop_examples.

(* ===================================================================== *)
(** ** Nothing is ever removed *)
(* ===================================================================== *)

Section Grows.
Context {U : UnicodeDB}.

Lemma count_words_from_nonneg (b : bool) (s : str) : 0 <= count_words_from b s.
Proof.
  revert b; induction s as [|c s IH]; intros b; simpl; [lia|].
  destruct (isspace c); [apply IH|].
  specialize (IH true). destruct b; lia.
Qed.

Lemma count_words_nonneg (s : str) : 0 <= count_words s.
Proof. apply count_words_from_nonneg. Qed.

Lemma grows_refl (a : Parser) : grows a a.
Proof. unfold grows. repeat split; try reflexivity; intros; lia. Qed.

Lemma grows_trans (a b c : Parser) : grows a b -> grows b c -> grows a c.
Proof.
  unfold grows.
  intros (A1 & A2 & A3 & A4 & A5 & A6 & A7 & A8)
         (B1 & B2 & B3 & B4 & B5 & B6 & B7 & B8).
  repeat split; try (etransitivity; eassumption); try lia.
  intros t. specialize (A7 t). specialize (B7 t). lia.
Qed.

Lemma connection_effect_grows (m : mstate) (self : Parser) :
  grows self (connection_effect m self).
Proof.
  unfold connection_effect, grows.
  destruct (_extract_ip _) as [[|c ip]|]; cbn;
    rewrite ?dom_insert_L; repeat split; try reflexivity;
      try apply union_subseteq_r; intros; lia.
Qed.

Lemma count_effect_grows (text : str) (self : Parser) :
  grows self (count_effect text self).
Proof.
  unfold count_effect. destruct text as [|c t]; [apply grows_refl|].
  unfold grows. cbn -[count_words]. repeat split; try reflexivity.
  - intros t'. destruct (decide (c :: t = t')) as [<-|Hne].
    + rewrite lookup_insert_eq.
      destruct (request_freq self !! (c :: t)); simpl; lia.
    + rewrite lookup_insert_ne by assumption. lia.
  - pose proof (count_words_nonneg (c :: t)). lia.
Qed.

Lemma link_effect_grows (m : mstate) (self : Parser) :
  grows self (link_effect m self).
Proof.
  unfold link_effect.
  destruct (connections self !! _) as [[|c ip]|]; try apply grows_refl.
  unfold grows. cbn. rewrite dom_insert_L.
  repeat split; try reflexivity; try apply union_subseteq_r; intros; lia.
Qed.

Lemma start_effect_grows (m : mstate) (self : Parser) :
  grows self (start_effect m self).
Proof.
  unfold start_effect.
  eapply grows_trans; [|apply count_effect_grows].
  eapply grows_trans; [|apply link_effect_grows].
  unfold grows. cbn.
  repeat split; try reflexivity; try apply union_subseteq_r; intros; lia.
Qed.

Lemma end_outcome_grows (line : str) (m : mstate) (self : Parser) :
  grows self (state_of (end_outcome line m self)).
Proof.
  unfold end_outcome.
  destruct (float_of_str (group m "time_total_ms")) as [vt|],
           (float_of_str (group m "time_working_ms")) as [vw|];
    try destruct (timestamp_of line) as [[ts|]|];
    unfold grows; cbn;
    repeat split; try reflexivity; try apply union_subseteq_r; intros; lia.
Qed.

Lemma parse_line_grows (line : str) (self : Parser) :
  grows self (state_of (parse_line line self)).
Proof.
  rewrite parse_line_category.
  destruct (category_of (rstrip_nl line)) as [[]|] eqn:Hc;
    try (apply category_of_accepts, accepts_search in Hc as [m Hm];
         simpl in Hm); unfold bind; simpl handler.
  - rewrite _parse_connection_eq, Hm. apply connection_effect_grows.
  - rewrite _parse_new_query_eq, Hm.
    destruct (int _); [|apply grows_refl].
    destruct (bool_decide _); [apply grows_refl | apply start_effect_grows].
  - rewrite _parse_end_query_eq, Hm.
    destruct (int _); [|apply grows_refl].
    destruct (bool_decide _); [apply grows_refl|].
    pose proof (end_outcome_grows (rstrip_nl line) m self) as H.
    destruct (end_outcome _ m self); exact H.
  - apply grows_refl.
Qed.

(** [parse] never removes anything: whatever the log and the state it starts
    from, also when a line raises, the started and finished ids, the valid
    and invalid addresses, the registered connections and the linked queries
    are all kept, no frequency decreases and the word total does not
    decrease. *)
Theorem parse_only_adds (f : list str) (self : Parser) :
  grows self (state_of (parse f self)).
Proof.
  revert self. induction f as [|line f IH]; intros self; simpl.
  - apply grows_refl.
  - unfold bind. pose proof (parse_line_grows line self) as H.
    destruct (parse_line line self) as [[] s1|s1]; simpl in H; [|exact H].
    eapply grows_trans; [exact H | apply IH].
Qed.

End Grows.

(* ===================================================================== *)
(** ** The aggregates as functions of the log *)
(* ===================================================================== *)

Section Aggregates.
Context {U : UnicodeDB}.

Lemma occurrences_snoc (t x : str) (acc : list str) :
  occurrences t (acc ++ [x])
  = occurrences t acc + (if decide (x = t) then 1 else 0).
Proof.
  unfold occurrences. rewrite filter_app, length_app.
  rewrite (filter_cons _ x []), filter_nil.
  destruct (decide (x = t)); simpl; lia.
Qed.

Lemma occurrences_nonneg (t : str) (acc : list str) : 0 <= occurrences t acc.
Proof. unfold occurrences. lia. Qed.

Lemma occurrences_pos (t : str) (acc : list str) :
  0 < occurrences t acc <-> In t acc.
Proof.
  unfold occurrences. induction acc as [|x acc IH]; simpl.
  - split; [lia | tauto].
  - rewrite filter_cons. destruct (decide (x = t)) as [->|Hne]; simpl.
    + split; [auto | lia].
    + rewrite IH. split; [auto | intros [?|?]; [congruence | assumption]].
Qed.

(** What one line does to the frequency table, the word total and the
    started ids, told by the text it contributes. *)
Lemma parse_line_text_view (line0 : str) (self : Parser) :
  let self' := state_of (parse_line line0 self) in
  match line_text line0 self with
  | t :: _ =>
      line_text line0 self = [t] /\ t <> []
      /\ request_freq self'
         = <[t := default 0 (request_freq self !! t) + 1]> (request_freq self)
      /\ total_words self' = total_words self + count_words t
      /\ (size (new_query_ids self') = S (size (new_query_ids self)))%nat
  | [] =>
      request_freq self' = request_freq self
      /\ total_words self' = total_words self
  end.
Proof.
  intros self'. subst self'. unfold line_text. rewrite parse_line_category.
  destruct (category_of (rstrip_nl line0)) as [[]|] eqn:Hc;
    try (apply category_of_accepts, accepts_search in Hc as [m Hm];
         simpl in Hm); unfold bind; simpl handler; cbv iota.
  - rewrite _parse_connection_eq, Hm. unfold connection_effect.
    destruct (_extract_ip _) as [[|c ip]|]; auto.
  - rewrite _parse_new_query_eq, Hm.
    destruct (int (group m "query_id")) as [query_id|] eqn:Hq; [|simpl; auto].
    apply int_Some in Hq as ->.
    destruct (bool_decide_reflect
                (int_of_digits (group m "query_id") ∈ new_query_ids self))
      as [Hin|Hnew]; [simpl; auto|].
    simpl state_of.
    destruct (start_effect_counts m self) as [-> ->].
    rewrite start_effect_ids, size_add_fresh by assumption.
    unfold count_effect.
    destruct (strip (group m "text_decoded")) as [|c t]; [auto|].
    repeat split; auto; discriminate.
  - rewrite _parse_end_query_eq, Hm.
    destruct (int _); [|simpl; auto].
    destruct (bool_decide _); [simpl; auto|].
    unfold end_outcome.
    destruct (float_of_str (group m "time_total_ms")) as [vt|];
      [|simpl; auto].
    destruct (float_of_str (group m "time_working_ms")) as [vw|];
      [|simpl; auto].
    destruct (timestamp_of _) as [[ts|]|]; simpl; auto.
  - simpl. auto.
Qed.

Lemma line_text_step (line : str) (self : Parser) (acc : list str) :
  texts_inv self acc ->
  texts_inv (state_of (parse_line line self)) (acc ++ line_text line self).
Proof.
  intros (Hf & Hw & Hn & Hne).
  pose proof (parse_line_text_view line self) as Hv. cbv zeta in Hv.
  pose proof (parse_line_grows line self) as (Hsub & _).
  destruct (line_text line self) as [|t r].
  - destruct Hv as [E1 E2]. rewrite app_nil_r. unfold texts_inv.
    rewrite E1, E2. repeat split; auto.
    apply subseteq_size in Hsub. lia.
  - destruct Hv as ([= ->] & Ht & E1 & E2 & E3). unfold texts_inv.
    rewrite E1, E2, E3. split; [|split; [|split]].
    + intros t'. rewrite occurrences_snoc.
      pose proof (occurrences_nonneg t' acc) as Hpos.
      destruct (decide (t = t')) as [->|Hne'].
      * rewrite lookup_insert_eq, (Hf t').
        destruct (Z.eqb_spec (occurrences t' acc) 0) as [E|E];
          destruct (Z.eqb_spec (occurrences t' acc + 1) 0); try lia;
          simpl; f_equal; lia.
      * rewrite lookup_insert_ne by assumption. rewrite (Hf t').
        now rewrite Z.add_0_r.
    + unfold sum_words. rewrite fold_left_app. simpl.
      unfold sum_words in Hw. now rewrite Hw.
    + rewrite length_app. simpl. lia.
    + apply Forall_app. split; [exact Hne|]. now constructor.
Qed.

Lemma parse_texts_inv (f : list str) :
  texts_inv (state_of (parse f init)) (texts f init).
Proof.
  apply (parse_collect_invariant line_text texts_inv line_text_step f init []).
  unfold texts_inv. simpl. repeat split; auto; lia.
Qed.

(** After any log, the frequency of a text is the number of first-seen
    query-start lines whose trimmed text it is, a text that no such line
    carries has no entry, no key is empty, the word total is the sum of the
    words of those texts, and there are no more of them than started ids. *)
Theorem frequencies_count_first_seen_texts (f : list str) :
  let self := state_of (parse f init) in
  let ts := texts f init in
  (forall t, In t ts -> request_freq self !! t = Some (occurrences t ts)
                        /\ 1 <= occurrences t ts)
  /\ (forall t, ~ In t ts -> request_freq self !! t = None)
  /\ request_freq self !! [] = None
  /\ total_words self = sum_words ts
  /\ (length ts <= size (new_query_ids self))%nat.
Proof.
  intros self ts. destruct (parse_texts_inv f) as (Hf & Hw & Hn & Hne).
  fold self ts in Hf, Hw, Hn, Hne.
  assert (Hin : forall t, In t ts ->
            request_freq self !! t = Some (occurrences t ts)
            /\ 1 <= occurrences t ts).
  { intros t Ht. apply occurrences_pos in Ht. rewrite (Hf t).
    destruct (Z.eqb_spec (occurrences t ts) 0); [lia|]. split; [reflexivity | lia]. }
  assert (Hout : forall t, ~ In t ts -> request_freq self !! t = None).
  { intros t Ht. rewrite (Hf t).
    destruct (Z.eqb_spec (occurrences t ts) 0) as [|E]; [reflexivity|].
    exfalso. apply Ht, occurrences_pos.
    pose proof (occurrences_nonneg t ts). lia. }
  split; [exact Hin|]. split; [exact Hout|].
  split; [|auto].
  apply Hout. intros H. rewrite Forall_forall in Hne.
  apply list_elem_of_In in H. now apply (Hne [] H).
Qed.

(** *** Sums and maxima *)

Lemma line_durations_sums (line : str) (self : Parser)
      (acc : list (float * float)) :
  sums_inv self acc ->
  sums_inv (state_of (parse_line line self)) (acc ++ line_durations line self).
Proof.
  intros (H1 & H2 & H3 & H4).
  pose proof (parse_line_end_view line self) as Hv. cbv zeta in Hv.
  set (self' := state_of (parse_line line self)) in *.
  unfold line_durations.
  assert (Hsame : end_view self' = end_view self -> sums_inv self' (acc ++ [])).
  { intros [= _ _ E1 E2 E3 E4]. rewrite app_nil_r. unfold sums_inv.
    rewrite E1, E2, E3, E4. auto. }
  destruct (first_seen_end line self) as [m|]; [|now apply Hsame].
  destruct Hv as (_ & _ & Hv).
  destruct (float_of_str (group m "time_total_ms")) as [vt|];
    [|now apply Hsame].
  destruct (float_of_str (group m "time_working_ms")) as [vw|];
    [|now apply Hsame].
  assert (Hacc : total_time_working_ms self'
                 = fadd (total_time_working_ms self) vw
                 /\ total_time_with_waiting_ms self'
                    = fadd (total_time_with_waiting_ms self) vt
                 /\ max_handling_time_working_ms self'
                    = keep_max (max_handling_time_working_ms self) vw
                 /\ max_handling_time_with_waiting_ms self'
                    = keep_max (max_handling_time_with_waiting_ms self) vt).
  { destruct (timestamp_of _) as [[ts|]|];
      injection Hv as _ _ E1 E2 E3 E4; auto. }
  destruct Hacc as (E1 & E2 & E3 & E4).
  unfold sums_inv. rewrite E1, E2, E3, E4, !map_app, !fold_left_app.
  simpl. rewrite <- H1, <- H2, <- H3, <- H4. auto.
Qed.

Lemma parse_sums_inv (f : list str) :
  sums_inv (state_of (parse f init)) (durations f init).
Proof.
  apply (parse_collect_invariant line_durations sums_inv
           line_durations_sums f init []).
  unfold sums_inv. simpl. auto.
Qed.

Lemma parse_line_returns_count (line : str) (self self' : Parser) :
  parse_line line self = Returns tt self' ->
  size (finished_query_ids self')
  = (size (finished_query_ids self) + length (line_durations line self))%nat.
Proof.
  intros Hr. pose proof (parse_line_end_view line self) as Hv. cbv zeta in Hv.
  rewrite Hr in Hv. simpl state_of in Hv.
  assert (Hno : ~ exists s, parse_line line self = Raises s).
  { intros [s Hs]. congruence. }
  rewrite parse_line_raises_iff in Hno.
  unfold line_durations.
  destruct (first_seen_end line self) as [m|].
  - destruct Hv as (-> & Hnew & _). rewrite size_add_fresh by assumption.
    destruct (float_of_str (group m "time_total_ms")) as [vt|] eqn:Et;
      [|exfalso; apply Hno; right; exists m; auto].
    destruct (float_of_str (group m "time_working_ms")) as [vw|] eqn:Ew;
      [|exfalso; apply Hno; right; exists m; auto].
    simpl. lia.
  - destruct Hv as [_ ->]. simpl. lia.
Qed.

Lemma parse_returns_count (f : list str) (self self' : Parser) :
  parse f self = Returns tt self' ->
  size (finished_query_ids self')
  = (size (finished_query_ids self) + length (collect line_durations f self))%nat.
Proof.
  revert self. induction f as [|line f IH]; intros self; simpl.
  - intros [= <-]. lia.
  - unfold bind. destruct (parse_line line self) as [[] s1|s1] eqn:E;
      [|discriminate].
    intros H. rewrite (IH _ H), (parse_line_returns_count _ _ _ E), length_app.
    lia.
Qed.

(** After any log, each sum is the left-to-right binary64 sum, from 0.0, of
    the durations of the first-seen query-end lines, and each maximum is what
    strict comparison keeps of them, from 0.0; when [parse] returns, the
    number of finished ids is the number of those durations, so
    [average_times] divides each sum by the number of its terms. *)
Theorem sums_and_maxima_are_folds (f : list str) :
  let self := state_of (parse f init) in
  let ds := durations f init in
  total_time_with_waiting_ms self = fold_left fadd (List.map fst ds) float_zero
  /\ total_time_working_ms self = fold_left fadd (List.map snd ds) float_zero
  /\ snd (max_times self) = fold_left keep_max (List.map fst ds) float_zero
  /\ fst (max_times self) = fold_left keep_max (List.map snd ds) float_zero
  /\ (parse f init = Returns tt self ->
        size (finished_query_ids self) = length ds).
Proof.
  intros self ds. destruct (parse_sums_inv f) as (H1 & H2 & H3 & H4).
  fold self ds in H1, H2, H3, H4.
  repeat (split; [assumption|]).
  intros Hr. rewrite (parse_returns_count f init self Hr). reflexivity.
Qed.

End Aggregates.

(* ===================================================================== *)
(** ** Addresses *)
(* ===================================================================== *)

Section AddressFacts.

Lemma octet_not_nil (g : str) : octet g -> g <> [].
Proof. now intros (H & _). Qed.

Lemma dotted_quad_not_nil (s : str) : dotted_quad s -> s <> [].
Proof.
  intros (a & b & c & d & -> & Ha & _). apply octet_not_nil in Ha.
  destruct a; [congruence | discriminate].
Qed.

(** A dotted quad holds digits and points only. *)
Lemma dotted_quad_excludes (x : char) (s : str) :
  in_range "0" "9" x = false -> (x =? ch ".")%N = false ->
  dotted_quad s -> existsb (N.eqb x) s = false.
Proof.
  intros Hx Hdot (a & b & c & d & -> & Ha & Hb & Hc & Hd).
  assert (Hg : forall g, octet g -> existsb (N.eqb x) g = false).
  { intros g (_ & Hg & _). now apply digits_exclude. }
  change (join (ch ".") [a; b; c; d])
    with (a ++ ch "." :: b ++ ch "." :: c ++ ch "." :: d).
  rewrite existsb_app. cbn [existsb]. rewrite existsb_app. cbn [existsb].
  rewrite existsb_app. cbn [existsb].
  now rewrite !Hg, Hdot by assumption.
Qed.

Lemma dotted_quad_no_colon (s : str) :
  dotted_quad s -> contains (py ":") s = false.
Proof.
  intros H. change (py ":") with [ch ":"]. rewrite contains_single.
  now apply dotted_quad_excludes.
Qed.

(** [_extract_ip] gives the candidate when it is valid, and nothing else. *)
Lemma _extract_ip_eq (raw : str) :
  _extract_ip raw
  = if _is_valid_ipv4 (candidate raw) then Some (candidate raw) else None.
Proof. unfold _extract_ip, candidate. destruct (contains _ raw); reflexivity. Qed.

Lemma candidate_of_dotted_quad (s : str) : dotted_quad s -> candidate s = s.
Proof. intros H. unfold candidate. now rewrite dotted_quad_no_colon. Qed.

(** A token whose candidate is not valid is not valid as a whole. *)
Lemma invalid_candidate_invalid_token (raw : str) :
  ~ dotted_quad (candidate raw) -> ~ dotted_quad raw.
Proof.
  intros H Hq. apply H. now rewrite candidate_of_dotted_quad.
Qed.

Lemma octet_digit_bounds (g : str) :
  forallb (in_range "0" "9") g = true ->
  Forall (fun c => 48 <= Z.of_N c <= 57) g.
Proof.
  induction g as [|c g IH]; simpl; [constructor|].
  intros H. apply andb_true_iff in H as [Hc Hg].
  constructor; [|auto].
  unfold in_range, ch in Hc. simpl in Hc.
  apply andb_true_iff in Hc as [H1 H2]. apply N.leb_le in H1, H2. lia.
Qed.

(** An octet is read back from its value: no two octets have the same. *)
Lemma octet_value_inj (g h : str) :
  octet g -> octet h -> int_ascii g = int_ascii h -> g = h.
Proof.
  intros (Hg0 & Hgd & Hgl & Hgz & _) (Hh0 & Hhd & Hhl & Hhz & _).
  apply octet_digit_bounds in Hgd, Hhd.
  assert (Hzg : forall c r, g = c :: r -> r <> [] -> Z.of_N c <> 48).
  { intros c r -> Hr Hc. destruct Hgz as [[= _ ->]|Hz]; [congruence|].
    apply Hz. simpl. apply N2Z.inj. exact Hc. }
  assert (Hzh : forall c r, h = c :: r -> r <> [] -> Z.of_N c <> 48).
  { intros c r -> Hr Hc. destruct Hhz as [[= _ ->]|Hz]; [congruence|].
    apply Hz. simpl. apply N2Z.inj. exact Hc. }
  clear Hgz Hhz.
  destruct g as [|g1 [|g2 [|g3 [|? ?]]]]; try congruence; try (simpl in Hgl; lia);
    destruct h as [|h1 [|h2 [|h3 [|? ?]]]]; try congruence;
      try (simpl in Hhl; lia);
    repeat match goal with
           | H : Forall _ (_ :: _) |- _ => inversion H; subst; clear H
           | H : Forall _ [] |- _ => clear H
           end;
    try (specialize (Hzg _ _ eq_refl ltac:(discriminate)));
    try (specialize (Hzh _ _ eq_refl ltac:(discriminate)));
    unfold int_ascii; simpl fold_left; intros He;
    first [exfalso; lia | repeat f_equal; apply N2Z.inj; lia].
Qed.

Lemma parse_octet_range (g : str) (v : Z) : parse_octet g = Some v -> 0 <= v <= 255.
Proof.
  intros H. apply parse_octet_octet in H as ((_ & Hd & _ & _ & Hv) & ->).
  split; [|exact Hv]. unfold int_ascii. apply int_ascii_nonneg_from; [exact Hd | lia].
Qed.

Lemma IPv4Address_inv (s : str) (v : Z) :
  IPv4Address s = Some v ->
  exists a b c d,
    s = join (ch ".") [a; b; c; d]
    /\ octet a /\ octet b /\ octet c /\ octet d
    /\ v = ((int_ascii a * 256 + int_ascii b) * 256 + int_ascii c) * 256
           + int_ascii d.
Proof.
  unfold IPv4Address.
  destruct (contains (py "/") s); [discriminate|].
  destruct s as [|c0 s0] eqn:Es; [discriminate|]. rewrite <- Es.
  pose proof (join_split_on (ch ".") s) as Hj.
  destruct (split_on (ch ".") s) as [|a [|b [|c [|d [|e l]]]]];
    simpl length; simpl negb; cbv iota; try discriminate.
  simpl parse_octets.
  destruct (parse_octet a) as [va|] eqn:Ea; [|discriminate].
  destruct (parse_octet b) as [vb|] eqn:Eb; [|discriminate].
  destruct (parse_octet c) as [vc|] eqn:Ec; [|discriminate].
  destruct (parse_octet d) as [vd|] eqn:Ed; [|discriminate].
  cbn [option_map fold_left]. intros [= <-]. exists a, b, c, d.
  apply parse_octet_octet in Ea as [? ->], Eb as [? ->], Ec as [? ->], Ed as [? ->].
  split; [now symmetry|]. do 4 (split; [assumption|]). lia.
Qed.

(** [IPv4Address] reads an address below 2**32, and reads every address from
    one string only: the valid-address set, a set of strings, holds each
    address once. *)
Theorem valid_addresses_are_canonical (s1 s2 : str) (v : Z) :
  IPv4Address s1 = Some v -> IPv4Address s2 = Some v ->
  s1 = s2 /\ 0 <= v < 2 ^ 32.
Proof.
  intros H1 H2.
  apply IPv4Address_inv in H1 as (a & b & c & d & -> & Ha & Hb & Hc & Hd & Hv).
  apply IPv4Address_inv in H2 as (a' & b' & c' & d' & -> & Ha' & Hb' & Hc' & Hd' & Hv').
  assert (R : forall g, octet g -> 0 <= int_ascii g <= 255).
  { intros g Hg. apply (parse_octet_range g). now apply octet_parse_octet. }
  pose proof (R a Ha). pose proof (R b Hb). pose proof (R c Hc). pose proof (R d Hd).
  pose proof (R a' Ha'). pose proof (R b' Hb'). pose proof (R c' Hc').
  pose proof (R d' Hd').
  split; [|lia].
  assert (int_ascii a = int_ascii a') by lia.
  assert (int_ascii b = int_ascii b') by lia.
  assert (int_ascii c = int_ascii c') by lia.
  assert (int_ascii d = int_ascii d') by lia.
  now rewrite (octet_value_inj a a'), (octet_value_inj b b'),
    (octet_value_inj c c'), (octet_value_inj d d').
Qed.

End AddressFacts.

Section Addresses.
Context {U : UnicodeDB}.

(** [_extract_ip] returns a valid address that is the token itself or what
    precedes its first colon, and is a fixed point on what it returns; it
    returns [None] exactly when the candidate is not valid. *)
Theorem extract_ip_shape (raw : str) :
  (forall ip, _extract_ip raw = Some ip ->
     dotted_quad ip
     /\ (raw = ip \/ exists port, raw = ip ++ py ":" ++ port)
     /\ _extract_ip ip = Some ip)
  /\ (_extract_ip raw = None <-> ~ dotted_quad (candidate raw)).
Proof.
  rewrite _extract_ip_eq. split.
  - intros ip. destruct (_is_valid_ipv4 (candidate raw)) eqn:Hv; [|discriminate].
    intros [= <-]. pose proof Hv as Hq. apply IPv4Address_dotted_quad in Hq.
    split; [exact Hq|]. split.
    + unfold candidate. destruct (contains (py ":") raw) eqn:Hc; [|now left].
      right. change (py ":") with [ch ":"] in Hc. rewrite contains_single in Hc.
      destruct (before_first_split _ _ Hc) as (port & Hs & _). exists port.
      exact Hs.
    + rewrite _extract_ip_eq, (candidate_of_dotted_quad _ Hq), Hv. reflexivity.
  - destruct (_is_valid_ipv4 (candidate raw)) eqn:Hv.
    + apply IPv4Address_dotted_quad in Hv. split; [discriminate | tauto].
    + split; [|reflexivity]. intros _ Hq.
      apply IPv4Address_dotted_quad in Hq. congruence.
Qed.

Ltac in_sets :=
  repeat match goal with
         | H : _ ∈ _ ∪ _ |- _ => rewrite elem_of_union in H
         end;
  rewrite ?elem_of_union, ?elem_of_singleton; tauto.

Lemma addresses_inv_fields (a b : Parser) :
  all_ips a = all_ips b -> invalid_ips a = invalid_ips b ->
  connections a = connections b -> query_to_ip a = query_to_ip b ->
  new_query_ids a = new_query_ids b ->
  addresses_inv a -> addresses_inv b.
Proof.
  unfold addresses_inv. intros -> -> -> -> ->. auto.
Qed.

Lemma connection_effect_addresses (m : mstate) (self : Parser) :
  addresses_inv self -> addresses_inv (connection_effect m self).
Proof.
  intros (Ha & Hb & Hc & Hd). unfold connection_effect.
  rewrite _extract_ip_eq.
  set (raw := group m "raw_ip_port"). set (conn := group m "conn_hex_id").
  assert (Hbad : ~ dotted_quad (candidate raw) ->
            addresses_inv
              (set_connections (<[conn := raw]> (connections self))
                 (set_invalid_ips ({[raw]} ∪ invalid_ips self) self))).
  { intros Hq. unfold addresses_inv. cbn. split; [exact Ha|]. split; [|split].
    - intros t Ht. apply elem_of_union in Ht as [Ht|Ht]; [|now apply Hb].
      apply elem_of_singleton in Ht as ->.
      now apply invalid_candidate_invalid_token.
    - intros c ip. destruct (decide (conn = c)) as [<-|Hne].
      + rewrite lookup_insert_eq. intros [= <-]. in_sets.
      + rewrite lookup_insert_ne by assumption. intros H.
        specialize (Hc _ _ H). in_sets.
    - intros q ip H. destruct (Hd _ _ H). split; [assumption | in_sets]. }
  destruct (_is_valid_ipv4 (candidate raw)) eqn:Hv.
  - pose proof Hv as Hq. apply IPv4Address_dotted_quad in Hq.
    destruct (candidate raw) as [|c0 ip] eqn:Ec.
    { exfalso. now apply (dotted_quad_not_nil []). }
    unfold addresses_inv. cbn. split; [|split; [exact Hb|split]].
    + intros ip' Hip. apply elem_of_union in Hip as [Hip|Hip]; [|now apply Ha].
      now apply elem_of_singleton in Hip as ->.
    + intros c ip'. destruct (decide (conn = c)) as [<-|Hne].
      * rewrite lookup_insert_eq. intros [= <-]. in_sets.
      * rewrite lookup_insert_ne by assumption. intros H.
        specialize (Hc _ _ H). in_sets.
    + intros q ip' H. destruct (Hd _ _ H). split; [assumption | in_sets].
  - apply Hbad. intros Hq. apply IPv4Address_dotted_quad in Hq. congruence.
Qed.

Lemma start_effect_addresses (m : mstate) (self : Parser) :
  addresses_inv self -> addresses_inv (start_effect m self).
Proof.
  intros (Ha & Hb & Hc & Hd).
  set (q := int_of_digits (group m "query_id")).
  assert (H1 : addresses_inv
                 (link_effect m
                    (set_new_query_ids ({[q]} ∪ new_query_ids self) self))).
  { unfold link_effect. cbn [connections set_new_query_ids].
    destruct (connections self !! group m "conn_hex_id") as [[|c ip]|] eqn:E;
      unfold addresses_inv; cbn; fold q;
      (split; [exact Ha|]); (split; [exact Hb|]); (split; [exact Hc|]).
    - intros q' ip' H. destruct (Hd _ _ H). split; [in_sets | assumption].
    - intros q' ip'. destruct (decide (q = q')) as [<-|Hne].
      + rewrite lookup_insert_eq. intros [= <-].
        split; [in_sets | now apply (Hc _ _ E)].
      + rewrite lookup_insert_ne by assumption. intros H.
        destruct (Hd _ _ H). split; [in_sets | assumption].
    - intros q' ip' H. destruct (Hd _ _ H). split; [in_sets | assumption]. }
  unfold start_effect. fold q.
  eapply addresses_inv_fields; [| | | | |exact H1];
    unfold count_effect; destruct (strip _); reflexivity.
Qed.

Lemma parse_line_addresses (line : str) (self : Parser) :
  addresses_inv self -> addresses_inv (state_of (parse_line line self)).
Proof.
  intros H. rewrite parse_line_category.
  destruct (category_of (rstrip_nl line)) as [[]|] eqn:Hc;
    try (apply category_of_accepts, accepts_search in Hc as [m Hm];
         simpl in Hm); unfold bind; simpl handler.
  - rewrite _parse_connection_eq, Hm. now apply connection_effect_addresses.
  - rewrite _parse_new_query_eq, Hm.
    destruct (int _); [|exact H].
    destruct (bool_decide _); [exact H | now apply start_effect_addresses].
  - rewrite _parse_end_query_eq, Hm.
    destruct (int _); [|exact H].
    destruct (bool_decide _); [exact H|].
    unfold end_outcome.
    destruct (float_of_str (group m "time_total_ms")) as [vt|],
             (float_of_str (group m "time_working_ms")) as [vw|];
      try destruct (timestamp_of _) as [[ts|]|];
      (eapply addresses_inv_fields; [| | | | |exact H]); reflexivity.
  - exact H.
Qed.

Lemma parse_addresses (f : list str) (self : Parser) :
  addresses_inv self -> addresses_inv (state_of (parse f self)).
Proof.
  revert self. induction f as [|line f IH]; intros self H; simpl; [exact H|].
  unfold bind. pose proof (parse_line_addresses line self H) as H1.
  destruct (parse_line line self) as [[] s1|s1]; simpl in H1; [now apply IH | exact H1].
Qed.

(** After any log: every valid address is a dotted quad, no invalid token is
    one, so the two sets share nothing; every registered connection maps to
    a member of one of the two sets; and every linked query is a started one,
    linked to a member of one of the two sets. *)
Theorem address_bookkeeping (f : list str) :
  let self := state_of (parse f init) in
  (forall ip, ip ∈ all_ips self -> _is_valid_ipv4 ip = true)
  /\ (forall t, t ∈ invalid_ips self -> _is_valid_ipv4 t = false)
  /\ all_ips self ## invalid_ips self
  /\ (forall c ip, connections self !! c = Some ip ->
        ip ∈ all_ips self ∪ invalid_ips self)
  /\ (forall q ip, query_to_ip self !! q = Some ip ->
        q ∈ new_query_ids self /\ ip ∈ all_ips self ∪ invalid_ips self).
Proof.
  intros self.
  assert (H0 : addresses_inv init).
  { unfold addresses_inv. cbn.
    split; [intros ip H; now apply not_elem_of_empty in H|].
    split; [intros t H; now apply not_elem_of_empty in H|].
    split; [intros c ip H; rewrite lookup_empty in H; discriminate|].
    intros q ip H. rewrite lookup_empty in H. discriminate. }
  destruct (parse_addresses f init H0) as (Ha & Hb & Hc & Hd). fold self in Ha, Hb, Hc, Hd.
  split; [intros ip Hip; apply IPv4Address_dotted_quad; auto|].
  split.
  { intros t Ht. destruct (_is_valid_ipv4 t) eqn:E; [|reflexivity].
    apply IPv4Address_dotted_quad in E. now apply Hb in Ht. }
  split; [|auto].
  intros x H1 H2. exact (Hb x H2 (Ha x H1)).
Qed.

End Addresses.

Section Addresses_examples.
#[local] Existing Instance ascii_db.

Lemma valid_addresses_are_canonical_witness :
  py "10.0.0.1" = py "10.0.0.1" /\ 0 <= 167772161 < 2 ^ 32.
Proof.
  apply (valid_addresses_are_canonical (py "10.0.0.1") (py "10.0.0.1") 167772161);
    vm_compute; reflexivity.
Defined.

End Addresses_examples.

(* ===================================================================== *)
(** ** [most_popular_request] and the report of [main] *)
(* ===================================================================== *)

Section Popular.

Lemma max_by_count_first_max (best : str * Z) (items : list (str * Z)) :
  exists pre post,
    best :: items = pre ++ max_by_count best items :: post
    /\ (forall kv, In kv pre -> snd kv < snd (max_by_count best items))
    /\ (forall kv, In kv post -> snd kv <= snd (max_by_count best items)).
Proof.
  revert best. induction items as [|kv rest IH]; intros best; simpl.
  - exists [], []. repeat split; intros ? [].
  - destruct (Z.ltb_spec (snd best) (snd kv)) as [Hlt|Hge].
    + destruct (IH kv) as (pre & post & E & Hpre & Hpost).
      exists (best :: pre), post. split; [simpl; congruence|].
      split; [|exact Hpost].
      intros x [<-|Hx]; [|now apply Hpre].
      destruct pre as [|p pre'].
      * injection E as <- _. exact Hlt.
      * injection E as <- _. specialize (Hpre kv (or_introl eq_refl)). lia.
    + destruct (IH best) as (pre & post & E & Hpre & Hpost).
      destruct pre as [|p pre'].
      * injection E as E1 E2. exists [], (kv :: post).
        split; [simpl; congruence|].
        split; [intros ? []|].
        intros x [<-|Hx]; [rewrite <- E1; exact Hge | now apply Hpost].
      * injection E as <- E2. exists (best :: kv :: pre'), post.
        split; [simpl; congruence|].
        split; [|exact Hpost].
        pose proof (Hpre best (or_introl eq_refl)) as Hb.
        intros x [<-|[<-|Hx]]; [exact Hb | lia | apply Hpre; now right].
Qed.

(** [most_popular_request] returns [None] exactly when no request text was
    recorded; otherwise it returns a recorded text whose count no other
    count exceeds, and among the texts with that count the one the [dict]
    yields first.  This holds in whatever order the [dict] yields its items,
    and the count that [main] then looks up under the returned key is
    there. *)
Theorem most_popular_is_first_maximum (self : Parser) (items : list (list N * Z)) :
  items ≡ₚ map_to_list (request_freq self) ->
  (most_popular_request items = None <-> request_freq self = ∅)
  /\ (forall t, most_popular_request items = Some t ->
        exists n pre post,
          request_freq self !! t = Some n
          /\ (forall t' n', request_freq self !! t' = Some n' -> n' <= n)
          /\ items = pre ++ (t, n) :: post
          /\ (forall kv, In kv pre -> snd kv < n)).
Proof.
  intros Hp. split.
  - unfold most_popular_request. destruct items as [|kv rest].
    + split; [intros _|reflexivity].
      apply map_to_list_empty_iff. now apply Permutation_nil_l in Hp.
    + split; [discriminate|]. intros He. rewrite He, map_to_list_empty in Hp.
      now apply Permutation_nil_r in Hp.
  - intros t. unfold most_popular_request. destruct items as [|kv rest];
      [discriminate|].
    intros [= <-].
    destruct (max_by_count_first_max kv rest) as (pre & post & E & Hpre & Hpost).
    destruct (max_by_count kv rest) as [t n] eqn:Em. simpl in *.
    assert (Hin : forall k v, request_freq self !! k = Some v <-> In (k, v) (kv :: rest)).
    { intros k v. rewrite <- elem_of_map_to_list, <- Hp. apply list_elem_of_In. }
    exists n, pre, post. split; [|split; [|split; [exact E | exact Hpre]]].
    + apply Hin. rewrite E. apply in_elt.
    + intros t' n' H'. apply Hin in H'. rewrite E in H'.
      apply in_app_or in H' as [H'|[H'|H']].
      * specialize (Hpre _ H'). simpl in Hpre. lia.
      * injection H' as _ <-. lia.
      * specialize (Hpost _ H'). simpl in Hpost. lia.
Qed.

End Popular.

Section Report.

Lemma length_split_on (sep : char) (s : str) :
  length (split_on sep s) = S (length (filter (fun c => c = sep) s)).
Proof.
  induction s as [|c s IH]; [reflexivity|].
  cbn [split_on]. rewrite filter_cons.
  destruct (N.eqb_spec c sep) as [->|Hne].
  - rewrite decide_True by reflexivity. cbn [length]. now rewrite IH.
  - rewrite decide_False by assumption.
    destruct (split_on sep s) as [|w ws]; [discriminate | exact IH].
Qed.

Lemma length_split_on_dots (s : str) :
  length (split_on (ch ".") s) = S (dots s).
Proof. apply length_split_on. Qed.

Lemma split_invalid_none (t : str) :
  split_invalid t = None <-> (dots t < 3)%nat.
Proof.
  unfold split_invalid.
  destruct (nth_error (split_on (ch ".") t) 3) as [p|] eqn:E.
  - split; [discriminate|]. intros H.
    assert (Hl : (3 < length (split_on (ch ".") t))%nat).
    { apply nth_error_Some. congruence. }
    rewrite length_split_on_dots in Hl. lia.
  - split; [intros _|reflexivity].
    apply nth_error_None in E. rewrite length_split_on_dots in E. lia.
Qed.

(** The loop of [main] over the invalid tokens, in whatever order the set
    yields them: it raises [IndexError] exactly when some token holds fewer
    than three points; otherwise the first set gains, for every token, its
    first three point-separated segments joined by points, and the second one
    the fourth segment of every token. *)
Theorem main_invalid_report_spec (tokens : list str) (S P : gset (list N)) :
  (main_invalid_report tokens S P = None
   <-> exists t, In t tokens /\ (dots t < 3)%nat)
  /\ (forall S' P',
        main_invalid_report tokens S P = Some (S', P') ->
        (forall x, x ∈ S' <->
           x ∈ S \/ exists t, In t tokens
                     /\ x = join (ch ".") (firstn 3 (split_on (ch ".") t)))
        /\ (forall x, x ∈ P' <->
              x ∈ P \/ exists t, In t tokens
                        /\ nth_error (split_on (ch ".") t) 3 = Some x)).
Proof.
  revert S P. induction tokens as [|t rest IH]; intros S P;
    cbn [main_invalid_report].
  - split.
    + split; [discriminate | intros (? & [] & _)].
    + intros S' P' [= <- <-]. split; intros x; split; auto;
        intros [H|(? & [] & _)]; exact H.
  - destruct (split_invalid t) as [[pre port]|] eqn:E.
    + destruct (IH ({[pre]} ∪ S) ({[port]} ∪ P)) as [IH1 IH2].
      unfold split_invalid in E.
      destruct (nth_error (split_on (ch ".") t) 3) as [p|] eqn:En;
        [|discriminate].
      injection E as <- <-.
      split.
      * rewrite IH1. split.
        -- intros (t' & Ht' & Hd). exists t'. split; [now right | exact Hd].
        -- intros (t' & [<-|Ht'] & Hd); [|eauto].
           exfalso. apply split_invalid_none in Hd.
           unfold split_invalid in Hd. rewrite En in Hd. discriminate.
      * intros S' P' Hr. destruct (IH2 S' P' Hr) as [HS HP].
        split; intros x.
        -- rewrite HS, elem_of_union, elem_of_singleton. split.
           ++ intros [[->|H]|(t' & Ht' & Hx)];
                [ right; exists t; split; [now left | auto]
                | now left
                | right; exists t'; split; [now right | auto] ].
           ++ intros [H|(t' & [<-|Ht'] & Hx)];
                [left; now right | left; now left | right; exists t'; auto].
        -- rewrite HP, elem_of_union, elem_of_singleton. split.
           ++ intros [[->|H]|(t' & Ht' & Hx)];
                [ right; exists t; split; [now left | auto]
                | now left
                | right; exists t'; split; [now right | auto] ].
           ++ intros [H|(t' & [<-|Ht'] & Hx)];
                [left; now right | left; left; congruence | right; exists t'; auto].
    + split; [|discriminate]. split; [intros _|reflexivity].
      exists t. split; [now left | now apply split_invalid_none].
Qed.

Lemma no_sep_existsb (sep : char) (g : str) :
  length (filter (fun c => c = sep) g) = 0%nat -> existsb (N.eqb sep) g = false.
Proof.
  induction g as [|x g IH]; [reflexivity|].
  rewrite filter_cons. cbn [existsb].
  destruct (decide (x = sep)) as [->|Hne]; [discriminate|].
  intros H. rewrite (IH H), orb_false_r. apply N.eqb_neq. congruence.
Qed.

(** For a token of four or more segments the two entries are the first three
    segments and the fourth one: for [a.b.c.d:port] the entry called a port is
    [d:port], the last group of the address with the port. *)
Theorem split_invalid_segments (a b c d : str) (more : list str) :
  dots a = 0%nat -> dots b = 0%nat -> dots c = 0%nat -> dots d = 0%nat ->
  split_invalid (join (ch ".") (a :: b :: c :: d :: more))
  = Some (join (ch ".") [a; b; c], d).
Proof.
  intros Ha Hb Hc Hd.
  assert (Hno : forall g, dots g = 0%nat -> existsb (N.eqb (ch ".")) g = false).
  { intros g. apply no_sep_existsb. }
  unfold split_invalid.
  assert (Hs : exists tl, split_on (ch ".") (join (ch ".") (a :: b :: c :: d :: more))
                          = a :: b :: c :: d :: tl).
  { destruct more as [|e more'].
    - exists []. change (join (ch ".") [a; b; c; d])
        with (a ++ ch "." :: b ++ ch "." :: c ++ ch "." :: d).
      now rewrite !split_on_piece, split_on_last by auto.
    - eexists.
      change (join (ch ".") (a :: b :: c :: d :: e :: more'))
        with (a ++ ch "." :: b ++ ch "." :: c ++ ch "." :: d ++ ch "."
                :: join (ch ".") (e :: more')).
      now rewrite !split_on_piece by auto. }
  destruct Hs as [tl ->]. reflexivity.
Qed.

End Report.

Section Report_examples.
#[local] Existing Instance ascii_db.

Lemma most_popular_is_first_maximum_witness :
  let self :=
    state_of (parse [py "On Conn{ab} new Query{c1} [1]: ping";
                     py "On Conn{ab} new Query{c2} [2]: select 1";
                     py "On Conn{ab} new Query{c3} [3]: select 1"] init) in
  most_popular_request (map_to_list (request_freq self)) = Some (py "select 1")
  /\ request_freq self !! py "select 1" = Some 2.
Proof.
  intros self.
  destruct (most_popular_is_first_maximum self (map_to_list (request_freq self))
              (Permutation_refl _)) as [_ H].
  assert (E : most_popular_request (map_to_list (request_freq self))
              = Some (py "select 1")) by (vm_compute; reflexivity).
  split; [exact E|].
  destruct (H _ E) as (n & pre & post & Hn & _). vm_compute. reflexivity.
Defined.

Lemma split_invalid_segments_witness :
  split_invalid (py "192.168.0.300:5123") = Some (py "192.168.0", py "300:5123").
Proof.
  exact (split_invalid_segments (py "192") (py "168") (py "0") (py "300:5123") []
           eq_refl eq_refl eq_refl eq_refl).
Defined.

(** A log with a token of fewer than four segments: [main] raises. *)
Example main_raises_on_short_token :
  let self :=
    state_of (parse [py "Incoming Conn{ab} on localhost:80 accepted, 1 of 10"] init) in
  invalid_ips self = {[ py "localhost:80" ]}
  /\ main_invalid_report (elements (invalid_ips self)) ∅ ∅ = None.
Proof. vm_compute. auto. Qed.

End Report_examples.

(* ===================================================================== *)
(** ** A connection and the queries that arrive on it *)
(* ===================================================================== *)

Section Link.
Context {U : UnicodeDB}.

Lemma connection_effect_eq (m : mstate) (self : Parser) :
  let raw := group m "raw_ip_port" in
  let conn := group m "conn_hex_id" in
  connection_effect m self
  = if _is_valid_ipv4 (candidate raw)
    then set_connections (<[conn := candidate raw]> (connections self))
           (set_all_ips ({[candidate raw]} ∪ all_ips self) self)
    else set_connections (<[conn := raw]> (connections self))
           (set_invalid_ips ({[raw]} ∪ invalid_ips self) self).
Proof.
  intros raw conn. unfold connection_effect. fold raw conn.
  rewrite _extract_ip_eq.
  destruct (_is_valid_ipv4 (candidate raw)) eqn:Hv; [|reflexivity].
  apply IPv4Address_dotted_quad, dotted_quad_not_nil in Hv.
  destruct (candidate raw); [congruence | reflexivity].
Qed.

(** A connection-open line followed by a query-start line on the same
    connection, with a query id that [int] converts and that was not seen
    before: both lines return, the connection resolves to the address stored
    for it (the valid candidate, or else the whole token), that address is in
    the set of its kind, and the query is linked to it. *)
Theorem registered_connection_links_query
    (l1 l2 : str) (self : Parser) (m1 m2 : mstate) (query_id : Z) :
  category_of (rstrip_nl l1) = Some ConnectionOpen ->
  search CONNECTION (rstrip_nl l1) = Some m1 ->
  category_of (rstrip_nl l2) = Some QueryStart ->
  search NEW_QUERY (rstrip_nl l2) = Some m2 ->
  group m2 "conn_hex_id" = group m1 "conn_hex_id" ->
  int (group m2 "query_id") = Some query_id ->
  query_id ∉ new_query_ids self ->
  let raw := group m1 "raw_ip_port" in
  let valid := _is_valid_ipv4 (candidate raw) in
  let address := if valid then candidate raw else raw in
  let self2 := state_of (parse [l1; l2] self) in
  parse [l1; l2] self = Returns tt self2
  /\ connections self2 !! group m1 "conn_hex_id" = Some address
  /\ query_to_ip self2 !! query_id = Some address
  /\ address ∈ (if valid then all_ips self2 else invalid_ips self2).
Proof.
  intros Hc1 Hm1 Hc2 Hm2 Hconn Hint Hnew raw valid address self2.
  pose proof (int_Some _ _ Hint) as Hv. subst query_id.
  assert (Hne : address <> []).
  { unfold address, valid.
    destruct (_is_valid_ipv4 (candidate raw)) eqn:Hv.
    - now apply IPv4Address_dotted_quad, dotted_quad_not_nil in Hv.
    - destruct (CONNECTION_match _ _ Hm1)
        as (? & ? & r & ? & ? & ? & _ & _ & Hr & Hr' & _).
      unfold raw. now rewrite Hr. }
  set (s1 := connection_effect m1 self).
  assert (H1 : parse_line l1 self = Returns tt s1).
  { rewrite parse_line_category, Hc1. unfold bind. simpl handler.
    now rewrite _parse_connection_eq, Hm1. }
  assert (Hs1 : connections s1 !! group m1 "conn_hex_id" = Some address
                /\ new_query_ids s1 = new_query_ids self
                /\ address ∈ (if valid then all_ips s1 else invalid_ips s1)).
  { unfold s1. rewrite connection_effect_eq. fold raw valid. unfold address.
    destruct valid; cbn; rewrite lookup_insert_eq;
      (split; [reflexivity|]); (split; [reflexivity|]);
      apply elem_of_union_l, elem_of_singleton; reflexivity. }
  destruct Hs1 as (Hl1 & Hids & Hin1).
  set (q := int_of_digits (group m2 "query_id")) in *.
  assert (H2 : parse_line l2 s1 = Returns tt (start_effect m2 s1)).
  { rewrite parse_line_category, Hc2. unfold bind. simpl handler.
    rewrite _parse_new_query_eq, Hm2, Hint. fold q. rewrite Hids.
    now rewrite bool_decide_eq_false_2. }
  assert (Hp : parse [l1; l2] self = Returns tt (start_effect m2 s1)).
  { simpl. unfold bind. rewrite H1, H2. reflexivity. }
  unfold self2. rewrite Hp. simpl state_of.
  split; [reflexivity|].
  unfold start_effect, link_effect. fold q.
  set (s1' := set_new_query_ids _ s1).
  change (connections s1') with (connections s1).
  rewrite Hconn, Hl1.
  destruct address as [|c0 a0] eqn:Ea; [congruence|].
  unfold count_effect.
  destruct (strip (group m2 "text_decoded")); cbn;
    rewrite lookup_insert_eq; fold s1;
    (split; [exact Hl1|]); (split; [reflexivity|]);
    destruct valid; exact Hin1.
Qed.

End Link.

Section Link_examples.
#[local] Existing Instance ascii_db.

Lemma registered_connection_links_query_witness :
  let l1 := py "Incoming Conn{1f} on 192.168.0.7:5123 accepted, 3 of 100" in
  let l2 := py "On Conn{1f} new Query{9a} [42]: select 1" in
  query_to_ip (state_of (parse [l1; l2] init)) !! 42 = Some (py "192.168.0.7").
Proof.
  intros l1 l2.
  destruct (search CONNECTION (rstrip_nl l1)) as [m1|] eqn:Hm1;
    [|vm_compute in Hm1; discriminate].
  destruct (search NEW_QUERY (rstrip_nl l2)) as [m2|] eqn:Hm2;
    [|vm_compute in Hm2; discriminate].
  assert (Hc1 : category_of (rstrip_nl l1) = Some ConnectionOpen)
    by (vm_compute; reflexivity).
  assert (Hc2 : category_of (rstrip_nl l2) = Some QueryStart)
    by (vm_compute; reflexivity).
  assert (Hq : int (group m2 "query_id") = Some 42)
    by (vm_compute in Hm2; injection Hm2 as <-; vm_compute; reflexivity).
  assert (Hconn : group m2 "conn_hex_id" = group m1 "conn_hex_id").
  { vm_compute in Hm1, Hm2. injection Hm1 as <-. injection Hm2 as <-. reflexivity. }
  assert (Hraw : group m1 "raw_ip_port" = py "192.168.0.7:5123")
    by (vm_compute in Hm1; injection Hm1 as <-; reflexivity).
  assert (Hnew : 42 ∉ new_query_ids init) by apply not_elem_of_empty.
  destruct (registered_connection_links_query l1 l2 init m1 m2 42
              Hc1 Hm1 Hc2 Hm2 Hconn Hq Hnew) as (_ & _ & H & _).
  rewrite Hraw in H. exact H.
Defined.

End Link_examples.

(* ===================================================================== *)
(** ** Timestamps and elapsed seconds *)
(* ===================================================================== *)

Section Calendar.

Lemma days_before_year_succ (y : Z) :
  days_before_year (y + 1)
  = days_before_year y + 365 + (if is_leap y then 1 else 0).
Proof.
  unfold days_before_year, is_leap.
  replace (y + 1 - 1) with y by lia.
  destruct (Z.eqb_spec (y mod 4) 0), (Z.eqb_spec (y mod 100) 0),
           (Z.eqb_spec (y mod 400) 0); simpl;
    Z.to_euclidean_division_equations; lia.
Qed.

Lemma days_before_year_mono (y y' : Z) :
  y <= y' -> days_before_year y <= days_before_year y'.
Proof.
  intros H. unfold days_before_year.
  Z.to_euclidean_division_equations. lia.
Qed.

(** The days before a month, month by month. *)
Lemma days_before_month_table (y m : Z) :
  1 <= m <= 12 ->
  let l := if is_leap y then 1 else 0 in
  days_before_month y m
  = if m =? 1 then 0 else if m =? 2 then 31 else if m =? 3 then 59 + l
    else if m =? 4 then 90 + l else if m =? 5 then 120 + l
    else if m =? 6 then 151 + l else if m =? 7 then 181 + l
    else if m =? 8 then 212 + l else if m =? 9 then 243 + l
    else if m =? 10 then 273 + l else if m =? 11 then 304 + l
    else 334 + l.
Proof.
  intros Hm l.
  assert (Hc : m = 1 \/ m = 2 \/ m = 3 \/ m = 4 \/ m = 5 \/ m = 6 \/ m = 7
               \/ m = 8 \/ m = 9 \/ m = 10 \/ m = 11 \/ m = 12) by lia.
  unfold days_before_month, days_in_month, l.
  repeat destruct Hc as [->|Hc]; try subst m;
    cbn -[is_leap Z.add]; destruct (is_leap y); reflexivity.
Qed.

Lemma day_of_year_bounds (d : datetime) :
  valid_datetime d ->
  1 <= days_before_month (year d) (month d) + day d
    <= 365 + (if is_leap (year d) then 1 else 0).
Proof.
  intros (_ & Hm & Hd & _).
  rewrite (days_before_month_table _ _ Hm). cbv zeta.
  unfold days_in_month in Hd.
  assert (Hc : month d = 1 \/ month d = 2 \/ month d = 3 \/ month d = 4
               \/ month d = 5 \/ month d = 6 \/ month d = 7 \/ month d = 8
               \/ month d = 9 \/ month d = 10 \/ month d = 11 \/ month d = 12)
    by lia.
  repeat destruct Hc as [Hc|Hc]; rewrite Hc in *; cbn -[is_leap Z.add] in *;
    destruct (is_leap (year d)); lia.
Qed.

Lemma seconds_of_day_bounds (d : datetime) :
  valid_datetime d -> 0 <= seconds_of_day d < 86400.
Proof.
  intros (_ & _ & _ & Hh & Hm & Hs). unfold seconds_of_day. lia.
Qed.

(** The order in which [datetime] compares, field by field, is the order of
    the elapsed seconds. *)
Lemma dt_compare_epoch (a b : datetime) :
  valid_datetime a -> valid_datetime b ->
  match dt_compare a b with
  | Lt => epoch_seconds a < epoch_seconds b
  | Eq => a = b
  | Gt => epoch_seconds b < epoch_seconds a
  end.
Proof.
  intros Ha Hb.
  pose proof (day_of_year_bounds a Ha) as Da.
  pose proof (day_of_year_bounds b Hb) as Db.
  pose proof (seconds_of_day_bounds a Ha) as Sa.
  pose proof (seconds_of_day_bounds b Hb) as Sb.
  pose proof (days_before_year_succ (year a)) as Ya.
  pose proof (days_before_year_succ (year b)) as Yb.
  unfold epoch_seconds, toordinal.
  unfold dt_compare, dt_tuple, lex_compare.
  destruct (Z.compare_spec (year a) (year b)) as [Ey|Ey|Ey].
  - destruct Ha as (_ & Hma & Hda & Hha & Hmia & Hsa).
    destruct Hb as (_ & Hmb & Hdb & Hhb & Hmib & Hsb).
    rewrite Ey in *.
    rewrite (days_before_month_table _ _ Hma) in *.
    rewrite (days_before_month_table _ _ Hmb) in *. cbv zeta in *.
    unfold days_in_month in Hda, Hdb. unfold seconds_of_day in *.
    destruct (Z.compare_spec (month a) (month b)) as [Em|Em|Em].
    + rewrite Em in *.
      destruct (Z.compare_spec (day a) (day b)) as [Ed|Ed|Ed]; [|lia|lia].
      destruct (Z.compare_spec (hour a) (hour b)) as [Eh|Eh|Eh]; [|lia|lia].
      destruct (Z.compare_spec (minute a) (minute b)) as [Ei|Ei|Ei]; [|lia|lia].
      destruct (Z.compare_spec (second a) (second b)) as [Es|Es|Es]; [|lia|lia].
      destruct a, b; simpl in *; congruence.
    + assert (Hca : month a = 1 \/ month a = 2 \/ month a = 3 \/ month a = 4
                    \/ month a = 5 \/ month a = 6 \/ month a = 7 \/ month a = 8
                    \/ month a = 9 \/ month a = 10 \/ month a = 11) by lia.
      destruct (is_leap (year b));
        repeat destruct Hca as [Hca|Hca]; rewrite Hca in *;
          cbn -[Z.add Z.mul Z.lt Z.le] in *;
          repeat match goal with
                 | |- context [if ?c then _ else _] =>
                     destruct c eqn:?; try lia
                 end; lia.
    + assert (Hcb : month b = 1 \/ month b = 2 \/ month b = 3 \/ month b = 4
                    \/ month b = 5 \/ month b = 6 \/ month b = 7 \/ month b = 8
                    \/ month b = 9 \/ month b = 10 \/ month b = 11) by lia.
      destruct (is_leap (year b));
        repeat destruct Hcb as [Hcb|Hcb]; rewrite Hcb in *;
          cbn -[Z.add Z.mul Z.lt Z.le] in *;
          repeat match goal with
                 | |- context [if ?c then _ else _] =>
                     destruct c eqn:?; try lia
                 end; lia.
  - pose proof (days_before_year_mono (year a + 1) (year b) ltac:(lia)).
    destruct (is_leap (year a)); lia.
  - pose proof (days_before_year_mono (year b + 1) (year a) ltac:(lia)).
    destruct (is_leap (year b)); lia.
Qed.

End Calendar.

Section Timestamps.
Context {U : UnicodeDB}.

Lemma int_of_digits_nonneg (s : str) : 0 <= int_of_digits s.
Proof.
  unfold int_of_digits.
  assert (H : forall acc, 0 <= acc ->
              0 <= fold_left (fun acc c => 10 * acc + digit_value c) s acc).
  { induction s as [|c s IH]; intros acc Hacc; simpl; [exact Hacc|].
    apply IH. unfold digit_value. destruct (decimal c); lia. }
  apply H. lia.
Qed.

(** What [strptime] returns, the [datetime] constructor accepted. *)
Lemma strptime_valid (data : str) (dt : datetime) :
  strptime data = Some dt -> valid_datetime dt.
Proof.
  unfold strptime.
  destruct (format_matches data) as [|[[|fY [|fm [|fd [|fH [|fM [|fS [|? ?]]]]]]] [|? ?]] ?];
    try discriminate.
  cbn [year month day hour minute second].
  destruct (_ && _) eqn:E; [|discriminate].
  intros [= <-]. unfold valid_datetime. cbn [year month day hour minute second].
  repeat (apply andb_prop in E; destruct E as [E ?]).
  pose proof (int_of_digits_nonneg fH). pose proof (int_of_digits_nonneg fM).
  pose proof (int_of_digits_nonneg fS).
  repeat split; lia.
Qed.

Lemma collect_Forall {A : Type} (g : str -> Parser -> list A) (P : A -> Prop) :
  (forall line self x, In x (g line self) -> P x) ->
  forall f self x, In x (collect g f self) -> P x.
Proof.
  intros Hg f. induction f as [|line f IH]; intros self x; simpl; [tauto|].
  rewrite in_app_iff. intros [H|H]; [eauto|].
  destruct (parse_line line self) as [[] self'|self']; [eauto|destruct H].
Qed.

Lemma stamps_valid (f : list str) (self : Parser) (t : datetime) :
  In t (stamps f self) -> valid_datetime t.
Proof.
  apply collect_Forall. clear. intros line self x. unfold line_stamp.
  destruct (line_durations line self); [intros []|].
  unfold timestamp_of.
  destruct (search INTERNAL_TIMESTAMP (rstrip_nl line)) as [m|]; [|intros []].
  destruct (strptime _) as [dt|] eqn:E; [|intros []].
  simpl. intros [<-|[]]. eapply strptime_valid, E.
Qed.

(** The end times a [Parser] holds after [parse] are dates of the calendar,
    an hour, minute and second of the clock, and the seconds from the first
    to the last, which [rps] divides by, are never negative: they are zero
    only when the two are the same instant. *)
Theorem recorded_times_span (f : list str) (first last : datetime) :
  let self := state_of (parse f init) in
  first_end_time self = Some first ->
  last_end_time self = Some last ->
  valid_datetime first /\ valid_datetime last
  /\ 0 <= diff_seconds last first
  /\ (diff_seconds last first = 0 <-> first = last)
  /\ nonneg (total_seconds last first) = true.
Proof.
  intros self Hf Hl. pose proof (parse_bounds f) as Hb. fold self in Hb.
  unfold bounds in Hb. rewrite Hf, Hl in Hb.
  destruct (stamps f init) as [|t0 ts] eqn:Ets; [destruct Hb; discriminate|].
  destruct Hb as (a & b & [= <-] & [= <-] & Ha & Hb & Hall).
  rewrite <- Ets in Ha, Hb.
  pose proof (stamps_valid _ _ _ Ha) as Va.
  pose proof (stamps_valid _ _ _ Hb) as Vb.
  destruct (Hall first) as [_ Hle]; [rewrite <- Ets; exact Ha|].
  pose proof (dt_compare_epoch first last Va Vb) as Hc.
  unfold dt_leb in Hle. unfold epoch_seconds in Hc.
  assert (Hd : 0 <= diff_seconds last first
               /\ (diff_seconds last first = 0 <-> first = last)).
  { unfold diff_seconds.
    destruct (dt_compare first last); [| |discriminate].
    - subst last. split; [lia|]. split; [reflexivity|lia].
    - split; [lia|]. split; [lia|]. intros ->. lia. }
  destruct Hd as [Hd0 Hd1].
  repeat (split; [assumption|]).
  unfold total_seconds. apply int_true_div_nonneg; lia.
Qed.

End Timestamps.

Section Timestamps_examples.
#[local] Existing Instance ascii_db.

Lemma recorded_times_span_witness :
  diff_seconds
    {| year := 2023; month := 2; day := 1; hour := 10; minute := 0; second := 10 |}
    {| year := 2023; month := 2; day := 1; hour := 10; minute := 0; second := 0 |}
  >= 0.
Proof.
  pose (f := [py "[01.02.23 10:00:10] End Query{a1} [1], ok, spent { 1.0 : 0.0 queue, 1.0 work } ms, 5 bytes";
              py "[01.02.23 10:00:00] End Query{a2} [2], ok, spent { 1.0 : 0.0 queue, 1.0 work } ms, 5 bytes"]).
  assert (Hf : first_end_time (state_of (parse f init))
               = Some {| year := 2023; month := 2; day := 1;
                         hour := 10; minute := 0; second := 0 |})
    by (vm_compute; reflexivity).
  assert (Hl : last_end_time (state_of (parse f init))
               = Some {| year := 2023; month := 2; day := 1;
                         hour := 10; minute := 0; second := 10 |})
    by (vm_compute; reflexivity).
  destruct (recorded_times_span f _ _ Hf Hl) as (_ & _ & H & _).
  apply Z.le_ge. exact H.
Defined.

End Timestamps_examples.
